(** * The storefront component [App] of src/app/app.ts

    A shallow embedding of the Angular component: its signals become the
    fields of a record [App], its methods become computations in a small
    state-and-exception monad [M] whose third component collects the
    messages passed to [alert].

    Numbers.  TypeScript's [number] is an IEEE 754 binary64 value, modelled
    with the Standard Library's [spec_float] at precision 53 and maximal
    exponent 1024: [+], [*] and [/] round, and [<=] and [Math.floor]
    behave, exactly as the runtime's do.
    - [price], [quantity], the discount percentage and everything computed
      from them ([cartCount], [cartTotal], the index of the featured
      product) are binary64 values. The properties of rounding that the
      proofs need are derived here from the definitions of [SpecFloat].
    - An [id] is only ever compared with [===]; ids are integers in the data
      model, on which [===] is equality, so they are modelled as [Z]. So is
      [rating.count], which no method reads.
    - [generateStars] only applies [Math.floor], [% 1], [>=] and subtraction
      of small integers to its argument; all of these are exact on binary64,
      so the function is modelled on the exact rational value of a finite
      rating.
    - [Math.random()] is an input of [loadFeaturedProduct] and of
      [getDiscountedPrice]: a binary64 value.

    Run-time built-ins whose code is not part of the repository
    ([String.prototype.toLowerCase], [Number.prototype.toFixed], the
    conversion of a number to a string in a template literal, and
    [Number(text)]) are parameters of the sections that embed the
    component; reference instances are given for concrete runs.

    Not embedded: the [title] signal, which no method reads or writes. *)

From Stdlib Require Import ZArith QArith Qround String Ascii List Bool Lia.
From Stdlib Require Import Floats.SpecFloat.
From Stdlib Require Import Numbers.DecimalString.
From Stdlib Require Import Lqa.
Import ListNotations.

Local Open Scope string_scope.
Local Open Scope Z_scope.

(** ** Numbers *)

Module Binary64.

(** binary64 *)
Definition number : Type := spec_float.

Definition prec : Z := 53.
Definition emax : Z := 1024.

Definition add : number -> number -> number := SFadd prec emax.
Definition mul : number -> number -> number := SFmul prec emax.
Definition div : number -> number -> number := SFdiv prec emax.

(** [x <= y], [x < y] and [x === y]; all three are false when an operand is
    NaN. *)
Definition leb : number -> number -> bool := SFleb.
Definition ltb : number -> number -> bool := SFltb.
Definition eqb : number -> number -> bool := SFeqb.

(** The members of [spec_float] that are binary64 values: a finite one has a
    mantissa of at most 53 bits at the least exponent that fits it. *)
Definition valid : number -> bool := valid_binary prec emax.

(** The binary64 value nearest to an integer (the integer itself when its
    magnitude is at most 2^53). *)
Definition of_Z (n : Z) : number := binary_normalize prec emax n 0 false.

(** The value of a decimal literal [digits / 10^scale], such as 129.99
    written as [decimal 12999 2]: a correctly rounded quotient of two
    exactly represented integers is the binary64 value nearest to the
    literal. *)
Definition decimal (digits : Z) (scale : nat) : number :=
  div (of_Z digits) (of_Z (10 ^ Z.of_nat scale)).

(** Exact value of a finite number as [mantissa * 2^exponent] scaled by an
    integer [k], rounded to the nearest integer, ties towards +infinity
    (the choice of [n] in Number.prototype.toFixed). The argument is the
    magnitude [m * 2^e]. *)
Definition round_scaled (m : positive) (e : Z) (k : Z) : Z :=
  if 0 <=? e then Z.pos m * 2 ^ e * k
  else (2 * (Z.pos m * k) + 2 ^ (- e)) / (2 * 2 ^ (- e)).

(** A mantissa with its sign. *)
Definition signed (s : bool) (m : positive) : Z :=
  if s then Z.neg m else Z.pos m.

(** The exact value of a finite number. *)
Definition value_of (x : number) : option Q :=
  match x with
  | S754_zero _ => Some 0%Q
  | S754_finite s m e => Some (inject_Z (signed s m) * Qpower 2 e)%Q
  | _ => None
  end.

(** A number that [toFixed] prints in positional notation: a finite one of
    magnitude below 10^21. *)
Definition positional (x : number) : bool :=
  match x with
  | S754_zero _ => true
  | S754_finite _ m e =>
      if 0 <=? e then Z.pos m * 2 ^ e <? 10 ^ 21
      else Z.pos m <? 10 ^ 21 * 2 ^ (- e)
  | _ => false
  end.

(** [Math.floor(x)]: zeros, infinities and NaN are returned as they are, and
    so is a finite number without fraction bits; of any other number
    [m * 2^e], whose magnitude is below 2^53, the largest integer not above
    it. *)
Definition Math_floor (x : number) : number :=
  match x with
  | S754_finite s m e => if e <? 0 then of_Z (signed s m / 2 ^ (- e)) else x
  | _ => x
  end.

(** The integer that a number is, if it is one. *)
Definition integer_value (x : number) : option Z :=
  match x with
  | S754_zero _ => Some 0
  | S754_finite s m e =>
      if 0 <=? e then Some (signed s m * 2 ^ e)
      else if Z.pos m mod 2 ^ (- e) =? 0 then Some (signed s m / 2 ^ (- e))
           else None
  | _ => None
  end.

End Binary64.
Export Binary64.

(** ** Rounding *)

(** The quantities that [SpecFloat] computes on the way to a rounded result,
    named for the proofs below. *)

(** The number of bits of a mantissa. *)
Definition bit_length (m : positive) : Z := Z.pos (digits2_pos m).

(** A mantissa with no bit shifted out yet. *)
Definition exact_record (m : Z) : shr_record := Build_shr_record m false false.

(** The exponent of a number of magnitude below [2^e]: [max (e - 53) (-1074)]. *)
Definition fexp : Z -> Z := SpecFloat.fexp prec emax.

(** [q] at exponent [e] is the representation of a binary64 value. *)
Definition canonical (q : positive) (e : Z) : Prop :=
  fexp (bit_length q + e) = e /\ e <= 971.

(** The representation of the whole number [n], below 2^53. *)
Definition whole_mantissa (n : positive) : positive :=
  Z.to_pos (Z.pos n * 2 ^ (53 - bit_length n)).
Definition whole_exponent (n : positive) : Z := bit_length n - 53.

(** What [binary_round_aux] returns for a mantissa [m] at exponent [e] once
    the mantissa fits. *)
Definition finish (s : bool) (m e : Z) : number :=
  match m with
  | Z0 => S754_zero s
  | Z.pos p => if e <=? emax - prec then S754_finite s p e else S754_infinity s
  | Z.neg _ => S754_nan
  end.

(** A mantissa of fifty-four bits can only be 2^53: it is halved. *)
Definition pack (s : bool) (m e : Z) : number :=
  if m =? 2 ^ 53 then finish s (2 ^ 52) (e + 1) else finish s m e.

(** The number of low bits that the first shift of a rounding drops. *)
Definition shift_of (P : positive) (E : Z) : Z := fexp (bit_length P + E) - E.

(** [x] is the whole number [k]; zero may carry either sign. *)
Definition whole_number (k : Z) (x : number) : Prop :=
  x = of_Z k \/ (k = 0 /\ x = S754_zero true).

(** An outcome of [Math.random()]: a binary64 value that is at least 0 and
    less than 1. *)
Definition random_value (r : number) : Prop :=
  valid r = true /\ leb (of_Z 0) r = true /\ ltb r (of_Z 1) = true.

(** ** Strings *)

Definition Z_to_string (n : Z) : string := NilZero.string_of_int (Z.to_int n).

Fixpoint repeat_string (s : string) (n : nat) : string :=
  match n with
  | O => ""
  | S n' => s ++ repeat_string s n'
  end.

(** [s.includes(search)]: [search] occurs in [s] at some position. *)
Fixpoint includes (s search : string) : bool :=
  if prefix search s then true
  else match s with
       | EmptyString => false
       | String _ s' => includes s' search
       end.

(** A string is falsy exactly when it is empty. *)
Definition truthy (s : string) : bool := negb (String.eqb s "").

(** Reference instance of [toLowerCase]: the mapping of the letters A-Z,
    which is what the built-in does on ASCII text. *)
Definition ascii_lower (c : ascii) : ascii :=
  let n := nat_of_ascii c in
  if ((65 <=? n) && (n <=? 90))%nat then ascii_of_nat (n + 32) else c.

Fixpoint ascii_toLowerCase (s : string) : string :=
  match s with
  | EmptyString => EmptyString
  | String c s' => String (ascii_lower c) (ascii_toLowerCase s')
  end.

(** The digits of [n] with a point before the last [f] of them, after
    padding with zeros on the left to at least [f + 1] digits. *)
Definition toFixed_digits (n : Z) (f : nat) : string :=
  let m := Z_to_string n in
  let k := String.length m in
  let m := if (k <=? f)%nat then repeat_string "0" (f + 1 - k) ++ m else m in
  let k := Nat.max k (f + 1) in
  if (f =? 0)%nat then m
  else substring 0 (k - f) m ++ "." ++ substring (k - f) f m.

(** Reference instance of [x.toFixed(fractionDigits)], following the steps
    of Number.prototype.toFixed: non-finite values print as their names; a
    negative value prints "-" and its magnitude; the magnitude [x] is
    replaced by the integer [n] closest to [x * 10^f] (the larger one on a
    tie), which is printed by [toFixed_digits]. This is the built-in on the
    numbers for which [positional] holds; magnitudes of 10^21 and more,
    which the built-in prints in exponent notation, are outside this
    instance (it keeps the positional digits). *)
Definition reference_toFixed (x : number) (fractionDigits : nat) : string :=
  match x with
  | S754_nan => "NaN"
  | S754_infinity s => if s then "-Infinity" else "Infinity"
  | S754_zero _ => toFixed_digits 0 fractionDigits
  | S754_finite s m e =>
      (if s then "-" else "") ++
      toFixed_digits (round_scaled m e (10 ^ Z.of_nat fractionDigits))
        fractionDigits
  end.

(** The characters 0 to 9. *)
Definition is_digit (c : ascii) : bool :=
  ((48 <=? nat_of_ascii c) && (nat_of_ascii c <=? 57))%nat.

Fixpoint all_digits (s : string) : bool :=
  match s with
  | EmptyString => true
  | String c s' => is_digit c && all_digits s'
  end.

(** [s] without the zeros it ends with. *)
Fixpoint strip_zeros (s : string) : string :=
  match s with
  | EmptyString => EmptyString
  | String c s' =>
      let rest := strip_zeros s' in
      if Ascii.eqb c "0" && String.eqb rest EmptyString then EmptyString
      else String c rest
  end.

(** Reference instance of the conversion of a number to a string, as in a
    template literal: non-finite values print as their names, and a whole
    number prints as its decimal digits, which is what the built-in does
    below 10^21. Of any other number this instance prints the exact decimal
    expansion [m * 5^(-e) / 10^(-e)]; the built-in prints the shortest
    digits that read back as the number, which can be fewer. *)
Definition reference_toString (x : number) : string :=
  match x with
  | S754_nan => "NaN"
  | S754_infinity s => if s then "-Infinity" else "Infinity"
  | S754_zero _ => "0"
  | S754_finite s m e =>
      match integer_value x with
      | Some k => Z_to_string k
      | None =>
          (if s then "-" else "") ++
          strip_zeros (toFixed_digits (Z.pos m * 5 ^ (- e)) (Z.to_nat (- e)))
      end
  end.

(** The value of a string of decimal digits, after [value]. *)
Fixpoint parse_digits (s : string) (value : Z) : option Z :=
  match s with
  | EmptyString => Some value
  | String c s' =>
      if is_digit c
      then parse_digits s' (10 * value + Z.of_nat (nat_of_ascii c - 48))
      else None
  end.

(** The text before the first point, and the text after it if there is a
    point. *)
Fixpoint split_point (s : string) : string * option string :=
  match s with
  | EmptyString => (EmptyString, None)
  | String c s' =>
      if Ascii.eqb c "."
      then (EmptyString, Some s')
      else let '(before, after) := split_point s' in (String c before, after)
  end.

(** Reference instance of [Number(text)] on the texts that [toFixed]
    produces: an optional minus sign, then ["Infinity"], or decimal digits
    with at most one point among them; any other text but the empty one is
    read as NaN, as the built-in reads text that is not a numeric literal.
    The value is the binary64 number nearest to the literal as long as the
    digits, read as one integer, stay below 2^53 and there are at most 22
    fraction digits. White space, exponents and the prefixes 0x, 0o and 0b,
    which the built-in accepts, are outside this instance. *)
Definition reference_Number (text : string) : number :=
  let '(negative, body) :=
    match text with
    | String "-" rest => (true, rest)
    | _ => (false, text)
    end in
  let magnitude :=
    if String.eqb text EmptyString then S754_zero false
    else if String.eqb body "Infinity" then S754_infinity false
    else
      let '(before, after) := split_point body in
      let fraction := match after with Some f => f | None => EmptyString end in
      if String.eqb before EmptyString && String.eqb fraction EmptyString
      then S754_nan
      else match parse_digits (before ++ fraction) 0 with
           | Some digits => decimal digits (String.length fraction)
           | None => S754_nan
           end in
  if negative then SFopp magnitude else magnitude.

(** ** Interfaces *)

Record Rating : Type := mkRating {
  rate : number;
  count : Z
}.

Record Product : Type := mkProduct {
  id : Z;
  title : string;
  price : number;
  description : string;
  category : string;
  image : string;
  rating : Rating
}.

(** [CartItem extends Product]: the fields of a product and a quantity.
    [{ ...product, quantity: q }] is [mkCartItem product q]. *)
Record CartItem : Type := mkCartItem {
  product_fields : Product;
  quantity : number
}.

Definition item_id (item : CartItem) : Z := id (product_fields item).
Definition item_price (item : CartItem) : number := price (product_fields item).

(** [{ ...item, quantity: q }] *)
Definition with_quantity (item : CartItem) (q : number) : CartItem :=
  mkCartItem (product_fields item) q.

(** ** Component state: one field per signal *)

Record App : Type := mkApp {
  products : list Product;
  categories : list string;
  cart : list CartItem;
  currentFilter : string;
  searchQuery : string;
  featuredProduct : option Product;
  isLoading : bool;
  showApiWarning : bool
}.

(** The state of a freshly constructed component. *)
Definition initial : App :=
  mkApp [] [] [] "all" "" None false false.

Definition set_products (v : list Product) (s : App) : App :=
  mkApp v (categories s) (cart s) (currentFilter s) (searchQuery s)
        (featuredProduct s) (isLoading s) (showApiWarning s).
Definition set_categories (v : list string) (s : App) : App :=
  mkApp (products s) v (cart s) (currentFilter s) (searchQuery s)
        (featuredProduct s) (isLoading s) (showApiWarning s).
Definition set_cart (v : list CartItem) (s : App) : App :=
  mkApp (products s) (categories s) v (currentFilter s) (searchQuery s)
        (featuredProduct s) (isLoading s) (showApiWarning s).
Definition set_currentFilter (v : string) (s : App) : App :=
  mkApp (products s) (categories s) (cart s) v (searchQuery s)
        (featuredProduct s) (isLoading s) (showApiWarning s).
Definition set_searchQuery (v : string) (s : App) : App :=
  mkApp (products s) (categories s) (cart s) (currentFilter s) v
        (featuredProduct s) (isLoading s) (showApiWarning s).
Definition set_featuredProduct (v : option Product) (s : App) : App :=
  mkApp (products s) (categories s) (cart s) (currentFilter s) (searchQuery s)
        v (isLoading s) (showApiWarning s).
Definition set_isLoading (v : bool) (s : App) : App :=
  mkApp (products s) (categories s) (cart s) (currentFilter s) (searchQuery s)
        (featuredProduct s) v (showApiWarning s).
Definition set_showApiWarning (v : bool) (s : App) : App :=
  mkApp (products s) (categories s) (cart s) (currentFilter s) (searchQuery s)
        (featuredProduct s) (isLoading s) v.

(** ** Effects *)

(** What an HTTP request can fail with before a body is delivered. *)
Inductive HttpFailure : Type :=
| NetworkFailure
| BadStatus (status : Z)
| MalformedPayload.

(** Values that are thrown. *)
Inductive JsError : Type :=
| Error (message : string)
| HttpErrorResponse (failure : HttpFailure).

(** The settlement of [firstValueFrom(http.get<A[]>(url))]: a rejection, or
    the parsed body, which is an array or nothing ([null]). *)
Inductive Response (A : Type) : Type :=
| Rejected (failure : HttpFailure)
| Resolved (body : option (list A)).
Arguments Rejected {A} failure.
Arguments Resolved {A} body.

Inductive Completion (A : Type) : Type :=
| Normal (a : A)
| Thrown (e : JsError).
Arguments Normal {A} a.
Arguments Thrown {A} e.

(** A method body: from the state before, a completion, the state after and
    the messages shown with [alert], in order. Output of [console] is not
    modelled. *)
Definition M (A : Type) : Type := App -> Completion A * App * list string.

Definition ret {A} (a : A) : M A := fun s => (Normal a, s, []).

Definition bind {A B} (m : M A) (k : A -> M B) : M B :=
  fun s =>
    match m s with
    | (Normal a, s1, out1) =>
        let '(r, s2, out2) := k a s1 in (r, s2, (out1 ++ out2)%list)
    | (Thrown e, s1, out1) => (Thrown e, s1, out1)
    end.

Declare Scope js_scope.
Delimit Scope js_scope with js.
Notation "x <- m ;; k" := (bind m (fun x => k))
  (at level 61, m at next level, right associativity) : js_scope.
Notation "m ;; k" := (bind m (fun _ => k))
  (at level 61, right associativity) : js_scope.
Local Open Scope js_scope.

Definition throw {A} (e : JsError) : M A := fun s => (Thrown e, s, []).

Definition try_catch {A} (body : M A) (handler : JsError -> M A) : M A :=
  fun s =>
    match body s with
    | (Normal a, s1, out1) => (Normal a, s1, out1)
    | (Thrown e, s1, out1) =>
        let '(r, s2, out2) := handler e s1 in (r, s2, (out1 ++ out2)%list)
    end.

Definition try_finally {A} (body : M A) (finalizer : M unit) : M A :=
  fun s =>
    let '(r, s1, out1) := body s in
    match finalizer s1 with
    | (Normal _, s2, out2) => (r, s2, (out1 ++ out2)%list)
    | (Thrown e, s2, out2) => (Thrown e, s2, (out1 ++ out2)%list)
    end.

(** Reading a signal, [this.sig()], and writing one, [this.sig.set(v)]. *)
Definition read {A} (sig : App -> A) : M A := fun s => (Normal (sig s), s, []).
Definition write {V} (setter : V -> App -> App) (v : V) : M unit :=
  fun s => (Normal tt, setter v s, []).

Definition alert (message : string) : M unit :=
  fun s => (Normal tt, s, [message]).

(** [await] of a settled request. *)
Definition await {A} (r : Response A) : M (option (list A)) :=
  match r with
  | Rejected failure => throw (HttpErrorResponse failure)
  | Resolved body => ret body
  end.

Definition completion {A} (m : M A) (s : App) : Completion A := fst (fst (m s)).
Definition exec {A} (m : M A) (s : App) : App := snd (fst (m s)).
Definition alerts {A} (m : M A) (s : App) : list string := snd (m s).

(** ** The component *)

Definition nl : string := String (ascii_of_nat 10) "".

(** [arr[i]]: the element at the index that the number [i] is, nothing
    ([undefined]) when [i] is no index of the array. *)
Definition element_at {A} (arr : list A) (i : number) : option A :=
  match integer_value i with
  | Some k => if k <? 0 then None else nth_error arr (Z.to_nat k)
  | None => None
  end.

(** [for (let i = 0; i < n; i++) stars += marker], from [stars]. *)
Definition for_upto (n : Z) (marker : string) (stars : string) : string :=
  Nat.iter (Z.to_nat n) (fun stars => stars ++ marker) stars.

(** [x % 1] on a rational: the remainder has the sign of [x]. *)
Definition Qtrunc (x : Q) : Z := if Qle_bool 0 x then Qfloor x else Qceiling x.
Definition rem1 (x : Q) : Q := x - inject_Z (Qtrunc x).

(** The three markers; [dq] is the double-quote character. *)
Definition dq : string := String (ascii_of_nat 34) EmptyString.
Definition star_full : string :=
  "<i class=" ++ dq ++ "bi bi-star-fill text-warning" ++ dq ++ "></i>".
Definition star_half : string :=
  "<i class=" ++ dq ++ "bi bi-star-half text-warning" ++ dq ++ "></i>".
Definition star_empty : string :=
  "<i class=" ++ dq ++ "bi bi-star text-warning" ++ dq ++ "></i>".

(** Sample data as fallback *)
Definition sampleProducts : list Product :=
  [ mkProduct 1
      "Premium Wireless Headphones"
      (decimal 12999 2)
      "High-quality wireless headphones with noise cancellation and premium sound quality. Perfect for music lovers and professionals."
      "electronics"
      "https://images.unsplash.com/photo-1505740420928-5e560c06d30e?w=300&h=300&fit=crop"
      (mkRating (decimal 45 1) 120) ].

Definition sampleCategories : list string :=
  ["electronics"; "jewelery"; "men's clothing"; "women's clothing"].

Section Component.

(** [String.prototype.toLowerCase], [Number.prototype.toFixed] and the
    conversion of a number to a string in a template literal. *)
Variable toLowerCase : string -> string.
Variable toFixed : number -> nat -> string.
Variable Number_toString : number -> string.

(** *** Computed values *)

Definition filteredProducts (s : App) : list Product :=
  let products := products s in
  let filter := currentFilter s in
  let search := toLowerCase (searchQuery s) in
  List.filter (fun product =>
    let matchesCategory :=
      String.eqb filter "all" || String.eqb (category product) filter in
    let matchesSearch :=
      negb (truthy search) ||
      includes (toLowerCase (title product)) search ||
      includes (toLowerCase (description product)) search ||
      includes (toLowerCase (category product)) search in
    matchesCategory && matchesSearch) products.

Definition cartCount (s : App) : number :=
  fold_left (fun total item => add total (quantity item)) (cart s) (of_Z 0).

Definition cartTotal (s : App) : number :=
  fold_left
    (fun total item => add total (mul (item_price item) (quantity item)))
    (cart s) (of_Z 0).

(** *** API methods *)

Definition loadProducts (fetched : Response Product) : M unit :=
  try_finally
    (try_catch
       (write set_isLoading true ;;
        write set_showApiWarning false ;;
        try_catch
          (response <- await fetched ;;
           match response with
           | Some response =>
               if 0 <? Z.of_nat (List.length response)
               then write set_products response
               else throw (Error "No data received from API")
           | None => throw (Error "No data received from API")
           end)
          (fun apiError =>
             write set_products sampleProducts ;;
             write set_showApiWarning true))
       (fun error =>
          write set_products sampleProducts ;;
          write set_showApiWarning true))
    (write set_isLoading false).

Definition loadCategories (fetched : Response string) : M unit :=
  try_catch
    (try_catch
       (response <- await fetched ;;
        match response with
        | Some response =>
            if 0 <? Z.of_nat (List.length response)
            then write set_categories response
            else throw (Error "No categories received from API")
        | None => throw (Error "No categories received from API")
        end)
       (fun apiError => write set_categories sampleCategories))
    (fun error => write set_categories sampleCategories).

(** [random] is the value returned by [Math.random()]. The length of an
    array is a whole number below 2^32, which [of_Z] represents exactly. *)
Definition loadFeaturedProduct (random : number) : M unit :=
  try_catch
    (products <- read products ;;
     if 0 <? Z.of_nat (List.length products)
     then
       let randomIndex :=
         Math_floor (mul random (of_Z (Z.of_nat (List.length products)))) in
       write set_featuredProduct (element_at products randomIndex)
     else ret tt)
    (fun error => ret tt).

Definition ngOnInit (fetchedProducts : Response Product)
    (fetchedCategories : Response string) (random : number) : M unit :=
  loadProducts fetchedProducts ;;
  loadCategories fetchedCategories ;;
  loadFeaturedProduct random.

(** *** UI methods *)

Definition onSearchChange (query : string) : M unit :=
  write set_searchQuery query.

Definition onCategoryFilter (category : string) : M unit :=
  write set_currentFilter category.

Definition addToCart (productId : Z) : M unit :=
  products <- read products ;;
  match find (fun p => id p =? productId) products with
  | None => ret tt
  | Some product =>
      currentCart <- read cart ;;
      match find (fun item => item_id item =? productId) currentCart with
      | Some existingItem =>
          let updatedCart :=
            map (fun item =>
                   if item_id item =? productId
                   then with_quantity item (add (quantity item) (of_Z 1))
                   else item) currentCart in
          write set_cart updatedCart
      | None =>
          let newItem := mkCartItem product (of_Z 1) in
          write set_cart (currentCart ++ [newItem])%list
      end
  end.

Definition removeFromCart (productId : Z) : M unit :=
  currentCart <- read cart ;;
  let updatedCart :=
    List.filter (fun item => negb (item_id item =? productId)) currentCart in
  write set_cart updatedCart.

Definition updateCartItemQuantity (productId : Z) (quantity : number)
    : M unit :=
  if leb quantity (of_Z 0) then removeFromCart productId
  else
    currentCart <- read cart ;;
    let updatedCart :=
      map (fun item =>
             if item_id item =? productId
             then with_quantity item quantity
             else item) currentCart in
    write set_cart updatedCart.

Definition clearCart : M unit := write set_cart [].

Definition generateStars (rating : Q) : string :=
  let fullStars := Qfloor rating in
  let hasHalfStar := Qle_bool (1 # 2) (rem1 rating) in
  let emptyStars := 5 - fullStars - (if hasHalfStar then 1 else 0) in
  let stars := EmptyString in
  let stars := for_upto fullStars star_full stars in
  let stars := if hasHalfStar then stars ++ star_half else stars in
  let stars := for_upto emptyStars star_empty stars in
  stars.

Definition dismissApiWarning : M unit := write set_showApiWarning false.

Definition checkout : M unit :=
  currentCart <- read cart ;;
  if (List.length currentCart =? 0)%nat then ret tt
  else
    total <- read cartTotal ;;
    itemCount <- read cartCount ;;
    alert ("Checkout successful!" ++ nl ++ "Total: " ++ toFixed total 2 ++ nl
           ++ "Items: " ++ Number_toString itemCount) ;;
    clearCart.

End Component.

(** *** Decoration and template helpers *)

(** The object returned by [getDiscountedPrice]. *)
Record Discount : Type := mkDiscount {
  discountPercent : number;
  originalPrice : number
}.

Section Decoration.

(** [Number.prototype.toFixed] and the conversion [Number(text)]. *)
Variable toFixed : number -> nat -> string.
Variable Number_of_string : string -> number.

(** [random] is the value returned by [Math.random()]. *)
Definition getDiscountedPrice (originalPrice : number) (random : number)
    : Discount :=
  let discountPercent := add (Math_floor (mul random (of_Z 30))) (of_Z 10) in
  let discountedOriginalPrice :=
    Number_of_string
      (toFixed
         (mul originalPrice
            (add (of_Z 1) (div discountPercent (of_Z 100))))
         2) in
  mkDiscount discountPercent discountedOriginalPrice.

End Decoration.

Definition trackByProductId (index : Z) (product : Product) : Z :=
  id product.

Definition trackByCategoryName (index : Z) (category : string) : string :=
  category.

(** * Specification *)

(** ** Strings and lists *)

(** [search] occurs in [s]: some text before it and some text after it make
    up [s]. *)
Definition occurs_in (search s : string) : Prop :=
  exists before after, s = before ++ search ++ after.

(** [sub] is obtained from [l] by leaving elements out. *)
Inductive subsequence {A : Type} : list A -> list A -> Prop :=
| subsequence_nil : subsequence [] []
| subsequence_keep x sub l :
    subsequence sub l -> subsequence (x :: sub) (x :: l)
| subsequence_skip x sub l : subsequence sub l -> subsequence sub (x :: l).

(** [kept] is obtained from [l] by keeping, in order, exactly the elements
    that satisfy [P]. *)
Inductive selection {A : Type} (P : A -> Prop) : list A -> list A -> Prop :=
| selection_nil : selection P [] []
| selection_keep x l kept :
    P x -> selection P l kept -> selection P (x :: l) (x :: kept)
| selection_drop x l kept :
    ~ P x -> selection P l kept -> selection P (x :: l) kept.

(** ** View filter *)

Section InclusionRule.

Variable toLowerCase : string -> string.

(** The query, compared case-insensitively, is a substring of [field]. *)
Definition query_matches (query field : string) : Prop :=
  occurs_in (toLowerCase query) (toLowerCase field).

(** The inclusion rule of the view filter. *)
Definition category_rule (s : App) (product : Product) : Prop :=
  currentFilter s = "all" \/ category product = currentFilter s.

Definition search_rule (s : App) (product : Product) : Prop :=
  searchQuery s = "" \/
  query_matches (searchQuery s) (title product) \/
  query_matches (searchQuery s) (description product) \/
  query_matches (searchQuery s) (category product).

Definition inclusion_rule (s : App) (product : Product) : Prop :=
  category_rule s product /\ search_rule s product.

End InclusionRule.

(** ** Cart store *)

Definition in_catalog (s : App) (productId : Z) : Prop :=
  exists product, In product (products s) /\ id product = productId.

Definition in_cart (s : App) (productId : Z) : Prop :=
  exists item, In item (cart s) /\ item_id item = productId.

(** [after] is [before] with the quantity of the entries for [productId]
    replaced by [f] of it: same entries, same positions, and nothing else
    changed. *)
Definition requantified (productId : Z) (f : number -> number)
    (before after : list CartItem) : Prop :=
  Forall2 (fun old new =>
             product_fields new = product_fields old /\
             (item_id old = productId -> quantity new = f (quantity old)) /\
             (item_id old <> productId -> quantity new = quantity old))
          before after.

(** No two entries have the same id. *)
Definition distinct_ids (c : list CartItem) : Prop := NoDup (map item_id c).

(** Every quantity is at least 1, and no two entries have the same id. *)
Definition cart_invariant (c : list CartItem) : Prop :=
  Forall (fun item => leb (of_Z 1) (quantity item) = true) c /\ distinct_ids c.

(** A quantity that [updateCartItemQuantity] is asked for and that is either
    at most 0 or at least 1. *)
Definition settled_request (requested : number) : Prop :=
  leb requested (of_Z 0) = true \/ leb (of_Z 1) requested = true.

(** The operations of the cart store, to speak of sequences of them. *)
Inductive cart_operation : Type :=
| Add (productId : Z)
| Remove (productId : Z)
| Update (productId : Z) (requested : number)
| Clear.

Definition perform (op : cart_operation) : M unit :=
  match op with
  | Add productId => addToCart productId
  | Remove productId => removeFromCart productId
  | Update productId requested => updateCartItemQuantity productId requested
  | Clear => clearCart
  end.

Definition settled_operation (op : cart_operation) : Prop :=
  match op with
  | Update _ requested => settled_request requested
  | _ => True
  end.

(** ** Cart aggregates *)

(** The quantity of [item] is the whole number [k], which is not negative
    and is below 2^53. *)
Definition whole_quantity (item : CartItem) (k : Z) : Prop :=
  quantity item = of_Z k /\ 0 <= k < 2 ^ 53.

(** The price of [item] is the whole number [p], which is not negative and
    is below 2^53. *)
Definition whole_price (item : CartItem) (p : Z) : Prop :=
  item_price item = of_Z p /\ 0 <= p < 2 ^ 53.

(** The quantities of the entries are whole numbers, and [n] is their sum,
    an integer. *)
Inductive quantities_sum : list CartItem -> Z -> Prop :=
| quantities_sum_nil : quantities_sum [] 0
| quantities_sum_cons item k c n :
    whole_quantity item k -> quantities_sum c n ->
    quantities_sum (item :: c) (k + n).

(** The prices and quantities of the entries are whole numbers, and [n] is
    the sum of price times quantity, an integer. *)
Inductive line_totals_sum : list CartItem -> Z -> Prop :=
| line_totals_sum_nil : line_totals_sum [] 0
| line_totals_sum_cons item p k c n :
    whole_price item p -> whole_quantity item k -> line_totals_sum c n ->
    line_totals_sum (item :: c) (p * k + n).

(** Every quantity is a binary64 value that is at least 1. *)
Definition quantities_at_least_one (c : list CartItem) : Prop :=
  Forall (fun item => valid (quantity item) = true
                      /\ leb (of_Z 1) (quantity item) = true) c.

(** ** Sequences of calls *)

(** The methods that read or write the state of the component, with their
    arguments and the outcomes of their requests and of [Math.random()], to
    speak of sequences of calls. *)
Inductive action : Type :=
| NgOnInit (fetchedProducts : Response Product)
    (fetchedCategories : Response string) (random : number)
| LoadProducts (fetched : Response Product)
| LoadCategories (fetched : Response string)
| LoadFeaturedProduct (random : number)
| SearchChange (query : string)
| CategoryFilter (category : string)
| AddToCart (productId : Z)
| RemoveFromCart (productId : Z)
| UpdateCartItemQuantity (productId : Z) (requested : number)
| ClearCart
| DismissApiWarning
| Checkout.

Section Calls.

Variable toFixed : number -> nat -> string.
Variable Number_toString : number -> string.

Definition call (a : action) : M unit :=
  match a with
  | NgOnInit fetchedProducts fetchedCategories random =>
      ngOnInit fetchedProducts fetchedCategories random
  | LoadProducts fetched => loadProducts fetched
  | LoadCategories fetched => loadCategories fetched
  | LoadFeaturedProduct random => loadFeaturedProduct random
  | SearchChange query => onSearchChange query
  | CategoryFilter category => onCategoryFilter category
  | AddToCart productId => addToCart productId
  | RemoveFromCart productId => removeFromCart productId
  | UpdateCartItemQuantity productId requested =>
      updateCartItemQuantity productId requested
  | ClearCart => clearCart
  | DismissApiWarning => dismissApiWarning
  | Checkout => checkout toFixed Number_toString
  end.

(** The state after a sequence of calls, and the messages shown on the
    way. *)
Fixpoint session (actions : list action) (s : App) : App * list string :=
  match actions with
  | [] => (s, [])
  | a :: rest =>
      let '(s', shown) := session rest (exec (call a) s) in
      (s', (alerts (call a) s ++ shown)%list)
  end.

End Calls.

(** [n] calls of [addToCart(productId)] in a row. *)
Fixpoint addToCart_times (n : nat) (productId : Z) (s : App) : App :=
  match n with
  | O => s
  | S n' => exec (addToCart productId) (addToCart_times n' productId s)
  end.

Definition is_checkout (a : action) : bool :=
  match a with
  | Checkout => true
  | _ => false
  end.

(** A call that asks [updateCartItemQuantity] for a quantity strictly between
    0 and 1, or for NaN, is not settled; every other call is. *)
Definition settled_call (a : action) : Prop :=
  match a with
  | UpdateCartItemQuantity _ requested => settled_request requested
  | _ => True
  end.

(** ** Printing with two fraction digits *)

(** An optional minus sign, at least one digit, a point and two digits. *)
Definition two_decimal_places (text : string) : Prop :=
  exists sign whole d1 d2,
    text = sign ++ whole ++ "." ++ String d1 (String d2 "")
    /\ (sign = "" \/ sign = "-")
    /\ whole <> "" /\ all_digits whole = true
    /\ is_digit d1 = true /\ is_digit d2 = true.

(** ** Data fetcher and star rendering *)

(** The request delivered no data: it was rejected (no connection, a status
    outside 2xx, a body that does not parse), or it delivered no array, or
    an empty one. *)
Definition no_data {A} (fetched : Response A) : Prop :=
  match fetched with
  | Rejected _ => True
  | Resolved None => True
  | Resolved (Some []) => True
  | Resolved (Some (_ :: _)) => False
  end.

(** The list that a request delivers, if it delivers one, has fewer than 2^53
    elements, as every array has. *)
Definition array_sized {A} (fetched : Response A) : Prop :=
  match fetched with
  | Resolved (Some delivered) => Z.of_nat (List.length delivered) < 2 ^ 53
  | _ => True
  end.

(** [full] full markers, then [half] half markers, then [empty] empty ones. *)
Definition markers (full half empty : nat) : string :=
  repeat_string star_full full ++ repeat_string star_half half
  ++ repeat_string star_empty empty.

(** ** Concrete states *)

(** A catalog and filter state for concrete runs. *)
Definition demo_ring : Product :=
  mkProduct 2 "Gold Ring" (decimal 16800 2) "A ring with a WIRELESS tracker"
    "jewelery" "ring.png" (mkRating (decimal 39 1) 70).
Definition demo_cable : Product :=
  mkProduct 3 "USB Cable" (of_Z 10) "One metre" "electronics" "usb.png"
    (mkRating (of_Z 5) 12).
Definition demo_lamp : Product :=
  mkProduct 4 "Desk Lamp" (of_Z 5) "Warm light" "home" "lamp.png"
    (mkRating (decimal 35 1) 8).

Definition demo_catalog : list Product :=
  sampleProducts ++ [demo_ring; demo_cable; demo_lamp].

Definition demo_view : App :=
  set_searchQuery "Wireless" (set_currentFilter "electronics"
    (set_products demo_catalog initial)).

(** A shop with the demo catalog and two entries in the cart. *)
Definition demo_shop : App :=
  set_cart [mkCartItem demo_cable (of_Z 2); mkCartItem demo_lamp (of_Z 1)]
    (set_products demo_catalog initial).

(** A shop whose one cart entry has the quantity 2^53. *)
Definition demo_bulk : App :=
  set_cart [mkCartItem demo_cable (of_Z (2 ^ 53))]
    (set_products demo_catalog initial).

(** A cart with the quantities 2^53 and 1. *)
Definition demo_bulk_pair : App :=
  set_cart [mkCartItem demo_cable (of_Z (2 ^ 53));
            mkCartItem demo_lamp (of_Z 1)]
    (set_products demo_catalog initial).

(** Ten products with the ids 0 to 9. *)
Definition demo_ten : App :=
  set_products
    (map (fun i => mkProduct i "Item" (of_Z 1) "" "misc" "" (mkRating (of_Z 0) 0))
         [0; 1; 2; 3; 4; 5; 6; 7; 8; 9])
    initial.

(** * Properties *)

(** ** Binary64 arithmetic *)

(** *** Shifting *)

Lemma iter_pos_iter {A} (f : A -> A) (p : positive) (x : A) :
  iter_pos f p x = Pos.iter f x p.
Proof.
  revert x. induction p as [p IH | p IH |]; intros x; cbn [iter_pos Pos.iter].
  - now rewrite !IH, <- !Pos.iter_swap.
  - now rewrite !IH.
  - reflexivity.
Qed.

Lemma shift_left_mul (m k : positive) :
  Z.pos (Pos.iter xO m k) = Z.pos m * 2 ^ Z.pos k.
Proof.
  revert m. induction k as [| k IH] using Pos.peano_ind; intros m.
  - cbn [Pos.iter]. lia.
  - rewrite Pos.iter_succ, Pos2Z.inj_succ, Z.pow_succ_r by lia.
    rewrite Pos2Z.inj_xO, IH. lia.
Qed.

Lemma digits_size (m : positive) : digits2_pos m = Pos.size m.
Proof. induction m; simpl; congruence. Qed.

Lemma digits_bounds (m : positive) :
  2 ^ (bit_length m - 1) <= Z.pos m < 2 ^ bit_length m.
Proof.
  unfold bit_length. rewrite digits_size.
  pose proof (Pos.size_gt m) as Hgt. pose proof (Pos.size_le m) as Hle.
  apply Pos2Z.pos_lt_pos in Hgt. apply Pos2Z.pos_le_pos in Hle.
  rewrite Pos2Z.inj_pow in Hgt, Hle. rewrite (Pos2Z.inj_xO m) in Hle.
  assert (2 ^ Z.pos (Pos.size m) = 2 * 2 ^ (Z.pos (Pos.size m) - 1)) as E.
  { rewrite <- Z.pow_succ_r by lia. f_equal. lia. }
  lia.
Qed.

Lemma digits_pos (m : positive) : 1 <= bit_length m.
Proof. unfold bit_length. lia. Qed.

Lemma digits_unique (m : positive) (d : Z) :
  2 ^ (d - 1) <= Z.pos m < 2 ^ d -> bit_length m = d.
Proof.
  intros [Hlo Hhi]. pose proof (digits_bounds m) as [Hlo' Hhi'].
  pose proof (digits_pos m) as Hd.
  assert (0 < d) as Hdpos.
  { destruct (Z.le_gt_cases d 0) as [Hneg | Hok]; [| exact Hok].
    assert (2 ^ d <= 1); [| lia].
    destruct (Z.eq_dec d 0) as [-> | Hne]; [cbn; lia |].
    rewrite Z.pow_neg_r by lia. lia. }
  destruct (Z.lt_trichotomy (bit_length m) d) as [Hlt | [Heq | Hgt]];
    [| exact Heq |].
  - assert (2 ^ bit_length m <= 2 ^ (d - 1))
      by (apply Z.pow_le_mono_r; lia). lia.
  - assert (2 ^ d <= 2 ^ (bit_length m - 1))
      by (apply Z.pow_le_mono_r; lia). lia.
Qed.

Lemma digits_shift (m k : positive) :
  bit_length (Pos.iter xO m k) = bit_length m + Z.pos k.
Proof.
  apply digits_unique. rewrite shift_left_mul.
  pose proof (digits_bounds m) as [Hlo Hhi]. pose proof (digits_pos m).
  replace (bit_length m + Z.pos k - 1) with (bit_length m - 1 + Z.pos k) by lia.
  rewrite !Z.pow_add_r by lia.
  assert (0 < 2 ^ Z.pos k) by (apply Z.pow_pos_nonneg; lia).
  nia.
Qed.

(** *** One shift to the right *)

Lemma shr_1_spec (m : Z) (r s : bool) :
  0 <= m ->
  shr_m (shr_1 (Build_shr_record m r s)) = m / 2
  /\ shr_r (shr_1 (Build_shr_record m r s)) = Z.odd m
  /\ shr_s (shr_1 (Build_shr_record m r s)) = r || s.
Proof.
  intros Hm. rewrite <- Z.div2_div.
  destruct m as [| [p | p |] | p]; try lia; cbn; auto.
Qed.

(** Shifting an exact record [k >= 1] times. *)
Lemma shr_iter_spec (k : positive) (m : Z) :
  0 <= m ->
  let mrs := Pos.iter shr_1 (exact_record m) k in
  shr_m mrs = m / 2 ^ Z.pos k
  /\ shr_r mrs = Z.odd (m / 2 ^ (Z.pos k - 1))
  /\ 0 <= shr_m mrs.
Proof.
  intros Hm. cbv zeta.
  induction k as [| k IH] using Pos.peano_ind.
  - cbn [Pos.iter]. unfold exact_record.
    destruct (shr_1_spec m false false Hm) as (H1 & H2 & _).
    rewrite H1, H2. change (Z.pos 1 - 1) with 0. rewrite Z.pow_0_r, Z.div_1_r.
    change (2 ^ Z.pos 1) with 2. split; [reflexivity | split; [reflexivity |]].
    apply Z.div_pos; lia.
  - rewrite Pos.iter_succ. destruct IH as (IHm & IHr & IHpos).
    destruct (Pos.iter shr_1 (exact_record m) k) as [mk rk sk].
    cbn [shr_m shr_r] in IHm, IHr, IHpos.
    destruct (shr_1_spec mk rk sk IHpos) as (H1 & H2 & _).
    rewrite H1, H2, IHm, Pos2Z.inj_succ.
    replace (Z.succ (Z.pos k) - 1) with (Z.pos k) by lia.
    rewrite Z.pow_succ_r by lia.
    assert (0 < 2 ^ Z.pos k) by (apply Z.pow_pos_nonneg; lia).
    split; [| split; [reflexivity |]].
    + rewrite Z.div_div by lia. f_equal. lia.
    + apply Z.div_pos; [apply Z.div_pos; lia | lia].
Qed.

Lemma shr_iter_exact (k : positive) (q : Z) :
  0 <= q ->
  Pos.iter shr_1 (exact_record (q * 2 ^ Z.pos k)) k = exact_record q.
Proof.
  intros Hq. revert q Hq. induction k as [| k IH] using Pos.peano_ind;
    intros q Hq.
  - cbn [Pos.iter]. change (2 ^ Z.pos 1) with 2. unfold exact_record.
    destruct q as [| p | p]; [reflexivity | | lia].
    replace (Z.pos p * 2) with (Z.pos p~0) by lia. reflexivity.
  - rewrite Pos.iter_succ_r, Pos2Z.inj_succ, Z.pow_succ_r by lia.
    replace (q * (2 * 2 ^ Z.pos k)) with (q * 2 ^ Z.pos k * 2) by lia.
    assert (0 < 2 ^ Z.pos k) by (apply Z.pow_pos_nonneg; lia).
    assert (shr_1 (exact_record (q * 2 ^ Z.pos k * 2))
            = exact_record (q * 2 ^ Z.pos k)) as ->.
    { unfold exact_record. destruct (q * 2 ^ Z.pos k) as [| p | p] eqn:E;
        [reflexivity | | nia].
      replace (Z.pos p * 2) with (Z.pos p~0) by lia. reflexivity. }
    now apply IH.
Qed.

(** *** Rounding a mantissa whose low bits are zero *)

Lemma fexp_eq (e : Z) : fexp e = Z.max (e - 53) (-1074).
Proof. reflexivity. Qed.

Lemma shr_fexp_exact (q : positive) (e : Z) (j : Z) :
  canonical q (e + j) -> 0 <= j ->
  shr_fexp prec emax (Z.pos q * 2 ^ j) e loc_Exact
  = (exact_record (Z.pos q), e + j).
Proof.
  intros [Hcanon _] Hj. unfold shr_fexp.
  change (shr_record_of_loc (Z.pos q * 2 ^ j) loc_Exact)
    with (exact_record (Z.pos q * 2 ^ j)).
  destruct j as [| k | k]; [| | lia].
  - rewrite Z.pow_0_r, Z.mul_1_r, Z.add_0_r in *. cbn [Zdigits2].
    fold (bit_length q). fold fexp. rewrite Hcanon, Z.sub_diag. reflexivity.
  - rewrite <- shift_left_mul. cbn [Zdigits2].
    fold (bit_length (Pos.iter xO q k)). rewrite digits_shift. fold fexp.
    replace (bit_length q + Z.pos k + e) with (bit_length q + (e + Z.pos k)) by lia.
    rewrite Hcanon. replace (e + Z.pos k - e) with (Z.pos k) by lia.
    cbn [shr]. rewrite iter_pos_iter, shift_left_mul, shr_iter_exact by lia.
    reflexivity.
Qed.

Lemma binary_round_aux_exact (s : bool) (q : positive) (e j : Z) :
  canonical q (e + j) -> 0 <= j ->
  binary_round_aux prec emax s (Z.pos q * 2 ^ j) e loc_Exact
  = S754_finite s q (e + j).
Proof.
  intros Hcanon Hj. unfold binary_round_aux.
  rewrite (shr_fexp_exact q e j Hcanon Hj).
  cbn [exact_record shr_m loc_of_shr_record round_nearest_even].
  pose proof (shr_fexp_exact q (e + j) 0) as H0.
  rewrite Z.pow_0_r, Z.mul_1_r, Z.add_0_r in H0.
  rewrite (H0 Hcanon (Z.le_refl 0)). cbn [exact_record shr_m].
  destruct Hcanon as [_ Hmax].
  change (emax - prec) with 971.
  now destruct (Z.leb_spec (e + j) 971); [| lia].
Qed.

Lemma pow2_pos (k : Z) : 0 <= k -> 0 < 2 ^ k.
Proof. intros. apply Z.pow_pos_nonneg; lia. Qed.

Lemma digits_mul_pow (m : positive) (k : Z) (p : positive) :
  0 <= k -> Z.pos p = Z.pos m * 2 ^ k -> bit_length p = bit_length m + k.
Proof.
  intros Hk Hp. destruct k as [| k | k]; [| | lia].
  - rewrite Z.pow_0_r, Z.mul_1_r in Hp. injection Hp as ->. lia.
  - rewrite <- shift_left_mul in Hp. injection Hp as ->. apply digits_shift.
Qed.

Lemma shl_align_spec (p : positive) (e e' : Z) :
  let '(mz, ez) := shl_align p e e' in
  if e' <? e then Z.pos mz = Z.pos p * 2 ^ (e - e') /\ ez = e'
  else mz = p /\ ez = e.
Proof.
  unfold shl_align. destruct (Z.ltb_spec e' e) as [Hlt | Hge].
  - destruct (e' - e) as [| d | d] eqn:E; try lia.
    rewrite shift_left_mul. split; [| reflexivity]. f_equal. f_equal. lia.
  - destruct (e' - e) as [| d | d] eqn:E; try lia; now split.
Qed.

(** A mantissa and exponent are rounded to the canonical pair of the same
    value, when there is one. *)
Lemma binary_round_exact (s : bool) (p : positive) (e : Z) (q : positive)
    (e' : Z) :
  canonical q e' ->
  (if e' <? e then Z.pos q = Z.pos p * 2 ^ (e - e')
   else Z.pos p = Z.pos q * 2 ^ (e' - e)) ->
  binary_round prec emax s p e = S754_finite s q e'.
Proof.
  intros Hcanon Hvalue. unfold binary_round.
  assert (bit_length p + e = bit_length q + e') as Hmag.
  { destruct (Z.ltb_spec e' e).
    - rewrite (digits_mul_pow p (e - e') q) by (lia || exact Hvalue). lia.
    - rewrite (digits_mul_pow q (e' - e) p) by (lia || exact Hvalue). lia. }
  fold (bit_length p). fold fexp. rewrite Hmag, (proj1 Hcanon).
  pose proof (shl_align_spec p e e') as Hshl.
  destruct (shl_align p e e') as [mz ez].
  destruct (Z.ltb_spec e' e) as [Hlt | Hge].
  - destruct Hshl as [Hmz ->].
    assert (mz = q) as -> by (apply Pos2Z.inj; congruence).
    pose proof (binary_round_aux_exact s q e' 0) as H0.
    rewrite Z.pow_0_r, Z.mul_1_r, Z.add_0_r in H0. apply H0; [exact Hcanon | lia].
  - destruct Hshl as [-> ->]. rewrite Hvalue.
    replace e' with (e + (e' - e)) at 2 by lia.
    apply binary_round_aux_exact; [| lia].
    now replace (e + (e' - e)) with e' by lia.
Qed.

(** *** Whole numbers *)

Lemma whole_mantissa_value (n : positive) :
  bit_length n <= 53 -> Z.pos (whole_mantissa n) = Z.pos n * 2 ^ (53 - bit_length n).
Proof.
  intros Hd. unfold whole_mantissa. rewrite Z2Pos.id; [reflexivity |].
  pose proof (pow2_pos (53 - bit_length n)). nia.
Qed.

Lemma whole_canonical (n : positive) :
  bit_length n <= 53 -> canonical (whole_mantissa n) (whole_exponent n).
Proof.
  intros Hd. unfold canonical, whole_exponent.
  rewrite (digits_mul_pow n (53 - bit_length n) (whole_mantissa n))
    by (lia || now apply whole_mantissa_value).
  pose proof (digits_pos n). rewrite fexp_eq. lia.
Qed.

Lemma digits_le_53 (n : positive) : Z.pos n < 2 ^ 53 <-> bit_length n <= 53.
Proof.
  pose proof (digits_bounds n) as [Hlo Hhi]. pose proof (digits_pos n) as Hd.
  split; intros H.
  - destruct (Z.le_gt_cases (bit_length n) 53) as [Hle | Hgt]; [exact Hle |].
    assert (2 ^ 53 <= 2 ^ (bit_length n - 1)) by (apply Z.pow_le_mono_r; lia).
    lia.
  - assert (2 ^ bit_length n <= 2 ^ 53) by (apply Z.pow_le_mono_r; lia). lia.
Qed.

(** [c * 2^k] at exponent [-k] is rounded to the whole number [c]. *)
Lemma binary_round_whole (s : bool) (c : positive) (k : Z) (m : positive) :
  Z.pos c < 2 ^ 53 -> 0 <= k -> Z.pos m = Z.pos c * 2 ^ k ->
  binary_round prec emax s m (- k)
  = S754_finite s (whole_mantissa c) (whole_exponent c).
Proof.
  intros Hc Hk Hm. apply digits_le_53 in Hc.
  apply binary_round_exact; [now apply whole_canonical |].
  rewrite (whole_mantissa_value c Hc). unfold whole_exponent.
  pose proof (digits_pos c).
  destruct (Z.ltb_spec (bit_length c - 53) (- k)).
  - rewrite Hm, <- Z.mul_assoc, <- Z.pow_add_r by lia. do 2 f_equal. lia.
  - rewrite Hm, <- Z.mul_assoc, <- Z.pow_add_r by lia. do 2 f_equal. lia.
Qed.

Lemma of_Z_pos (n : positive) :
  Z.pos n < 2 ^ 53 ->
  of_Z (Z.pos n) = S754_finite false (whole_mantissa n) (whole_exponent n).
Proof.
  intros Hn. unfold of_Z. cbn [binary_normalize].
  apply (binary_round_whole false n 0 n Hn); [lia |].
  now rewrite Z.pow_0_r, Z.mul_1_r.
Qed.

Lemma of_Z_neg (n : positive) :
  Z.pos n < 2 ^ 53 ->
  of_Z (Z.neg n) = S754_finite true (whole_mantissa n) (whole_exponent n).
Proof.
  intros Hn. unfold of_Z. cbn [binary_normalize].
  apply (binary_round_whole true n 0 n Hn); [lia |].
  now rewrite Z.pow_0_r, Z.mul_1_r.
Qed.

Lemma binary_normalize_whole (c k : Z) :
  Z.abs c < 2 ^ 53 -> 0 <= k ->
  binary_normalize prec emax (c * 2 ^ k) (- k) false = of_Z c.
Proof.
  intros Hc Hk. pose proof (pow2_pos k Hk) as Hpow.
  destruct c as [| c | c].
  - reflexivity.
  - rewrite of_Z_pos by lia.
    destruct (Z.pos c * 2 ^ k) as [| m | m] eqn:E; try nia.
    cbn [binary_normalize]. apply (binary_round_whole false c k m); lia.
  - rewrite of_Z_neg by lia.
    destruct (Z.neg c * 2 ^ k) as [| m | m] eqn:E; try nia.
    cbn [binary_normalize]. apply (binary_round_whole true c k m); lia.
Qed.

Lemma whole_aligned (n : positive) (ez : Z) :
  bit_length n <= 53 -> ez <= whole_exponent n ->
  Z.pos (fst (shl_align (whole_mantissa n) (whole_exponent n) ez))
  = Z.pos n * 2 ^ (- ez).
Proof.
  intros Hd Hez.
  pose proof (shl_align_spec (whole_mantissa n) (whole_exponent n) ez) as H.
  destruct (shl_align (whole_mantissa n) (whole_exponent n) ez) as [mz e0].
  cbn [fst]. unfold whole_exponent in *. pose proof (digits_pos n).
  destruct (Z.ltb_spec ez (bit_length n - 53)).
  - destruct H as [-> _]. rewrite (whole_mantissa_value n Hd).
    rewrite <- Z.mul_assoc, <- Z.pow_add_r by lia. do 2 f_equal. lia.
  - destruct H as [-> _]. rewrite (whole_mantissa_value n Hd).
    do 2 f_equal. lia.
Qed.

Lemma of_Z_signed (s : bool) (n : positive) :
  Z.pos n < 2 ^ 53 ->
  of_Z (signed s n) = S754_finite s (whole_mantissa n) (whole_exponent n).
Proof. destruct s; [apply of_Z_neg | apply of_Z_pos]. Qed.

Lemma add_whole_finite (sa sb : bool) (a b : positive) :
  Z.pos a < 2 ^ 53 -> Z.pos b < 2 ^ 53 ->
  Z.abs (signed sa a + signed sb b) < 2 ^ 53 ->
  add (of_Z (signed sa a)) (of_Z (signed sb b))
  = of_Z (signed sa a + signed sb b).
Proof.
  intros Ha Hb Hsum. rewrite !of_Z_signed by assumption.
  unfold add. cbn [SFadd].
  apply digits_le_53 in Ha, Hb.
  set (ez := Z.min (whole_exponent a) (whole_exponent b)).
  assert (ez <= whole_exponent a) as Hea by (unfold ez; lia).
  assert (ez <= whole_exponent b) as Heb by (unfold ez; lia).
  rewrite (whole_aligned a ez Ha Hea), (whole_aligned b ez Hb Heb).
  assert (0 <= - ez) as Hk.
  { unfold ez, whole_exponent. lia. }
  replace (cond_Zopp sa (Z.pos a * 2 ^ (- ez))
           + cond_Zopp sb (Z.pos b * 2 ^ (- ez)))
    with ((signed sa a + signed sb b) * 2 ^ (- ez)).
  - replace ez with (- - ez) at 2 by lia.
    now apply binary_normalize_whole.
  - unfold cond_Zopp, signed. destruct sa, sb; lia.
Qed.

(** Addition of whole numbers is exact while the operands and the sum stay
    below 2^53 in magnitude. *)
Lemma add_whole (a b : Z) :
  Z.abs a < 2 ^ 53 -> Z.abs b < 2 ^ 53 -> Z.abs (a + b) < 2 ^ 53 ->
  add (of_Z a) (of_Z b) = of_Z (a + b).
Proof.
  intros Ha Hb Hsum.
  destruct a as [| a | a]; destruct b as [| b | b];
    try (apply (add_whole_finite false false a b); cbn [signed]; lia);
    try (apply (add_whole_finite false true a b); cbn [signed]; lia);
    try (apply (add_whole_finite true false a b); cbn [signed]; lia);
    try (apply (add_whole_finite true true a b); cbn [signed]; lia);
    cbn [Z.add];
    repeat (rewrite of_Z_pos by lia); repeat (rewrite of_Z_neg by lia);
    reflexivity.
Qed.

Example add_whole_limit :
  add (of_Z (2 ^ 53)) (of_Z 1) = of_Z (2 ^ 53)
  /\ add (of_Z (2 ^ 53 - 1)) (of_Z 1) = of_Z (2 ^ 53).
Proof. vm_compute. auto. Qed.

Lemma digits_mul_lower (a b c : positive) :
  Z.pos c = Z.pos a * Z.pos b -> bit_length a + bit_length b - 1 <= bit_length c.
Proof.
  intros Hc.
  pose proof (digits_bounds a) as [Ha _]. pose proof (digits_bounds b) as [Hb _].
  pose proof (digits_bounds c) as [_ Hc']. pose proof (digits_pos a).
  pose proof (digits_pos b). pose proof (digits_pos c).
  destruct (Z.le_gt_cases (bit_length a + bit_length b - 1) (bit_length c)) as [H' | H'];
    [exact H' |].
  assert (2 ^ bit_length c <= 2 ^ (bit_length a - 1 + (bit_length b - 1)))
    by (apply Z.pow_le_mono_r; lia).
  rewrite Z.pow_add_r in * by lia.
  assert (0 < 2 ^ (bit_length a - 1)) by (apply pow2_pos; lia).
  assert (0 < 2 ^ (bit_length b - 1)) by (apply pow2_pos; lia).
  nia.
Qed.

Lemma mul_whole_finite (sa sb : bool) (a b c : positive) :
  Z.pos a < 2 ^ 53 -> Z.pos b < 2 ^ 53 ->
  Z.pos c = Z.pos a * Z.pos b -> Z.pos c < 2 ^ 53 ->
  mul (of_Z (signed sa a)) (of_Z (signed sb b))
  = of_Z (signed (xorb sa sb) c).
Proof.
  intros Ha Hb Hc Hbound. rewrite !of_Z_signed by assumption.
  unfold mul. cbn [SFmul].
  apply digits_le_53 in Ha, Hb. apply digits_le_53 in Hbound as Hdc.
  pose proof (digits_mul_lower a b c Hc) as Hlow.
  pose proof (digits_pos a). pose proof (digits_pos b).
  replace (Z.pos (whole_mantissa a * whole_mantissa b))
    with (Z.pos (whole_mantissa c)
          * 2 ^ (whole_exponent c - (whole_exponent a + whole_exponent b))).
  - replace (whole_exponent c) with
      (whole_exponent a + whole_exponent b
       + (whole_exponent c - (whole_exponent a + whole_exponent b)))
      at 2 by lia.
    apply binary_round_aux_exact.
    + replace (whole_exponent a + whole_exponent b
               + (whole_exponent c - (whole_exponent a + whole_exponent b)))
        with (whole_exponent c) by lia.
      now apply whole_canonical.
    + unfold whole_exponent. lia.
  - rewrite Pos2Z.inj_mul, !whole_mantissa_value by assumption.
    unfold whole_exponent. rewrite Hc.
    replace (Z.pos a * 2 ^ (53 - bit_length a) * (Z.pos b * 2 ^ (53 - bit_length b)))
      with (Z.pos a * Z.pos b
            * (2 ^ (53 - bit_length a) * 2 ^ (53 - bit_length b))) by lia.
    rewrite <- Z.mul_assoc, <- !Z.pow_add_r by lia. do 2 f_equal. lia.
Qed.

(** Multiplication of whole numbers that are not negative is exact while the
    operands and the product stay below 2^53. *)
Lemma mul_whole (a b : Z) :
  0 <= a < 2 ^ 53 -> 0 <= b < 2 ^ 53 -> a * b < 2 ^ 53 ->
  mul (of_Z a) (of_Z b) = of_Z (a * b).
Proof.
  intros Ha Hb Hprod.
  destruct a as [| a | a]; destruct b as [| b | b]; try lia;
    cbn [Z.mul];
    try (apply (mul_whole_finite false false a b (a * b)); lia);
    repeat (rewrite of_Z_pos by lia); reflexivity.
Qed.

(** *** Comparison of whole numbers *)

Lemma compare_whole_pos (a b : positive) :
  Z.pos a < 2 ^ 53 -> Z.pos b < 2 ^ 53 ->
  match whole_exponent a ?= whole_exponent b with
  | Lt => Lt
  | Gt => Gt
  | Eq => Pos.compare_cont Eq (whole_mantissa a) (whole_mantissa b)
  end = (a ?= b)%positive.
Proof.
  intros Ha Hb. apply digits_le_53 in Ha, Hb.
  pose proof (digits_bounds a) as [Ha1 Ha2].
  pose proof (digits_bounds b) as [Hb1 Hb2].
  pose proof (digits_pos a). pose proof (digits_pos b).
  unfold whole_exponent.
  destruct (Z.compare_spec (bit_length a - 53) (bit_length b - 53)) as [E | E | E].
  - change (Pos.compare_cont Eq (whole_mantissa a) (whole_mantissa b))
      with (whole_mantissa a ?= whole_mantissa b)%positive.
    rewrite !Pos2Z.inj_compare, !whole_mantissa_value by assumption.
    replace (bit_length b) with (bit_length a) by lia.
    pose proof (pow2_pos (53 - bit_length a)).
    destruct (Z.compare_spec (Z.pos a) (Z.pos b));
      [apply Z.compare_eq_iff | apply Z.compare_lt_iff
       | apply Z.compare_gt_iff]; nia.
  - symmetry. apply Pos.compare_lt_iff, Pos2Z.pos_lt_pos.
    assert (2 ^ bit_length a <= 2 ^ (bit_length b - 1))
      by (apply Z.pow_le_mono_r; lia). lia.
  - symmetry. apply Pos.compare_gt_iff, Pos2Z.pos_lt_pos.
    assert (2 ^ bit_length b <= 2 ^ (bit_length a - 1))
      by (apply Z.pow_le_mono_r; lia). lia.
Qed.

Lemma compare_whole (a b : Z) :
  Z.abs a < 2 ^ 53 -> Z.abs b < 2 ^ 53 ->
  SFcompare (of_Z a) (of_Z b) = Some (a ?= b).
Proof.
  intros Ha Hb.
  destruct a as [| a | a]; destruct b as [| b | b];
    repeat (rewrite of_Z_pos by lia); repeat (rewrite of_Z_neg by lia);
    try reflexivity; cbn [SFcompare].
  - rewrite compare_whole_pos by lia. reflexivity.
  - cbn [Z.compare]. rewrite <- (compare_whole_pos a b) by lia.
    now destruct (whole_exponent a ?= whole_exponent b).
Qed.

Lemma leb_whole (a b : Z) :
  Z.abs a < 2 ^ 53 -> Z.abs b < 2 ^ 53 -> leb (of_Z a) (of_Z b) = (a <=? b).
Proof.
  intros Ha Hb. unfold leb, SFleb. rewrite compare_whole by assumption.
  unfold Z.leb. now destruct (a ?= b).
Qed.

Lemma ltb_whole (a b : Z) :
  Z.abs a < 2 ^ 53 -> Z.abs b < 2 ^ 53 -> ltb (of_Z a) (of_Z b) = (a <? b).
Proof.
  intros Ha Hb. unfold ltb, SFltb. rewrite compare_whole by assumption.
  unfold Z.ltb. now destruct (a ?= b).
Qed.

(** *** Rounding in general *)

Lemma odd_half (m k : Z) :
  0 <= m -> 1 <= k -> Z.odd (m / 2 ^ (k - 1)) = true ->
  m / 2 ^ k * 2 ^ k + 2 ^ (k - 1) <= m.
Proof.
  intros Hm Hk Hodd.
  assert (0 < 2 ^ (k - 1)) as Hpos by (apply pow2_pos; lia).
  assert (2 ^ k = 2 ^ (k - 1) * 2) as Hk2.
  { replace k with (Z.succ (k - 1)) at 1 by lia.
    rewrite Z.pow_succ_r by lia. lia. }
  rewrite Hk2, <- Z.div_div by lia.
  pose proof (Z.div_mod (m / 2 ^ (k - 1)) 2 ltac:(lia)) as Hdm.
  rewrite Zmod_odd, Hodd in Hdm.
  pose proof (Z.mul_div_le m (2 ^ (k - 1)) Hpos). nia.
Qed.

Lemma shr_fexp_still (m e : Z) (l : location) :
  fexp (Zdigits2 m + e) - e <= 0 ->
  shr_fexp prec emax m e l = (shr_record_of_loc m l, e).
Proof.
  intros Hle. unfold shr_fexp, shr. fold fexp.
  destruct (fexp (Zdigits2 m + e) - e); [reflexivity | lia | reflexivity].
Qed.

Lemma first_shift (P : positive) (E : Z) :
  0 <= shift_of P E ->
  exists mrs,
    shr_fexp prec emax (Z.pos P) E loc_Exact = (mrs, E + shift_of P E)
    /\ shr_m mrs = Z.pos P / 2 ^ shift_of P E
    /\ (shr_r mrs = true ->
        1 <= shift_of P E
        /\ Z.pos P / 2 ^ shift_of P E * 2 ^ shift_of P E
           + 2 ^ (shift_of P E - 1) <= Z.pos P).
Proof.
  intros Hn. unfold shr_fexp. cbn [Zdigits2]. fold (bit_length P). fold fexp.
  fold (shift_of P E).
  change (shr_record_of_loc (Z.pos P) loc_Exact) with (exact_record (Z.pos P)).
  destruct (shift_of P E) as [| k | k] eqn:Hs; [| | lia].
  - exists (exact_record (Z.pos P)). cbn [shr exact_record shr_m shr_r].
    rewrite Z.add_0_r, Z.pow_0_r, Z.div_1_r.
    split; [reflexivity | split; [reflexivity | discriminate]].
  - exists (Pos.iter shr_1 (exact_record (Z.pos P)) k).
    cbn [shr]. rewrite iter_pos_iter.
    destruct (shr_iter_spec k (Z.pos P) ltac:(lia)) as (Hm & Hr & _).
    split; [reflexivity | split; [exact Hm |]].
    intros Hround. rewrite Hr in Hround. split; [lia |].
    apply odd_half; [lia | lia | exact Hround].
Qed.

Lemma first_shift_size (P : positive) (E : Z) :
  0 <= shift_of P E ->
  -1074 <= E + shift_of P E
  /\ 0 <= Z.pos P / 2 ^ shift_of P E < 2 ^ 53
  /\ (-1074 < E + shift_of P E -> 2 ^ 52 <= Z.pos P / 2 ^ shift_of P E).
Proof.
  intros Hn. pose proof (digits_bounds P) as [Hlow Hhigh].
  pose proof (digits_pos P) as Hd.
  assert (0 < 2 ^ shift_of P E) as Hpos by (now apply pow2_pos).
  unfold shift_of in *. rewrite fexp_eq in *.
  split; [lia | split; [split |]].
  - apply Z.div_pos; lia.
  - apply Z.div_lt_upper_bound; [exact Hpos |].
    rewrite <- Z.pow_add_r by lia.
    assert (2 ^ bit_length P
            <= 2 ^ (Z.max (bit_length P + E - 53) (-1074) - E + 53))
      by (apply Z.pow_le_mono_r; lia).
    lia.
  - intros Hnormal. apply Z.div_le_lower_bound; [exact Hpos |].
    rewrite <- Z.pow_add_r by lia.
    replace (Z.max (bit_length P + E - 53) (-1074) - E + 52)
      with (bit_length P - 1) by lia.
    exact Hlow.
Qed.

Lemma round_choice (mrs : shr_record) :
  round_nearest_even (shr_m mrs) (loc_of_shr_record mrs) = shr_m mrs
  \/ (round_nearest_even (shr_m mrs) (loc_of_shr_record mrs) = shr_m mrs + 1
      /\ shr_r mrs = true).
Proof.
  destruct mrs as [m [|] [|]]; cbn [shr_m shr_r loc_of_shr_record
                                    round_nearest_even]; auto.
  destruct (Z.even m); auto.
Qed.

Lemma digits_le (m : positive) (d : Z) : Z.pos m < 2 ^ d -> bit_length m <= d.
Proof.
  intros Hm. pose proof (digits_bounds m) as [Hlow _].
  pose proof (digits_pos m).
  destruct (Z.le_gt_cases (bit_length m) d) as [H' | H']; [exact H' |].
  destruct (Z.le_gt_cases 0 d) as [Hd | Hd].
  - assert (2 ^ d <= 2 ^ (bit_length m - 1)) by (apply Z.pow_le_mono_r; lia). lia.
  - rewrite Z.pow_neg_r in Hm by lia. lia.
Qed.

Lemma digits_ge (m : positive) (d : Z) : 2 ^ (d - 1) <= Z.pos m -> d <= bit_length m.
Proof.
  intros Hm. pose proof (digits_bounds m) as [_ Hhigh].
  pose proof (digits_pos m).
  destruct (Z.le_gt_cases d (bit_length m)) as [H' | H']; [exact H' |].
  assert (2 ^ bit_length m <= 2 ^ (d - 1)) by (apply Z.pow_le_mono_r; lia). lia.
Qed.

Lemma second_shift (s : bool) (m e : Z) :
  -1074 <= e -> 0 <= m <= 2 ^ 53 -> (-1074 < e -> 2 ^ 52 <= m) ->
  (let '(mrs, e') := shr_fexp prec emax m e loc_Exact in
   finish s (shr_m mrs) e') = pack s m e.
Proof.
  intros He Hm Hnormal. unfold pack.
  destruct (Z.eqb_spec m (2 ^ 53)) as [-> | Hne].
  - unfold shr_fexp. change (Zdigits2 (2 ^ 53)) with 54. fold fexp.
    rewrite fexp_eq. replace (Z.max (54 + e - 53) (-1074) - e) with 1 by lia.
    reflexivity.
  - rewrite shr_fexp_still.
    + now destruct m.
    + rewrite fexp_eq. destruct m as [| p | p]; cbn [Zdigits2]; [lia | | lia].
      fold (bit_length p). pose proof (digits_le p 53 ltac:(lia)). lia.
Qed.

(** The rounding of a positive mantissa [P] at exponent [E]: the low bits are
    dropped, the mantissa goes up by at most one, and only when the dropped
    bits are at least half a unit. *)
Lemma round_spec (s : bool) (P : positive) (E : Z) :
  0 <= shift_of P E ->
  exists m2,
    (m2 = Z.pos P / 2 ^ shift_of P E
     \/ (m2 = Z.pos P / 2 ^ shift_of P E + 1
         /\ 1 <= shift_of P E
         /\ Z.pos P / 2 ^ shift_of P E * 2 ^ shift_of P E
            + 2 ^ (shift_of P E - 1) <= Z.pos P))
    /\ binary_round_aux prec emax s (Z.pos P) E loc_Exact
       = pack s m2 (E + shift_of P E).
Proof.
  intros Hn.
  destruct (first_shift P E Hn) as (mrs & Hfirst & Hm & Hr).
  destruct (first_shift_size P E Hn) as (He & Hsize & Hnormal).
  exists (round_nearest_even (shr_m mrs) (loc_of_shr_record mrs)).
  split.
  - destruct (round_choice mrs) as [-> | [-> Hround]]; rewrite Hm; auto.
  - unfold binary_round_aux. rewrite Hfirst.
    apply (second_shift s); [exact He | |].
    + destruct (round_choice mrs) as [-> | [-> _]]; rewrite Hm; lia.
    + intros Hnorm. specialize (Hnormal Hnorm).
      destruct (round_choice mrs) as [-> | [-> _]]; rewrite Hm; lia.
Qed.

(** *** Adding one to a number that is at least one *)

Lemma of_Z_0 : of_Z 0 = S754_zero false.
Proof. reflexivity. Qed.

Lemma of_Z_1 : of_Z 1 = S754_finite false 4503599627370496 (-52).
Proof. vm_compute. reflexivity. Qed.

Lemma leb_one_finish (m e : Z) :
  2 ^ 52 <= m -> -52 <= e -> leb (of_Z 1) (finish false m e) = true.
Proof.
  intros Hm He. rewrite of_Z_1. destruct m as [| p | p]; try lia.
  unfold finish. destruct (e <=? emax - prec); [| reflexivity].
  unfold leb, SFleb. cbn [SFcompare].
  destruct (Z.compare_spec (-52) e) as [<- | Hlt | Hgt];
    [| reflexivity | lia].
  change (Pos.compare_cont Eq 4503599627370496 p) with (2 ^ 52 ?= Z.pos p).
  destruct (Z.compare_spec (2 ^ 52) (Z.pos p)) as [E | E | E];
    [reflexivity | reflexivity | lia].
Qed.

Lemma leb_one_pack (m e : Z) :
  2 ^ 52 <= m -> -52 <= e -> leb (of_Z 1) (pack false m e) = true.
Proof.
  intros Hm He. unfold pack.
  destruct (m =? 2 ^ 53); apply leb_one_finish; lia.
Qed.

Lemma leb_one_inv (q : number) :
  leb (of_Z 1) q = true ->
  q = S754_infinity false
  \/ exists m e, q = S754_finite false m e
                 /\ (-52 < e \/ (e = -52 /\ 2 ^ 52 <= Z.pos m)).
Proof.
  rewrite of_Z_1. unfold leb, SFleb.
  destruct q as [s | s | | s m e]; cbn [SFcompare]; try discriminate.
  - destruct s; [discriminate | auto].
  - destruct s; [discriminate |]. intros Hle. right. exists m, e.
    split; [reflexivity |].
    destruct (Z.compare_spec (-52) e) as [He | Hlt | Hgt];
      [| lia | discriminate].
    right. split; [lia |].
    change (Pos.compare_cont Eq 4503599627370496 m)
      with (2 ^ 52 ?= Z.pos m) in Hle.
    destruct (Z.compare_spec (2 ^ 52) (Z.pos m)) as [E | E | E];
      [lia | lia | discriminate].
Qed.

(** The sum of two positive numbers with exponents of at least -52, one of
    which has a full mantissa, is at least one, whatever the rounding. *)
Lemma add_finite_ge_one (ma mb : positive) (ea eb : Z) :
  2 ^ 52 <= Z.pos ma \/ 2 ^ 52 <= Z.pos mb -> -52 <= ea -> -52 <= eb ->
  leb (of_Z 1) (add (S754_finite false ma ea) (S754_finite false mb eb)) = true.
Proof.
  intros Hfull Hea Heb. unfold add. cbn [SFadd].
  set (ez := Z.min ea eb).
  assert (-52 <= ez) as Hez by (unfold ez; lia).
  pose proof (shl_align_spec ma ea ez) as Ha.
  pose proof (shl_align_spec mb eb ez) as Hb.
  destruct (shl_align ma ea ez) as [a' ea']. destruct (shl_align mb eb ez)
    as [b' eb'].
  cbn [fst cond_Zopp Z.add binary_normalize]. unfold binary_round.
  set (M := (a' + b')%positive).
  assert (Z.pos ma <= Z.pos a') as Hma.
  { destruct (ez <? ea) eqn:E; [| now destruct Ha as [-> _]].
    destruct Ha as [-> _]. apply Z.ltb_lt in E.
    assert (0 < 2 ^ (ea - ez)) by (apply pow2_pos; lia). nia. }
  assert (Z.pos mb <= Z.pos b') as Hmb.
  { destruct (ez <? eb) eqn:E; [| now destruct Hb as [-> _]].
    destruct Hb as [-> _]. apply Z.ltb_lt in E.
    assert (0 < 2 ^ (eb - ez)) by (apply pow2_pos; lia). nia. }
  assert (53 <= bit_length M) as Hd.
  { apply digits_ge. unfold M. rewrite Pos2Z.inj_add.
    change (53 - 1) with 52. lia. }
  pose proof (shl_align_spec M ez (fexp (bit_length M + ez))) as Halign.
  fold (bit_length M). fold fexp.
  destruct (shl_align M ez (fexp (bit_length M + ez))) as [mz ez'].
  assert ((fexp (bit_length M + ez) <? ez) = false) as Hno
    by (apply Z.ltb_ge; rewrite fexp_eq; lia).
  rewrite Hno in Halign. destruct Halign as [-> ->].
  assert (0 <= shift_of M ez) as Hshift
    by (unfold shift_of; rewrite fexp_eq; lia).
  destruct (round_spec false M ez Hshift) as (m2 & Hm2 & ->).
  destruct (first_shift_size M ez Hshift) as (_ & Hsize & Hnormal).
  apply leb_one_pack; [| lia].
  specialize (Hnormal ltac:(lia)). destruct Hm2 as [-> | [-> _]]; lia.
Qed.

(** A number that is at least one is still at least one after the addition
    of one, whatever the rounding. *)
Lemma add_one_ge_one (q : number) :
  leb (of_Z 1) q = true -> leb (of_Z 1) (add q (of_Z 1)) = true.
Proof.
  intros Hq. destruct (leb_one_inv q Hq) as [-> | (m & e & -> & He)];
    [reflexivity |].
  rewrite of_Z_1 at 2. apply add_finite_ge_one; [| lia | lia].
  right. change (Z.pos 4503599627370496) with (2 ^ 52). lia.
Qed.

(** *** Math.floor and array indices *)

Lemma integer_value_finite (s : bool) (n : positive) :
  Z.pos n < 2 ^ 53 ->
  integer_value (S754_finite s (whole_mantissa n) (whole_exponent n))
  = Some (signed s n).
Proof.
  intros Hn. apply digits_le_53 in Hn. pose proof (digits_pos n).
  unfold integer_value, whole_exponent.
  assert (signed s (whole_mantissa n) = signed s n * 2 ^ (53 - bit_length n))
    as Hsigned.
  { destruct s; cbn [signed];
      [rewrite <- !Pos2Z.opp_pos |]; rewrite whole_mantissa_value; lia. }
  assert (0 < 2 ^ (53 - bit_length n)) by (apply pow2_pos; lia).
  destruct (Z.leb_spec 0 (bit_length n - 53)) as [Hexp | Hexp].
  - rewrite Hsigned. replace (bit_length n) with 53 by lia.
    cbn. f_equal. lia.
  - rewrite whole_mantissa_value, Hsigned by assumption.
    replace (- (bit_length n - 53)) with (53 - bit_length n) by lia.
    rewrite Z.mod_mul, Z.div_mul by lia. reflexivity.
Qed.

Lemma integer_value_whole (k : Z) :
  Z.abs k < 2 ^ 53 -> integer_value (of_Z k) = Some k.
Proof.
  intros Hk. destruct k as [| n | n]; [reflexivity | |].
  - rewrite of_Z_pos by lia. now apply (integer_value_finite false).
  - rewrite of_Z_neg by lia. now apply (integer_value_finite true).
Qed.

(** *** A fraction of a whole number *)

Lemma valid_finite (s : bool) (m : positive) (e : Z) :
  valid (S754_finite s m e) = true -> fexp (bit_length m + e) = e /\ e <= 971.
Proof.
  unfold valid, valid_binary, bounded, canonical_mantissa. fold fexp.
  fold (bit_length m). intros H. apply andb_prop in H as [H1 H2].
  apply Z.eqb_eq in H1. apply Z.leb_le in H2. split; [exact H1 | exact H2].
Qed.

(** A valid number below one has a mantissa below [2^(-e)]. *)
Lemma below_one_inv (m : positive) (e : Z) :
  valid (S754_finite false m e) = true ->
  ltb (S754_finite false m e) (of_Z 1) = true ->
  e <= -52 /\ Z.pos m < 2 ^ (- e) /\ Z.pos m < 2 ^ 53.
Proof.
  intros Hvalid Hlt. apply valid_finite in Hvalid as [Hcanon _].
  rewrite fexp_eq in Hcanon. pose proof (digits_bounds m) as [_ Hhigh].
  pose proof (digits_pos m) as Hd.
  assert (Z.pos m < 2 ^ 53) as Hm.
  { assert (2 ^ bit_length m <= 2 ^ 53) by (apply Z.pow_le_mono_r; lia). lia. }
  rewrite of_Z_1 in Hlt. unfold ltb, SFltb in Hlt. cbn [SFcompare] in Hlt.
  destruct (Z.compare_spec e (-52)) as [He | He | He];
    [| | discriminate].
  - destruct (Pos.compare_cont Eq m 4503599627370496) eqn:E;
      try discriminate.
    apply Pos.compare_lt_iff, Pos2Z.pos_lt_pos in E.
    change (Z.pos 4503599627370496) with (2 ^ 52) in E.
    subst e. split; [lia | split; [exact E | exact Hm]].
  - split; [lia | split; [| exact Hm]].
    assert (2 ^ 53 <= 2 ^ (- e)) by (apply Z.pow_le_mono_r; lia). lia.
Qed.

(** The floor of a packed result that stays below a whole number [n]. *)
Lemma floor_pack (m e n : Z) :
  0 <= m <= 2 ^ 53 -> -1074 <= e <= 0 -> (-1074 < e -> 2 ^ 52 <= m) ->
  n <= 2 ^ 53 -> m < n * 2 ^ (- e) ->
  Math_floor (pack false m e) = of_Z (m / 2 ^ (- e))
  /\ 0 <= m / 2 ^ (- e) < n.
Proof.
  intros Hm He Hnormal Hn Hbelow.
  assert (0 < 2 ^ (- e)) as Hpos by (apply pow2_pos; lia).
  split; [| split; [apply Z.div_pos; lia
                   | apply Z.div_lt_upper_bound; [exact Hpos | lia]]].
  unfold pack. destruct (Z.eqb_spec m (2 ^ 53)) as [-> | Hne].
  - assert (e < 0) as Hneg.
    { destruct (Z.eq_dec e 0) as [-> | Hnz]; [| lia].
      rewrite Z.pow_0_r in Hbelow. lia. }
    unfold finish. change (2 ^ 52) with (Z.pos 4503599627370496).
    cbv iota beta.
    assert ((e + 1 <=? emax - prec) = true) as -> by (apply Z.leb_le; cbn; lia).
    cbn [Math_floor]. destruct (Z.ltb_spec (e + 1) 0) as [Hlt | Hge].
    + f_equal. cbn [signed]. change (Z.pos 4503599627370496) with (2 ^ 52).
      replace (2 ^ 53) with (2 ^ 52 * 2) by reflexivity.
      replace (2 ^ (- e)) with (2 ^ (- (e + 1)) * 2).
      * rewrite Z.div_mul_cancel_r; [reflexivity | | lia].
        apply Z.neq_sym, Z.lt_neq, pow2_pos. lia.
      * replace (- e) with (Z.succ (- (e + 1))) by lia.
        rewrite Z.pow_succ_r by lia. lia.
    + replace e with (-1) by lia. vm_compute. reflexivity.
  - destruct m as [| p | p]; [| | lia].
    + cbn [finish Math_floor]. rewrite Z.div_0_l by lia. reflexivity.
    + unfold finish.
      assert ((e <=? emax - prec) = true) as -> by (apply Z.leb_le; cbn; lia).
      cbn [Math_floor]. destruct (Z.ltb_spec e 0) as [Hlt | Hge];
        [reflexivity |].
      assert (e = 0) as -> by lia. specialize (Hnormal ltac:(lia)).
      change (- 0) with 0. rewrite Z.pow_0_r, Z.div_1_r.
      assert (Z.pos p < 2 ^ 53) as Hp by lia.
      rewrite (of_Z_pos p Hp).
      assert (bit_length p = 53) as Hd.
      { apply digits_unique. change (53 - 1) with 52. lia. }
      f_equal.
      * apply Pos2Z.inj. rewrite whole_mantissa_value by lia.
        rewrite Hd. change (2 ^ (53 - 53)) with 1. lia.
      * unfold whole_exponent. lia.
Qed.

(** The product of a valid number below one and a whole number [n], rounded
    to binary64, then floored, is a whole number below [n]. *)
Lemma floor_mul_finite (m : positive) (e : Z) (n : positive) :
  e <= -52 -> Z.pos m < 2 ^ (- e) -> Z.pos m < 2 ^ 53 -> Z.pos n < 2 ^ 53 ->
  exists k, 0 <= k < Z.pos n
            /\ Math_floor (mul (S754_finite false m e) (of_Z (Z.pos n)))
               = of_Z k.
Proof.
  intros He Hm Hm53 Hn. rewrite of_Z_pos by exact Hn.
  unfold mul. cbn [SFmul xorb].
  set (mn := whole_mantissa n). set (P := (m * mn)%positive).
  set (E := e + whole_exponent n).
  apply digits_le_53 in Hn as Hdn. pose proof (digits_pos n) as Hdn1.
  pose proof (digits_bounds n) as [Hnlow Hnhigh].
  assert (Z.pos mn = Z.pos n * 2 ^ (53 - bit_length n)) as Hmn
    by (now apply whole_mantissa_value).
  assert (0 < 2 ^ (53 - bit_length n)) as Hc by (apply pow2_pos; lia).
  assert (2 ^ 52 <= Z.pos mn < 2 ^ 53) as Hmn_size.
  { rewrite Hmn. split.
    - replace 52 with (bit_length n - 1 + (53 - bit_length n)) by lia.
      rewrite Z.pow_add_r by lia. nia.
    - replace 53 with (bit_length n + (53 - bit_length n)) at 2 by lia.
      rewrite Z.pow_add_r by lia. nia. }
  assert (Z.pos P = Z.pos m * Z.pos mn) as HP by reflexivity.
  assert (0 < 2 ^ (- e)) as HT by (apply pow2_pos; lia).
  assert (53 <= bit_length P) as HdP by (apply digits_ge; nia).
  assert (bit_length P <= 53 - e) as HdP'.
  { apply digits_le. replace (53 - e) with (53 + (- e)) by lia.
    rewrite Z.pow_add_r by lia. nia. }
  assert (0 <= shift_of P E) as Hshift
    by (unfold shift_of; rewrite fexp_eq; lia).
  destruct (round_spec false P E Hshift) as (m2 & Hm2 & ->).
  destruct (first_shift_size P E Hshift) as (Hemin & Hsize & Hnormal).
  set (n1 := shift_of P E) in *. set (e' := E + n1) in *.
  assert (e' <= 0) as He'
    by (unfold e', n1, shift_of, E, whole_exponent; rewrite fexp_eq; lia).
  assert (0 < 2 ^ n1) as Hpow by (now apply pow2_pos).
  assert (0 < 2 ^ (- e')) as Hpow' by (apply pow2_pos; lia).
  assert (2 ^ (- e') * 2 ^ n1 = 2 ^ (53 - bit_length n) * 2 ^ (- e)) as Hscale.
  { rewrite <- !Z.pow_add_r by lia. f_equal.
    unfold e', E, whole_exponent. lia. }
  assert (m2 < Z.pos n * 2 ^ (- e')) as Hbelow.
  { pose proof (Z.mul_div_le (Z.pos P) (2 ^ n1) Hpow) as Hdiv.
    destruct Hm2 as [-> | (-> & Hn1 & Hhalf)].
    - apply Z.div_lt_upper_bound; [exact Hpow |]. nia.
    - destruct (Z.max_spec (bit_length P + E - 53) (-1074)) as [[Hsub Hmax]
                                                            | [Hnorm Hmax]].
      + assert (e' = -1074) as He'eq
          by (unfold e', n1, shift_of; rewrite fexp_eq; lia).
        rewrite He'eq. change (- -1074) with 1074.
        assert (2 ^ 53 < 2 ^ 1074) by (apply Z.pow_lt_mono_r; lia). nia.
      + assert (n1 = bit_length P - 53) as Hn1eq
          by (unfold n1, shift_of; rewrite fexp_eq; lia).
        pose proof (digits_bounds P) as [HPlow _].
        assert (2 ^ (bit_length P - 1) = 2 ^ (n1 - 1) * 2 ^ 53) as Hsplit.
        { rewrite <- Z.pow_add_r by lia. f_equal. lia. }
        assert (0 < 2 ^ (n1 - 1)) by (apply pow2_pos; lia).
        assert (2 ^ n1 = 2 ^ (n1 - 1) * 2) as Hdouble.
        { replace n1 with (Z.succ (n1 - 1)) at 1 by lia.
          rewrite Z.pow_succ_r by lia. lia. }
        assert (Z.pos P / 2 ^ n1 + 1 <= Z.pos n * 2 ^ (- e')) as Hle.
        { assert (Z.pos P / 2 ^ n1 < Z.pos n * 2 ^ (- e'))
            by (apply Z.div_lt_upper_bound; [exact Hpow |]; nia).
          lia. }
        destruct (Z.eq_dec (Z.pos P / 2 ^ n1 + 1) (Z.pos n * 2 ^ (- e')))
          as [Heq | Hneq]; [| lia].
        exfalso.
        assert (Z.pos mn * (2 ^ (- e) - Z.pos m) <= 2 ^ (n1 - 1)) as Hgap.
        { assert (Z.pos n * 2 ^ (- e') * 2 ^ n1 = Z.pos mn * 2 ^ (- e))
            by (rewrite Hmn; nia).
          nia. }
        assert (2 ^ (n1 - 1) * 2 ^ 53 < 2 ^ 53 * Z.pos mn) by nia.
        nia. }
  destruct (floor_pack m2 e' (Z.pos n)) as [Hfloor Hrange].
  - destruct Hm2 as [-> | (-> & _)]; lia.
  - lia.
  - intros Hnorm. specialize (Hnormal Hnorm).
    destruct Hm2 as [-> | (-> & _)]; lia.
  - lia.
  - exact Hbelow.
  - exists (m2 / 2 ^ (- e')). split; [exact Hrange | exact Hfloor].
Qed.

Lemma whole_integer_value (k : Z) (x : number) :
  Z.abs k < 2 ^ 53 -> whole_number k x -> integer_value x = Some k.
Proof.
  intros Hk [-> | [-> ->]]; [now apply integer_value_whole | reflexivity].
Qed.

Lemma whole_add (k c : Z) (x : number) :
  Z.abs k < 2 ^ 53 -> Z.abs c < 2 ^ 53 -> Z.abs (k + c) < 2 ^ 53 -> c <> 0 ->
  whole_number k x -> add x (of_Z c) = of_Z (k + c).
Proof.
  intros Hk Hc Hsum Hnz [-> | [-> ->]]; [now apply add_whole |].
  destruct c as [| c | c]; [congruence | |]; cbn [Z.add].
  - rewrite of_Z_pos by lia. reflexivity.
  - rewrite of_Z_neg by lia. reflexivity.
Qed.

Lemma floor_mul_below (r : number) (n : Z) :
  valid r = true -> leb (of_Z 0) r = true -> ltb r (of_Z 1) = true ->
  1 <= n < 2 ^ 53 ->
  exists k, 0 <= k < n /\ whole_number k (Math_floor (mul r (of_Z n))).
Proof.
  intros Hvalid Hpos Hlt Hn. destruct n as [| n | n]; try lia.
  destruct r as [s | s | | s m e].
  - exists 0. split; [lia |]. rewrite (of_Z_pos n) by lia.
    destruct s; [right | left]; auto.
  - destruct s; discriminate.
  - discriminate.
  - destruct s; [discriminate |].
    destruct (below_one_inv m e Hvalid Hlt) as (He & Hm & Hm53).
    destruct (floor_mul_finite m e n He Hm Hm53 ltac:(lia)) as (k & Hk & Hfl).
    exists k. split; [exact Hk | left; exact Hfl].
Qed.

(** *** Results of rounding are binary64 values *)

Lemma valid_finite_iff (s : bool) (m : positive) (e : Z) :
  valid (S754_finite s m e) = true <-> canonical m e.
Proof.
  unfold canonical. split.
  - apply valid_finite.
  - intros [Hcanon He]. unfold valid, valid_binary, bounded,
      canonical_mantissa. fold fexp. fold (bit_length m).
    apply andb_true_intro. split; [now apply Z.eqb_eq | now apply Z.leb_le].
Qed.

Lemma finish_valid (s : bool) (m : positive) (e : Z) :
  fexp (bit_length m + e) = e -> valid (finish s (Z.pos m) e) = true.
Proof.
  intros Hcanon. unfold finish.
  destruct (Z.leb_spec e (emax - prec)) as [He | He]; [| reflexivity].
  apply valid_finite_iff. split; [exact Hcanon | exact He].
Qed.

Lemma pack_valid (s : bool) (m e : Z) :
  0 <= m <= 2 ^ 53 -> -1074 <= e -> (-1074 < e -> 2 ^ 52 <= m) ->
  valid (pack s m e) = true.
Proof.
  intros Hm He Hnormal. unfold pack.
  destruct (Z.eqb_spec m (2 ^ 53)) as [-> | Hne].
  - change (2 ^ 52) with (Z.pos 4503599627370496). apply finish_valid.
    change (bit_length 4503599627370496) with 53. rewrite fexp_eq. lia.
  - destruct m as [| p | p]; [reflexivity | | lia].
    apply finish_valid. rewrite fexp_eq.
    pose proof (digits_le p 53 ltac:(lia)) as Hd.
    destruct (Z.eq_dec e (-1074)) as [-> | Hne']; [lia |].
    specialize (Hnormal ltac:(lia)).
    pose proof (digits_ge p 53 ltac:(change (53 - 1) with 52; lia)). lia.
Qed.

Lemma round_valid (s : bool) (P : positive) (E : Z) :
  0 <= shift_of P E ->
  valid (binary_round_aux prec emax s (Z.pos P) E loc_Exact) = true.
Proof.
  intros Hshift. destruct (round_spec s P E Hshift) as (m2 & Hm2 & ->).
  destruct (first_shift_size P E Hshift) as (He & Hsize & Hnormal).
  apply pack_valid; [| exact He |].
  - destruct Hm2 as [-> | [-> _]]; lia.
  - intros Hn. specialize (Hnormal Hn). destruct Hm2 as [-> | [-> _]]; lia.
Qed.

Lemma binary_round_valid (s : bool) (M : positive) (e : Z) :
  valid (binary_round prec emax s M e) = true.
Proof.
  unfold binary_round. fold (bit_length M). fold fexp.
  pose proof (shl_align_spec M e (fexp (bit_length M + e))) as Halign.
  destruct (shl_align M e (fexp (bit_length M + e))) as [mz ez].
  apply round_valid. unfold shift_of.
  destruct (Z.ltb_spec (fexp (bit_length M + e)) e) as [Hlt | Hge].
  - destruct Halign as [Hmz ->].
    assert (bit_length mz = bit_length M + (e - fexp (bit_length M + e)))
      as Hd by (apply digits_mul_pow; [lia | exact Hmz]).
    rewrite Hd.
    replace (bit_length M + (e - fexp (bit_length M + e))
             + fexp (bit_length M + e)) with (bit_length M + e) by lia.
    lia.
  - destruct Halign as [-> ->]. lia.
Qed.

(** The sum of two binary64 values is one. *)
Lemma add_valid (a b : number) :
  valid a = true -> valid b = true -> valid (add a b) = true.
Proof.
  intros Ha Hb. unfold add.
  destruct a as [sa | sa | | sa ma ea]; destruct b as [sb | sb | | sb mb eb];
    cbn [SFadd]; try reflexivity; try assumption.
  - now destruct sa, sb.
  - now destruct sa, sb.
  - destruct (cond_Zopp sa (Z.pos (fst (shl_align ma ea (Z.min ea eb))))
              + cond_Zopp sb (Z.pos (fst (shl_align mb eb (Z.min ea eb)))))
      as [| M | M]; cbn [binary_normalize];
      [reflexivity | apply binary_round_valid | apply binary_round_valid].
Qed.

(** A binary64 value that is at least one is infinite, or has a full
    mantissa at an exponent of at least -52. *)
Lemma ge_one_inv (q : number) :
  valid q = true -> leb (of_Z 1) q = true ->
  q = S754_infinity false
  \/ exists m e, q = S754_finite false m e /\ 2 ^ 52 <= Z.pos m /\ -52 <= e.
Proof.
  intros Hvalid Hq.
  destruct (leb_one_inv q Hq) as [-> | (m & e & -> & He)]; [now left |].
  right. exists m, e. split; [reflexivity |].
  apply valid_finite in Hvalid as [Hcanon _]. rewrite fexp_eq in Hcanon.
  destruct He as [He | [-> Hm]]; [| lia].
  split; [| lia]. pose proof (digits_bounds m) as [Hlow _].
  replace (bit_length m) with 53 in Hlow by lia. exact Hlow.
Qed.

(** The sum of two binary64 values that are at least one is at least one. *)
Lemma add_ge_one (a b : number) :
  valid a = true -> valid b = true ->
  leb (of_Z 1) a = true -> leb (of_Z 1) b = true ->
  leb (of_Z 1) (add a b) = true.
Proof.
  intros Hva Hvb Ha Hb.
  destruct (ge_one_inv a Hva Ha) as [-> | (ma & ea & -> & Hma & Hea)];
    destruct (ge_one_inv b Hvb Hb) as [-> | (mb & eb & -> & Hmb & Heb)];
    try reflexivity.
  apply add_finite_ge_one; [now left | exact Hea | exact Heb].
Qed.

(** *** Comparisons with zero *)

Lemma positive_not_le (x : number) :
  ltb (of_Z 0) x = true -> leb x (of_Z 0) = false.
Proof.
  rewrite of_Z_0. unfold ltb, leb, SFltb, SFleb.
  destruct x as [s | s | | s m e]; cbn [SFcompare]; try discriminate;
    destruct s; (discriminate || reflexivity).
Qed.

Lemma ge_one_not_le (x : number) :
  leb (of_Z 1) x = true -> leb x (of_Z 0) = false.
Proof.
  intros Hx. destruct (leb_one_inv x Hx) as [-> | (m & e & -> & _)];
    reflexivity.
Qed.

Lemma ge_one_not_zero (x : number) :
  leb (of_Z 1) x = true -> eqb x (of_Z 0) = false.
Proof.
  intros Hx. destruct (leb_one_inv x Hx) as [-> | (m & e & -> & _)];
    reflexivity.
Qed.

Lemma of_Z_inj (a b : Z) :
  Z.abs a < 2 ^ 53 -> Z.abs b < 2 ^ 53 -> of_Z a = of_Z b -> a = b.
Proof.
  intros Ha Hb Heq. apply (f_equal integer_value) in Heq.
  rewrite !integer_value_whole in Heq by assumption. now injection Heq.
Qed.

Lemma of_Z_valid (k : Z) : Z.abs k < 2 ^ 53 -> valid (of_Z k) = true.
Proof.
  intros Hk. destruct k as [| n | n]; [reflexivity | |].
  - rewrite of_Z_pos by lia. apply valid_finite_iff.
    apply whole_canonical, digits_le_53. lia.
  - rewrite of_Z_neg by lia. apply valid_finite_iff.
    apply whole_canonical, digits_le_53. lia.
Qed.

(** ** Strings *)

Lemma prefix_true_iff (t s : string) :
  prefix t s = true <-> exists rest, s = t ++ rest.
Proof.
  revert s. induction t as [| c t IH]; intros s.
  - split; [intros _; now exists s | now destruct s].
  - destruct s as [| d s]; simpl.
    + split; [discriminate | intros [rest H]; discriminate].
    + destruct (Ascii.ascii_dec c d) as [-> | Hne].
      * rewrite IH. split; intros [rest H]; exists rest.
        -- now rewrite H.
        -- now injection H.
      * split; [discriminate |].
        intros [rest H]. injection H as H1 _. now elim Hne.
Qed.

Lemma includes_true_iff (s search : string) :
  includes s search = true <-> occurs_in search s.
Proof.
  unfold occurs_in. induction s as [| c s IH]; cbn [includes].
  - destruct (prefix search "") eqn:E.
    + apply prefix_true_iff in E as [rest E].
      split; [intros _ | reflexivity]. exists "", rest. exact E.
    + split; [discriminate |].
      intros ([| b before] & after & H); [| discriminate].
      simpl in H. assert (prefix search "" = true) as E'
        by (apply prefix_true_iff; now exists after).
      congruence.
  - destruct (prefix search (String c s)) eqn:E.
    + apply prefix_true_iff in E as [rest E].
      split; [intros _ | reflexivity]. exists "", rest. exact E.
    + rewrite IH. split.
      * intros (before & after & ->). now exists (String c before), after.
      * intros ([| b before] & after & H).
        -- simpl in H. assert (prefix search (String c s) = true) as E'
             by (apply prefix_true_iff; now exists after).
           congruence.
        -- injection H as _ H. now exists before, after.
Qed.

Lemma includes_empty (s : string) : includes s "" = true.
Proof. apply includes_true_iff. now exists "", s. Qed.

Lemma append_assoc (a b c : string) : (a ++ b) ++ c = a ++ b ++ c.
Proof. induction a as [| x a IH]; simpl; [reflexivity | now rewrite IH]. Qed.

Lemma append_nil_r (a : string) : a ++ "" = a.
Proof. induction a as [| x a IH]; simpl; [reflexivity | now rewrite IH]. Qed.

Lemma truthy_false_iff (s : string) : truthy s = false <-> s = "".
Proof.
  unfold truthy. destruct (String.eqb_spec s ""); simpl; split;
    congruence.
Qed.

(** ** Lists *)

Lemma filter_selection {A} (P : A -> Prop) (f : A -> bool) (l : list A) :
  (forall x, f x = true <-> P x) -> selection P l (List.filter f l).
Proof.
  intros Hf. induction l as [| x l IH]; simpl.
  - constructor.
  - destruct (f x) eqn:E.
    + constructor; [now apply Hf | exact IH].
    + constructor; [| exact IH]. intros HP. apply Hf in HP. congruence.
Qed.

Lemma filter_subsequence {A} (f : A -> bool) (l : list A) :
  subsequence (List.filter f l) l.
Proof.
  induction l as [| x l IH]; simpl.
  - constructor.
  - destruct (f x); now constructor.
Qed.

(** ** View filter *)

Section ViewFilter.

Variable toLowerCase : string -> string.
Hypothesis toLowerCase_empty : toLowerCase "" = "".

Lemma matchesCategory_iff (s : App) (product : Product) :
  String.eqb (currentFilter s) "all"
  || String.eqb (category product) (currentFilter s) = true
  <-> category_rule s product.
Proof.
  unfold category_rule. rewrite orb_true_iff, !String.eqb_eq. reflexivity.
Qed.

Lemma matchesSearch_iff (s : App) (product : Product) :
  let search := toLowerCase (searchQuery s) in
  negb (truthy search)
  || includes (toLowerCase (title product)) search
  || includes (toLowerCase (description product)) search
  || includes (toLowerCase (category product)) search = true
  <-> search_rule toLowerCase s product.
Proof.
  cbv zeta. unfold search_rule, query_matches.
  rewrite !orb_true_iff, negb_true_iff, truthy_false_iff, !includes_true_iff.
  split.
  - intros [[[Hempty | H] | H] | H]; auto.
    right; left. rewrite Hempty. now exists "", (toLowerCase (title product)).
  - intros [Hempty | [H | [H | H]]]; auto.
    left; left; left. now rewrite Hempty.
Qed.

(** C1. For every catalog, category filter and search query, the products
    shown are obtained from the catalog by keeping, in catalog order, exactly
    the products that satisfy the inclusion rule: the filter is "all" or is
    the product's category, and the query is empty or, compared
    case-insensitively, a substring of the title, the description or the
    category. In particular the output is a subsequence of the catalog, and a
    product is in it if and only if it is in the catalog and satisfies the
    rule. *)
Theorem filteredProducts_inclusion (s : App) :
  selection (inclusion_rule toLowerCase s) (products s)
    (filteredProducts toLowerCase s)
  /\ subsequence (filteredProducts toLowerCase s) (products s)
  /\ forall product,
       In product (filteredProducts toLowerCase s)
       <-> In product (products s) /\ inclusion_rule toLowerCase s product.
Proof.
  assert (forall product,
    (String.eqb (currentFilter s) "all"
     || String.eqb (category product) (currentFilter s))
    && (negb (truthy (toLowerCase (searchQuery s)))
        || includes (toLowerCase (title product)) (toLowerCase (searchQuery s))
        || includes (toLowerCase (description product)) (toLowerCase (searchQuery s))
        || includes (toLowerCase (category product)) (toLowerCase (searchQuery s)))
    = true <-> inclusion_rule toLowerCase s product) as Hrule.
  { intros product. unfold inclusion_rule.
    rewrite andb_true_iff, matchesCategory_iff.
    rewrite (matchesSearch_iff s product). reflexivity. }
  unfold filteredProducts. cbv zeta. split; [| split].
  - apply filter_selection. exact Hrule.
  - apply filter_subsequence.
  - intros product. rewrite filter_In, Hrule. reflexivity.
Qed.

End ViewFilter.

Example filteredProducts_demo :
  filteredProducts ascii_toLowerCase demo_view = sampleProducts.
Proof. vm_compute. reflexivity. Qed.

Example filteredProducts_demo_all :
  map id (filteredProducts ascii_toLowerCase
            (set_currentFilter "all" demo_view)) = [1; 2].
Proof. vm_compute. reflexivity. Qed.

Lemma filteredProducts_inclusion_witness :
  ascii_toLowerCase "" = "" /\
  forall product,
    In product (filteredProducts ascii_toLowerCase demo_view)
    <-> In product (products demo_view)
        /\ inclusion_rule ascii_toLowerCase demo_view product.
Proof.
  split; [reflexivity |].
  exact (proj2 (proj2
    (filteredProducts_inclusion ascii_toLowerCase eq_refl demo_view))).
Defined.

(** ** Running methods *)

Lemma set_cart_cart (s : App) : set_cart (cart s) s = s.
Proof. now destruct s. Qed.

Ltac run_method :=
  unfold completion, exec, alerts, bind, try_catch, try_finally, await,
    throw, read, write, alert, ret; cbn [fst snd].

(** What each cart method does to the state, by cases of the lookups. *)
Lemma addToCart_run (productId : Z) (s : App) :
  addToCart productId s =
  match find (fun p => id p =? productId) (products s) with
  | None => (Normal tt, s, [])
  | Some product =>
      match find (fun item => item_id item =? productId) (cart s) with
      | Some _ =>
          (Normal tt,
           set_cart (map (fun item =>
                            if item_id item =? productId
                            then with_quantity item (add (quantity item) (of_Z 1))
                            else item) (cart s)) s, [])
      | None =>
          (Normal tt, set_cart (cart s ++ [mkCartItem product (of_Z 1)]) s, [])
      end
  end.
Proof.
  unfold addToCart. run_method.
  destruct (find _ (products s)); [| reflexivity].
  run_method. destruct (find _ (cart s)); reflexivity.
Qed.

Lemma removeFromCart_run (productId : Z) (s : App) :
  removeFromCart productId s =
  (Normal tt,
   set_cart (List.filter (fun item => negb (item_id item =? productId)) (cart s)) s,
   []).
Proof. reflexivity. Qed.

Lemma updateCartItemQuantity_run (productId : Z) (quantity : number) (s : App) :
  leb quantity (of_Z 0) = false ->
  updateCartItemQuantity productId quantity s =
  (Normal tt,
   set_cart (map (fun item =>
                    if item_id item =? productId
                    then with_quantity item quantity
                    else item) (cart s)) s, []).
Proof.
  intros Hq. unfold updateCartItemQuantity. rewrite Hq. reflexivity.
Qed.

Lemma updateCartItemQuantity_removes (productId : Z) (quantity : number)
    (s : App) :
  leb quantity (of_Z 0) = true ->
  updateCartItemQuantity productId quantity s = removeFromCart productId s.
Proof.
  intros Hq. unfold updateCartItemQuantity. rewrite Hq. reflexivity.
Qed.

(** ** Cart store *)

Lemma find_id_None (productId : Z) (s : App) :
  find (fun p => id p =? productId) (products s) = None
  <-> ~ in_catalog s productId.
Proof.
  split.
  - intros Hnone (product & Hin & Hid).
    apply (find_none _ _ Hnone) in Hin. cbn beta in Hin. lia.
  - intros Hno. destruct (find _ (products s)) as [product |] eqn:E;
      [| reflexivity].
    apply find_some in E as [Hin Hid]. elim Hno. exists product.
    split; [exact Hin | lia].
Qed.

Lemma find_item_None (productId : Z) (s : App) :
  find (fun item => item_id item =? productId) (cart s) = None
  <-> ~ in_cart s productId.
Proof.
  split.
  - intros Hnone (item & Hin & Hid).
    apply (find_none _ _ Hnone) in Hin. cbn beta in Hin. lia.
  - intros Hno. destruct (find _ (cart s)) as [item |] eqn:E; [| reflexivity].
    apply find_some in E as [Hin Hid]. elim Hno. exists item.
    split; [exact Hin | lia].
Qed.

Lemma find_app_None {A} (f : A -> bool) (l l' : list A) :
  find f l = None -> find f (l ++ l') = find f l'.
Proof.
  induction l as [| x l IH]; simpl; [reflexivity |].
  destruct (f x); [discriminate | exact IH].
Qed.

Lemma item_id_mk (product : Product) (q : number) :
  item_id (mkCartItem product q) = id product.
Proof. reflexivity. Qed.

Lemma map_requantified (productId : Z) (f : number -> number)
    (c : list CartItem) :
  requantified productId f c
    (map (fun item =>
            if item_id item =? productId
            then with_quantity item (f (quantity item))
            else item) c).
Proof.
  unfold requantified. induction c as [| item c IH]; simpl; constructor.
  - destruct (Z.eqb_spec (item_id item) productId); simpl; repeat split;
      intros; congruence.
  - exact IH.
Qed.

Lemma map_not_in_cart (productId : Z) (g : CartItem -> CartItem)
    (c : list CartItem) :
  (forall item, In item c -> item_id item <> productId) ->
  map (fun item => if item_id item =? productId then g item else item) c = c.
Proof.
  induction c as [| item c IH]; intros Hno; simpl; [reflexivity |].
  destruct (Z.eqb_spec (item_id item) productId) as [Heq | _].
  - elim (Hno item (or_introl eq_refl) Heq).
  - f_equal. apply IH. intros i Hi. apply Hno. now right.
Qed.

Lemma filter_id_not_in_cart (productId : Z) (c : list CartItem) :
  (forall item, In item c -> item_id item <> productId) ->
  List.filter (fun item => item_id item =? productId) c = [].
Proof.
  induction c as [| item c IH]; intros Hno; simpl; [reflexivity |].
  destruct (Z.eqb_spec (item_id item) productId) as [Heq | _].
  - elim (Hno item (or_introl eq_refl) Heq).
  - apply IH. intros i Hi. apply Hno. now right.
Qed.

Lemma add_one_one : add (of_Z 1) (of_Z 1) = of_Z 2.
Proof. vm_compute. reflexivity. Qed.

(** Where the old quantity is a whole number, the incremented one is the
    next whole number. *)
Lemma requantified_increment (productId : Z) (before after : list CartItem) :
  requantified productId (fun q => add q (of_Z 1)) before after ->
  Forall2 (fun old new =>
             item_id old = productId ->
             forall k, quantity old = of_Z k ->
                       Z.abs k < 2 ^ 53 -> Z.abs (k + 1) < 2 ^ 53 ->
                       quantity new = of_Z (k + 1))
          before after.
Proof.
  unfold requantified. induction 1 as [| old new before after H _ IH];
    constructor; [| exact IH].
  intros Hid k Hk Hbound Hnext. destruct H as (_ & Hset & _).
  rewrite (Hset Hid), Hk. apply add_whole; [exact Hbound | | exact Hnext].
  change (Z.abs 1) with 1. lia.
Qed.

(** C2. [addToCart(productId)] never throws and shows nothing, and
    - is a no-op when no catalog product has that id;
    - otherwise, when the cart has an entry with that id, replaces the
      quantity [q] of that entry by the binary64 sum [q + 1] and changes
      nothing else (same entries in the same positions); the sum is the next
      whole number when [q] is a whole number and both have a magnitude
      below 2^53;
    - otherwise appends an entry for the catalog product, with quantity 1,
      after the existing entries, which keep their order;
    - so two calls for a product not yet in the cart leave, after the
      existing entries, one entry for it, with quantity 2. *)
Theorem addToCart_spec (s : App) (productId : Z) :
  let s' := exec (addToCart productId) s in
  completion (addToCart productId) s = Normal tt
  /\ alerts (addToCart productId) s = []
  /\ s' = set_cart (cart s') s
  /\ (~ in_catalog s productId -> s' = s)
  /\ (in_catalog s productId -> in_cart s productId ->
      requantified productId (fun q => add q (of_Z 1)) (cart s) (cart s')
      /\ Forall2 (fun old new =>
                    item_id old = productId ->
                    forall k, quantity old = of_Z k ->
                              Z.abs k < 2 ^ 53 -> Z.abs (k + 1) < 2 ^ 53 ->
                              quantity new = of_Z (k + 1))
                 (cart s) (cart s'))
  /\ (in_catalog s productId -> ~ in_cart s productId ->
      exists product,
        In product (products s) /\ id product = productId
        /\ cart s' = (cart s ++ [mkCartItem product (of_Z 1)])%list
        /\ let s'' := exec (addToCart productId) s' in
           cart s'' = (cart s ++ [mkCartItem product (of_Z 2)])%list
           /\ List.filter (fun item => item_id item =? productId) (cart s'')
              = [mkCartItem product (of_Z 2)]).
Proof.
  cbv zeta. unfold completion, exec, alerts. rewrite addToCart_run.
  destruct (find _ (products s)) as [product |] eqn:Ecat.
  - assert (in_catalog s productId) as Hcat.
    { apply find_some in Ecat as [Hin Hid]. exists product.
      split; [exact Hin | lia]. }
    apply find_some in Ecat as Hprod. destruct Hprod as [Hin Hid].
    apply Z.eqb_eq in Hid.
    destruct (find _ (cart s)) as [existingItem |] eqn:Ecart; cbn [fst snd].
    + assert (in_cart s productId) as Hcart.
      { apply find_some in Ecart as [Hi Hd]. exists existingItem.
        split; [exact Hi | lia]. }
      split; [reflexivity | split; [reflexivity | split; [reflexivity |]]].
      split; [tauto | split; [| tauto]].
      intros _ _.
      assert (requantified productId (fun q => add q (of_Z 1)) (cart s)
                (cart (set_cart
                   (map (fun item =>
                           if item_id item =? productId
                           then with_quantity item (add (quantity item) (of_Z 1))
                           else item) (cart s)) s))) as Hall
        by apply (map_requantified productId (fun q => add q (of_Z 1))).
      split; [exact Hall | now apply requantified_increment].
    + apply find_item_None in Ecart as Hnot.
      split; [reflexivity | split; [reflexivity | split; [reflexivity |]]].
      split; [tauto | split; [tauto |]].
      intros _ _. exists product.
      split; [exact Hin | split; [exact Hid | split; [reflexivity |]]].
      rewrite addToCart_run. cbn [products set_cart cart]. rewrite Ecat.
      rewrite (find_app_None _ _ _ Ecart). cbn [find].
      rewrite item_id_mk, Hid, Z.eqb_refl. cbn [fst snd cart set_cart].
      rewrite map_app, filter_app, map_not_in_cart, filter_id_not_in_cart.
      * cbn [map List.filter]. rewrite item_id_mk, Hid, Z.eqb_refl.
        unfold with_quantity. cbn [product_fields quantity].
        rewrite item_id_mk, Hid, Z.eqb_refl, add_one_one. split; reflexivity.
      * intros item Hi Hd. apply Hnot. now exists item.
      * intros item Hi Hd. apply Hnot. now exists item.
  - apply find_id_None in Ecat. cbn [fst snd].
    split; [reflexivity | split; [reflexivity | split]].
    + now rewrite set_cart_cart.
    + split; [reflexivity | split; intros Hcat; contradiction].
Qed.

Example addToCart_demo_existing :
  map (fun item => (item_id item, quantity item))
      (cart (exec (addToCart 3) demo_shop)) = [(3, of_Z 3); (4, of_Z 1)].
Proof. vm_compute. reflexivity. Qed.

Example addToCart_demo_twice :
  map (fun item => (item_id item, quantity item))
      (cart (exec (addToCart 2 ;; addToCart 2) demo_shop))
  = [(3, of_Z 2); (4, of_Z 1); (2, of_Z 2)].
Proof. vm_compute. reflexivity. Qed.

Example addToCart_demo_unknown : exec (addToCart 99) demo_shop = demo_shop.
Proof. vm_compute. reflexivity. Qed.

(** At the quantity 2^53 the binary64 sum with 1 is 2^53 again: the entry
    keeps its quantity, which is the whole number 2^53 before and after the
    call and not 2^53 + 1. *)
Lemma addToCart_saturates :
  map (fun item => integer_value (quantity item)) (cart demo_bulk)
  = [Some (2 ^ 53)]
  /\ map (fun item => integer_value (quantity item))
       (cart (exec (addToCart 3) demo_bulk)) = [Some (2 ^ 53)]
  /\ map (fun item => integer_value (quantity item))
       (cart (exec (addToCart 3) demo_bulk)) <> [Some (2 ^ 53 + 1)]
  /\ cart (exec (addToCart 3) demo_bulk) = cart demo_bulk.
Proof. vm_compute. repeat split; discriminate. Qed.

Lemma demo_shop_in_catalog_2 : in_catalog demo_shop 2.
Proof.
  eexists. split; [right; left; reflexivity | reflexivity].
Defined.

Lemma demo_shop_in_catalog_3 : in_catalog demo_shop 3.
Proof.
  exists demo_cable. split; [cbn; auto | reflexivity].
Defined.

Lemma demo_shop_in_cart_3 : in_cart demo_shop 3.
Proof.
  exists (mkCartItem demo_cable (of_Z 2)). split; [left |]; reflexivity.
Defined.

Lemma demo_shop_not_in_cart_2 : ~ in_cart demo_shop 2.
Proof.
  intros (item & Hin & Hid). cbn in Hin.
  destruct Hin as [<- | [<- | []]]; discriminate Hid.
Defined.

Lemma addToCart_spec_witness :
  (exists product,
     In product (products demo_shop) /\ id product = 2
     /\ cart (exec (addToCart 2) demo_shop)
        = (cart demo_shop ++ [mkCartItem product (of_Z 1)])%list
     /\ let s'' := exec (addToCart 2) (exec (addToCart 2) demo_shop) in
        cart s'' = (cart demo_shop ++ [mkCartItem product (of_Z 2)])%list
        /\ List.filter (fun item => item_id item =? 2) (cart s'')
           = [mkCartItem product (of_Z 2)])
  /\ requantified 3 (fun q => add q (of_Z 1)) (cart demo_shop)
       (cart (exec (addToCart 3) demo_shop)).
Proof.
  split.
  - exact (proj2 (proj2 (proj2 (proj2 (proj2 (addToCart_spec demo_shop 2)))))
             demo_shop_in_catalog_2 demo_shop_not_in_cart_2).
  - exact (proj1 (proj1 (proj2 (proj2 (proj2 (proj2
             (addToCart_spec demo_shop 3)))))
             demo_shop_in_catalog_3 demo_shop_in_cart_3)).
Defined.

Lemma filter_other_selection (productId : Z) (c : list CartItem) :
  selection (fun item => item_id item <> productId) c
    (List.filter (fun item => negb (item_id item =? productId)) c).
Proof.
  apply filter_selection. intros item.
  rewrite negb_true_iff, Z.eqb_neq. reflexivity.
Qed.

Lemma requantified_set (productId : Z) (q : number)
    (before after : list CartItem) :
  requantified productId (fun _ => q) before after ->
  forall item, In item after -> item_id item = productId -> quantity item = q.
Proof.
  unfold requantified. induction 1 as [| old new before after H _ IH];
    intros item Hin Hid; [destruct Hin |].
  destruct Hin as [<- | Hin]; [| now apply IH].
  destruct H as (Hfields & Hset & _). apply Hset.
  unfold item_id in *. now rewrite <- Hfields.
Qed.

(** C3. [updateCartItemQuantity(productId, quantity)]:
    - with [quantity <= 0] it does what [removeFromCart(productId)] does:
      afterwards no entry has that id, and the entries with other ids are
      all kept, in order;
    - otherwise, and so with every [quantity > 0], it keeps every entry in
      place and gives the entry with that id exactly the quantity asked for,
      whatever its size. *)
Theorem updateCartItemQuantity_spec (s : App) (productId : Z)
    (requested : number) :
  let s' := exec (updateCartItemQuantity productId requested) s in
  (leb requested (of_Z 0) = true ->
     updateCartItemQuantity productId requested s = removeFromCart productId s
     /\ ~ in_cart s' productId
     /\ selection (fun item => item_id item <> productId) (cart s) (cart s'))
  /\ (leb requested (of_Z 0) = false ->
     requantified productId (fun _ => requested) (cart s) (cart s')
     /\ (forall item, In item (cart s') -> item_id item = productId ->
         quantity item = requested)
     /\ s' = set_cart (cart s') s
     /\ alerts (updateCartItemQuantity productId requested) s = []
     /\ completion (updateCartItemQuantity productId requested) s = Normal tt)
  /\ (ltb (of_Z 0) requested = true -> leb requested (of_Z 0) = false).
Proof.
  cbv zeta. split; [| split]; intros Hq.
  - pose proof (updateCartItemQuantity_removes productId requested s Hq)
      as Hrun.
    unfold exec. rewrite Hrun, removeFromCart_run. cbn [fst snd].
    split; [reflexivity | split].
    + intros (item & Hin & Hid). cbn [cart set_cart] in Hin.
      apply filter_In in Hin as [_ Hne].
      apply negb_true_iff, Z.eqb_neq in Hne. contradiction.
    + apply filter_other_selection.
  - unfold exec, alerts, completion.
    rewrite (updateCartItemQuantity_run _ _ _ Hq). cbn [fst snd].
    assert (requantified productId (fun _ => requested) (cart s)
              (cart (set_cart
                 (map (fun item =>
                         if item_id item =? productId
                         then with_quantity item requested
                         else item) (cart s)) s))) as Hall
      by apply (map_requantified productId (fun _ => requested)).
    split; [exact Hall | split].
    + exact (requantified_set _ _ _ _ Hall).
    + repeat split.
  - now apply positive_not_le.
Qed.

Example updateCartItemQuantity_demo_zero :
  map (fun item => (item_id item, quantity item))
      (cart (exec (updateCartItemQuantity 3 (of_Z 0)) demo_shop))
  = [(4, of_Z 1)].
Proof. vm_compute. reflexivity. Qed.

Example updateCartItemQuantity_demo_negative :
  exec (updateCartItemQuantity 3 (of_Z (-5))) demo_shop
  = exec (removeFromCart 3) demo_shop.
Proof. vm_compute. reflexivity. Qed.

Example updateCartItemQuantity_demo_large :
  map (fun item => (item_id item, quantity item))
      (cart (exec (updateCartItemQuantity 3 (of_Z 1000000)) demo_shop))
  = [(3, of_Z 1000000); (4, of_Z 1)].
Proof. vm_compute. reflexivity. Qed.

(** A fraction and NaN are stored as they are; negative zero removes. *)
Example updateCartItemQuantity_demo_fraction :
  map (fun item => (item_id item, quantity item))
      (cart (exec (updateCartItemQuantity 3 (decimal 5 1)) demo_shop))
  = [(3, decimal 5 1); (4, of_Z 1)]
  /\ map (fun item => (item_id item, quantity item))
       (cart (exec (updateCartItemQuantity 3 S754_nan) demo_shop))
     = [(3, S754_nan); (4, of_Z 1)]
  /\ exec (updateCartItemQuantity 3 (S754_zero true)) demo_shop
     = exec (removeFromCart 3) demo_shop.
Proof. vm_compute. auto. Qed.

Lemma updateCartItemQuantity_spec_witness :
  (leb (of_Z (-5)) (of_Z 0) = true /\
   updateCartItemQuantity 3 (of_Z (-5)) demo_shop = removeFromCart 3 demo_shop
   /\ ~ in_cart (exec (updateCartItemQuantity 3 (of_Z (-5))) demo_shop) 3)
  /\ (ltb (of_Z 0) (of_Z 7) = true /\ leb (of_Z 7) (of_Z 0) = false /\
      forall item,
        In item (cart (exec (updateCartItemQuantity 3 (of_Z 7)) demo_shop)) ->
        item_id item = 3 -> quantity item = of_Z 7).
Proof.
  split.
  - assert (leb (of_Z (-5)) (of_Z 0) = true) as H by reflexivity.
    split; [exact H |].
    pose proof (proj1 (updateCartItemQuantity_spec demo_shop 3 (of_Z (-5))) H)
      as P.
    exact (conj (proj1 P) (proj1 (proj2 P))).
  - assert (ltb (of_Z 0) (of_Z 7) = true) as Hpos by reflexivity.
    pose proof (proj2 (proj2 (updateCartItemQuantity_spec demo_shop 3 (of_Z 7)))
                  Hpos) as H.
    split; [exact Hpos | split; [exact H |]].
    exact (proj1 (proj2
      (proj1 (proj2 (updateCartItemQuantity_spec demo_shop 3 (of_Z 7))) H))).
Defined.

(** C10. With a positive quantity and no cart entry for the id,
    [updateCartItemQuantity] leaves the component as it was: it inserts
    nothing. *)
Theorem updateCartItemQuantity_absent (s : App) (productId : Z)
    (requested : number) :
  ltb (of_Z 0) requested = true ->
  ~ in_cart s productId ->
  updateCartItemQuantity productId requested s = (Normal tt, s, [])
  /\ cart (exec (updateCartItemQuantity productId requested) s) = cart s.
Proof.
  intros Hq Hnot. apply positive_not_le in Hq.
  assert (updateCartItemQuantity productId requested s = (Normal tt, s, []))
    as Hrun.
  { rewrite (updateCartItemQuantity_run _ _ _ Hq), map_not_in_cart.
    - now rewrite set_cart_cart.
    - intros item Hin Hid. apply Hnot. now exists item. }
  split; [exact Hrun |]. unfold exec. now rewrite Hrun.
Qed.

Lemma demo_shop_not_in_cart_1 : ~ in_cart demo_shop 1.
Proof.
  intros (item & Hin & Hid). cbn in Hin.
  destruct Hin as [<- | [<- | []]]; discriminate Hid.
Defined.

Lemma updateCartItemQuantity_absent_witness :
  updateCartItemQuantity 1 (of_Z 4) demo_shop = (Normal tt, demo_shop, [])
  /\ cart (exec (updateCartItemQuantity 1 (of_Z 4)) demo_shop)
     = cart demo_shop.
Proof.
  apply (updateCartItemQuantity_absent demo_shop 1 (of_Z 4));
    [reflexivity | exact demo_shop_not_in_cart_1].
Defined.

(** ** Cart invariants *)

Lemma map_item_id_requantify (productId : Z) (f : number -> number)
    (c : list CartItem) :
  map item_id
    (map (fun item =>
            if item_id item =? productId
            then with_quantity item (f (quantity item))
            else item) c)
  = map item_id c.
Proof.
  rewrite map_map. apply map_ext. intros item.
  now destruct (item_id item =? productId).
Qed.

Lemma requantify_distinct (productId : Z) (f : number -> number)
    (c : list CartItem) :
  distinct_ids c ->
  distinct_ids
    (map (fun item =>
            if item_id item =? productId
            then with_quantity item (f (quantity item))
            else item) c).
Proof. unfold distinct_ids. now rewrite map_item_id_requantify. Qed.

Lemma requantify_invariant (productId : Z) (f : number -> number)
    (c : list CartItem) :
  (forall q, leb (of_Z 1) q = true -> leb (of_Z 1) (f q) = true) ->
  cart_invariant c ->
  cart_invariant
    (map (fun item =>
            if item_id item =? productId
            then with_quantity item (f (quantity item))
            else item) c).
Proof.
  intros Hf [Hq Hnodup]. split.
  - apply Forall_map. apply Forall_impl with (2 := Hq). intros item Hitem.
    destruct (item_id item =? productId); [now apply Hf | exact Hitem].
  - now apply requantify_distinct.
Qed.

Lemma NoDup_map_filter {A B} (g : A -> B) (f : A -> bool) (l : list A) :
  NoDup (map g l) -> NoDup (map g (List.filter f l)).
Proof.
  induction l as [| x l IH]; simpl; intros Hnodup; [constructor |].
  inversion Hnodup as [| y ys Hnotin Hrest]; subst.
  destruct (f x); simpl; [| now apply IH].
  constructor; [| now apply IH].
  intros Hin. apply Hnotin. apply in_map_iff in Hin as (z & Hz & Hin).
  apply filter_In in Hin as [Hin _]. apply in_map_iff. now exists z.
Qed.

Lemma filter_invariant (f : CartItem -> bool) (c : list CartItem) :
  cart_invariant c -> cart_invariant (List.filter f c).
Proof.
  intros [Hq Hnodup]. split.
  - apply Forall_forall. intros item Hin. apply filter_In in Hin as [Hin _].
    now apply (proj1 (Forall_forall _ _) Hq).
  - now apply NoDup_map_filter.
Qed.

Lemma append_distinct (product : Product) (q : number) (c : list CartItem) :
  (forall item, In item c -> item_id item <> id product) ->
  distinct_ids c -> distinct_ids (c ++ [mkCartItem product q]).
Proof.
  unfold distinct_ids. intros Hfresh Hnodup.
  rewrite map_app. cbn [map]. rewrite item_id_mk.
  apply NoDup_app.
  - exact Hnodup.
  - constructor; [intros [] | constructor].
  - intros x Hin [<- | []]. apply in_map_iff in Hin as (item & Hid & Hin).
    now apply (Hfresh item).
Qed.

Lemma append_invariant (product : Product) (c : list CartItem) :
  (forall item, In item c -> item_id item <> id product) ->
  cart_invariant c ->
  cart_invariant (c ++ [mkCartItem product (of_Z 1)]).
Proof.
  intros Hfresh [Hq Hnodup]. split.
  - apply Forall_app. split; [exact Hq |].
    constructor; [reflexivity | constructor].
  - now apply append_distinct.
Qed.

Lemma addToCart_keeps_distinct (s : App) (productId : Z) :
  distinct_ids (cart s) -> distinct_ids (cart (exec (addToCart productId) s)).
Proof.
  intros Hids. unfold exec. rewrite addToCart_run.
  destruct (find _ (products s)) as [product |] eqn:Ecat; [| exact Hids].
  apply find_some in Ecat as [_ Hid]. apply Z.eqb_eq in Hid.
  destruct (find _ (cart s)) as [existingItem |] eqn:Ecart; cbn [fst snd].
  - now apply (requantify_distinct productId (fun q => add q (of_Z 1))).
  - apply append_distinct; [| exact Hids].
    intros item Hin Heq. apply (find_none _ _ Ecart) in Hin.
    cbn beta in Hin. lia.
Qed.

Lemma addToCart_keeps_invariant (s : App) (productId : Z) :
  cart_invariant (cart s) ->
  cart_invariant (cart (exec (addToCart productId) s)).
Proof.
  intros Hinv. unfold exec. rewrite addToCart_run.
  destruct (find _ (products s)) as [product |] eqn:Ecat; [| exact Hinv].
  apply find_some in Ecat as [_ Hid]. apply Z.eqb_eq in Hid.
  destruct (find _ (cart s)) as [existingItem |] eqn:Ecart; cbn [fst snd].
  - apply (requantify_invariant productId (fun q => add q (of_Z 1)));
      [exact add_one_ge_one | exact Hinv].
  - apply append_invariant; [| exact Hinv].
    intros item Hin Heq. apply (find_none _ _ Ecart) in Hin.
    cbn beta in Hin. lia.
Qed.

Lemma removeFromCart_keeps_distinct (s : App) (productId : Z) :
  distinct_ids (cart s) ->
  distinct_ids (cart (exec (removeFromCart productId) s)).
Proof. intros Hids. now apply NoDup_map_filter. Qed.

Lemma removeFromCart_keeps_invariant (s : App) (productId : Z) :
  cart_invariant (cart s) ->
  cart_invariant (cart (exec (removeFromCart productId) s)).
Proof. intros Hinv. now apply filter_invariant. Qed.

Lemma updateCartItemQuantity_keeps_distinct (s : App) (productId : Z)
    (requested : number) :
  distinct_ids (cart s) ->
  distinct_ids (cart (exec (updateCartItemQuantity productId requested) s)).
Proof.
  intros Hids. unfold exec, updateCartItemQuantity.
  destruct (leb requested (of_Z 0)).
  - now apply NoDup_map_filter.
  - now apply (requantify_distinct productId (fun _ => requested)).
Qed.

Lemma updateCartItemQuantity_keeps_invariant (s : App) (productId : Z)
    (requested : number) :
  settled_request requested ->
  cart_invariant (cart s) ->
  cart_invariant (cart (exec (updateCartItemQuantity productId requested) s)).
Proof.
  intros Hsettled Hinv. unfold exec, updateCartItemQuantity.
  destruct (leb requested (of_Z 0)) eqn:Hle.
  - now apply filter_invariant.
  - destruct Hsettled as [Hzero | Hone]; [congruence |].
    apply (requantify_invariant productId (fun _ => requested));
      [intros _ _; exact Hone | exact Hinv].
Qed.

Lemma clearCart_keeps_invariant (s : App) :
  cart_invariant (cart (exec clearCart s)).
Proof. split; constructor. Qed.


Lemma demo_shop_invariant : cart_invariant (cart demo_shop).
Proof.
  split.
  - repeat constructor.
  - unfold distinct_ids. cbn. repeat constructor; cbn; intuition discriminate.
Defined.



(** The invariant holds of the empty cart a component starts with, hence
    after any sequence of cart operations that asks for no quantity
    strictly between 0 and 1. *)
Lemma cart_invariant_reachable (ops : list cart_operation) (s : App) :
  Forall settled_operation ops ->
  cart_invariant (cart s) ->
  cart_invariant (cart (fold_left (fun s op => exec (perform op) s) ops s)).
Proof.
  intros Hops. revert s.
  induction Hops as [| op ops Hop _ IH]; intros s Hinv; [exact Hinv |].
  cbn [fold_left]. apply IH. destruct op; cbn [perform].
  - now apply addToCart_keeps_invariant.
  - now apply removeFromCart_keeps_invariant.
  - now apply updateCartItemQuantity_keeps_invariant.
  - apply clearCart_keeps_invariant.
Qed.

Lemma cart_invariant_initial : cart_invariant (cart initial).
Proof. split; constructor. Qed.

(** ** Cart aggregates *)

Lemma quantities_sum_nonneg (c : list CartItem) (n : Z) :
  quantities_sum c n -> 0 <= n.
Proof.
  induction 1 as [| item k c n [_ Hk] _ IH]; lia.
Qed.

Lemma line_totals_sum_nonneg (c : list CartItem) (n : Z) :
  line_totals_sum c n -> 0 <= n.
Proof.
  induction 1 as [| item p k c n [_ Hp] [_ Hk] _ IH]; nia.
Qed.

(** Summing whole quantities from a whole number is exact below 2^53. *)
Lemma fold_quantities (c : list CartItem) (n : Z) :
  quantities_sum c n ->
  forall start, 0 <= start -> start + n < 2 ^ 53 ->
  fold_left (fun total item => add total (quantity item)) c (of_Z start)
  = of_Z (start + n).
Proof.
  induction 1 as [| item k c n [Hq Hk] Hrest IH]; intros start Hstart Hbound.
  - cbn [fold_left]. now rewrite Z.add_0_r.
  - pose proof (quantities_sum_nonneg c n Hrest) as Hn.
    cbn [fold_left]. rewrite Hq, add_whole by lia.
    rewrite IH by lia. f_equal. lia.
Qed.

(** Summing whole prices times whole quantities is exact below 2^53. *)
Lemma fold_line_totals (c : list CartItem) (n : Z) :
  line_totals_sum c n ->
  forall start, 0 <= start -> start + n < 2 ^ 53 ->
  fold_left
    (fun total item => add total (mul (item_price item) (quantity item)))
    c (of_Z start)
  = of_Z (start + n).
Proof.
  induction 1 as [| item p k c n [Hp Hpb] [Hq Hk] Hrest IH];
    intros start Hstart Hbound.
  - cbn [fold_left]. now rewrite Z.add_0_r.
  - pose proof (line_totals_sum_nonneg c n Hrest) as Hn.
    assert (0 <= p * k) as Hpk by nia.
    cbn [fold_left]. rewrite Hp, Hq, mul_whole by lia.
    rewrite add_whole by lia. rewrite IH by lia. f_equal. lia.
Qed.

Lemma cartCount_whole (s : App) (n : Z) :
  quantities_sum (cart s) n -> n < 2 ^ 53 -> cartCount s = of_Z n.
Proof.
  intros Hsum Hn. unfold cartCount.
  now rewrite (fold_quantities _ _ Hsum 0) by lia.
Qed.

Lemma cartTotal_whole (s : App) (n : Z) :
  line_totals_sum (cart s) n -> n < 2 ^ 53 -> cartTotal s = of_Z n.
Proof.
  intros Hsum Hn. unfold cartTotal.
  now rewrite (fold_line_totals _ _ Hsum 0) by lia.
Qed.

(** C5. The item count is the binary64 sum of the quantities taken in cart
    order, and the total is the binary64 sum, in cart order, of the rounded
    products of price and quantity: each is 0 for the empty cart and, for a
    cart with a last entry, the aggregate of the entries before it plus the
    contribution of the last; both are functions of the cart alone. They are
    the exact sums when the quantities (for the total: and the prices) are
    whole numbers that are not negative and the exact sum is below 2^53. For
    a cart of 2 items at 10 and 1 item at 5 the count is 3 and the total is
    25, printed as 25.00. *)
Theorem cart_aggregates (s : App) :
  (forall n, quantities_sum (cart s) n -> n < 2 ^ 53 -> cartCount s = of_Z n)
  /\ (forall n,
        line_totals_sum (cart s) n -> n < 2 ^ 53 -> cartTotal s = of_Z n)
  /\ (cart s = [] -> cartCount s = of_Z 0 /\ cartTotal s = of_Z 0)
  /\ (forall earlier last,
        cart s = (earlier ++ [last])%list ->
        cartCount s = add (cartCount (set_cart earlier s)) (quantity last)
        /\ cartTotal s
           = add (cartTotal (set_cart earlier s))
               (mul (item_price last) (quantity last)))
  /\ (forall s', cart s' = cart s ->
        cartCount s' = cartCount s /\ cartTotal s' = cartTotal s)
  /\ (forall first second,
        price first = of_Z 10 -> price second = of_Z 5 ->
        cart s = [mkCartItem first (of_Z 2); mkCartItem second (of_Z 1)] ->
        cartCount s = of_Z 3
        /\ cartTotal s = of_Z 25
        /\ reference_toFixed (cartTotal s) 2 = "25.00").
Proof.
  split; [exact (cartCount_whole s) | split; [exact (cartTotal_whole s) |]].
  split; [| split; [| split]].
  - intros Hempty. unfold cartCount, cartTotal. rewrite Hempty. now split.
  - intros earlier last Hcart. unfold cartCount, cartTotal.
    cbn [cart set_cart]. rewrite Hcart, !fold_left_app. now split.
  - intros s' Hcart. unfold cartCount, cartTotal. now rewrite Hcart.
  - intros first second Hfirst Hsecond Hcart.
    unfold cartCount, cartTotal. rewrite Hcart.
    cbn [fold_left quantity]. unfold item_price. cbn [product_fields].
    rewrite Hfirst, Hsecond. vm_compute. auto.
Qed.

Example cart_aggregates_demo :
  cartCount demo_shop = of_Z 3
  /\ cartTotal demo_shop = of_Z 25
  /\ reference_toFixed (cartTotal demo_shop) 2 = "25.00".
Proof. vm_compute. auto. Qed.

(** Addition of binary64 values rounds: the total of one item at 0.1 and
    one at 0.2 is the binary64 sum, which is not the value of the literal
    0.3. *)
Example cartTotal_rounds :
  let tenth := mkProduct 1 "a" (decimal 1 1) "" "" "" (mkRating (of_Z 0) 0) in
  let fifth := mkProduct 2 "b" (decimal 2 1) "" "" "" (mkRating (of_Z 0) 0) in
  let s := set_cart [mkCartItem tenth (of_Z 1); mkCartItem fifth (of_Z 1)]
             initial in
  cartTotal s = add (decimal 1 1) (decimal 2 1)
  /\ cartTotal s <> decimal 3 1
  /\ reference_toFixed (cartTotal s) 2 = "0.30".
Proof. vm_compute. repeat split. discriminate. Qed.

(** The quantities 2^53 and 1 are whole numbers with the sum 2^53 + 1; the
    item count of the cart is the whole number 2^53. *)
Lemma cartCount_inexact :
  map (fun item => integer_value (quantity item)) (cart demo_bulk_pair)
  = [Some (2 ^ 53); Some 1]
  /\ integer_value (cartCount demo_bulk_pair) = Some (2 ^ 53)
  /\ integer_value (cartCount demo_bulk_pair) <> Some (2 ^ 53 + 1).
Proof. vm_compute. repeat split. discriminate. Qed.

Lemma demo_shop_quantities : quantities_sum (cart demo_shop) 3.
Proof.
  apply (quantities_sum_cons _ 2 _ 1); [split; [reflexivity | lia] |].
  apply (quantities_sum_cons _ 1 _ 0); [split; [reflexivity | lia] |].
  constructor.
Defined.

Lemma demo_shop_line_totals : line_totals_sum (cart demo_shop) 25.
Proof.
  apply (line_totals_sum_cons _ 10 2 _ 5);
    [split; [reflexivity | lia] | split; [reflexivity | lia] |].
  apply (line_totals_sum_cons _ 5 1 _ 0);
    [split; [reflexivity | lia] | split; [reflexivity | lia] |].
  constructor.
Defined.

Lemma cart_aggregates_witness :
  cartCount demo_shop = of_Z 3
  /\ cartTotal demo_shop = of_Z 25
  /\ reference_toFixed (cartTotal demo_shop) 2 = "25.00".
Proof.
  pose proof (cart_aggregates demo_shop) as (Hcount & Htotal & _ & _ & _ & Hex).
  split; [apply Hcount; [exact demo_shop_quantities | lia] | split].
  - apply Htotal; [exact demo_shop_line_totals | lia].
  - exact (proj2 (proj2 (Hex demo_cable demo_lamp eq_refl eq_refl eq_refl))).
Defined.

(** ** Printing with two fraction digits *)

Lemma all_digits_app (a b : string) :
  all_digits (a ++ b) = all_digits a && all_digits b.
Proof.
  induction a as [| c a IH]; simpl; [reflexivity |].
  now rewrite IH, andb_assoc.
Qed.

Lemma all_digits_zeros (n : nat) : all_digits (repeat_string "0" n) = true.
Proof. induction n as [| n IH]; simpl; [reflexivity | exact IH]. Qed.

Lemma length_app (a b : string) :
  String.length (a ++ b) = (String.length a + String.length b)%nat.
Proof. induction a as [| c a IH]; simpl; [reflexivity | now rewrite IH]. Qed.

Lemma length_zeros (n : nat) : String.length (repeat_string "0" n) = n.
Proof. induction n as [| n IH]; simpl; [reflexivity | now rewrite IH]. Qed.

Lemma all_digits_uint (d : Decimal.uint) :
  all_digits (NilEmpty.string_of_uint d) = true.
Proof. induction d; simpl; auto. Qed.

Lemma Z_to_string_digits (n : Z) :
  0 <= n ->
  all_digits (Z_to_string n) = true /\ Z_to_string n <> "".
Proof.
  intros Hn. unfold Z_to_string.
  destruct n as [| p | p]; [split; [reflexivity | discriminate] | | lia].
  cbn [Z.to_int NilZero.string_of_int]. unfold NilZero.string_of_uint.
  pose proof (all_digits_uint (Pos.to_uint p)) as Hall.
  destruct (Pos.to_uint p); (split; [exact Hall || reflexivity | discriminate]).
Qed.

(** A string of [a + 2] characters splits into its first [a] characters and
    its last two. *)
Lemma split_last_two (t : string) (a : nat) :
  String.length t = (a + 2)%nat ->
  exists d1 d2,
    substring a 2 t = String d1 (String d2 "")
    /\ t = substring 0 a t ++ String d1 (String d2 "")
    /\ String.length (substring 0 a t) = a.
Proof.
  revert t. induction a as [| a IH]; intros t Hlen.
  - destruct t as [| d1 [| d2 [| d3 t]]]; try discriminate Hlen.
    exists d1, d2. now repeat split.
  - destruct t as [| c t]; [discriminate Hlen |].
    injection Hlen as Hlen. destruct (IH t Hlen) as (d1 & d2 & Hsub & Ht & Hl).
    exists d1, d2. cbn [substring]. rewrite Hsub.
    split; [reflexivity | split].
    + cbn [append]. now rewrite <- Ht.
    + cbn [String.length]. now rewrite Hl.
Qed.

Lemma toFixed_digits_two_places (n : Z) :
  0 <= n ->
  exists whole d1 d2,
    toFixed_digits n 2 = whole ++ "." ++ String d1 (String d2 "")
    /\ whole <> "" /\ all_digits whole = true
    /\ is_digit d1 = true /\ is_digit d2 = true.
Proof.
  intros Hn. destruct (Z_to_string_digits n Hn) as [Hdigits Hne].
  unfold toFixed_digits. cbv zeta. cbn [Nat.eqb].
  set (m := Z_to_string n) in *. set (k := String.length m).
  set (m' := if (k <=? 2)%nat then repeat_string "0" (2 + 1 - k) ++ m else m).
  assert (1 <= k)%nat as Hk.
  { unfold k. destruct m; [now elim Hne | simpl; lia]. }
  assert (String.length m' = (Nat.max k (2 + 1) - 2 + 2)%nat) as Hlen.
  { unfold m'. destruct (Nat.leb_spec k 2).
    - rewrite length_app, length_zeros. fold k. lia.
    - fold k. lia. }
  assert (all_digits m' = true) as Hall.
  { unfold m'. destruct (k <=? 2)%nat; [| exact Hdigits].
    now rewrite all_digits_app, all_digits_zeros. }
  destruct (split_last_two m' _ Hlen) as (d1 & d2 & Hsub & Hm' & Hl).
  exists (substring 0 (Nat.max k (2 + 1) - 2) m'), d1, d2.
  rewrite Hsub. rewrite Hm', all_digits_app in Hall.
  apply andb_true_iff in Hall as [Hwhole Hfrac]. cbn in Hfrac.
  apply andb_true_iff in Hfrac as [Hd1 Hd2].
  rewrite andb_true_r in Hd2.
  split; [reflexivity | split; [| auto]].
  intros Hempty. rewrite Hempty in Hl. cbn in Hl. lia.
Qed.

Lemma round_scaled_nonneg (m : positive) (e k : Z) :
  0 <= k -> 0 <= round_scaled m e k.
Proof.
  intros Hk. unfold round_scaled. destruct (Z.leb_spec 0 e).
  - apply Z.mul_nonneg_nonneg; [| exact Hk].
    apply Z.mul_nonneg_nonneg; [lia | apply Z.pow_nonneg; lia].
  - assert (0 < 2 ^ (- e)) by (apply Z.pow_pos_nonneg; lia).
    apply Z.div_pos; nia.
Qed.

(** A number in positional range is printed with two fraction digits. *)
Lemma reference_toFixed_two_places (x : number) :
  positional x = true -> two_decimal_places (reference_toFixed x 2).
Proof.
  intros Hrange. unfold two_decimal_places, reference_toFixed.
  destruct x as [sign | sign | | sign m e]; try discriminate Hrange.
  - exists "", "0", "0"%char, "0"%char. now repeat split; auto.
  - destruct (toFixed_digits_two_places (round_scaled m e (10 ^ Z.of_nat 2)))
      as (whole & d1 & d2 & Hprint & Hne & Hwhole & Hd1 & Hd2).
    { apply round_scaled_nonneg. cbn. lia. }
    exists (if sign then "-" else ""), whole, d1, d2. rewrite Hprint.
    repeat split; auto. destruct sign; auto.
Qed.

(** ** Checkout *)

Section Checkout.

Variable toFixed : number -> nat -> string.
Variable Number_toString : number -> string.

Lemma checkout_run (s : App) :
  checkout toFixed Number_toString s =
  match cart s with
  | [] => (Normal tt, s, [])
  | _ :: _ =>
      (Normal tt, set_cart [] s,
       ["Checkout successful!" ++ nl ++ "Total: " ++ toFixed (cartTotal s) 2
        ++ nl ++ "Items: " ++ Number_toString (cartCount s)])
  end.
Proof.
  unfold checkout. run_method. destruct (cart s); reflexivity.
Qed.

(** C6. [checkout()] on an empty cart shows nothing and leaves the component
    as it was. On a non-empty cart it shows one message, which contains the
    total printed by [toFixed(2)] and the item count, and leaves the
    component with an empty cart and every other signal as it was. Where
    [toFixed] prints the total as Number.prototype.toFixed does in its
    positional range, the printed total is digits, a point and two digits. *)
Theorem checkout_spec (s : App) :
  let s' := exec (checkout toFixed Number_toString) s in
  completion (checkout toFixed Number_toString) s = Normal tt
  /\ (cart s = [] ->
      alerts (checkout toFixed Number_toString) s = [] /\ s' = s)
  /\ (cart s <> [] ->
      cart s' = []
      /\ s' = set_cart [] s
      /\ exists message,
           alerts (checkout toFixed Number_toString) s = [message]
           /\ message = "Checkout successful!" ++ nl ++ "Total: "
                        ++ toFixed (cartTotal s) 2 ++ nl ++ "Items: "
                        ++ Number_toString (cartCount s)
           /\ occurs_in (toFixed (cartTotal s) 2) message
           /\ occurs_in (Number_toString (cartCount s)) message
           /\ (positional (cartTotal s) = true ->
               toFixed (cartTotal s) 2 = reference_toFixed (cartTotal s) 2 ->
               two_decimal_places (toFixed (cartTotal s) 2))).
Proof.
  cbv zeta. unfold completion, exec, alerts. rewrite checkout_run.
  destruct (cart s) as [| item rest] eqn:Ecart; cbn [fst snd].
  - split; [reflexivity | split].
    + intros _. now split.
    + intros Hne. now elim Hne.
  - split; [reflexivity | split].
    + intros Hnil. discriminate Hnil.
    + intros _. split; [reflexivity | split; [reflexivity |]].
      eexists. split; [reflexivity | split; [reflexivity | split; [| split]]].
      * exists ("Checkout successful!" ++ nl ++ "Total: "),
          (nl ++ "Items: " ++ Number_toString (cartCount s)).
        now rewrite !append_assoc.
      * exists ("Checkout successful!" ++ nl ++ "Total: "
                ++ toFixed (cartTotal s) 2 ++ nl ++ "Items: "), "".
        now rewrite append_nil_r, !append_assoc.
      * intros Hrange ->. now apply reference_toFixed_two_places.
Qed.

End Checkout.

Example checkout_demo :
  checkout reference_toFixed reference_toString demo_shop =
  (Normal tt, set_cart [] demo_shop,
   ["Checkout successful!" ++ nl ++ "Total: 25.00" ++ nl ++ "Items: 3"]).
Proof. vm_compute. reflexivity. Qed.

Example checkout_demo_empty :
  checkout reference_toFixed reference_toString
    (set_products demo_catalog initial)
  = (Normal tt, set_products demo_catalog initial, []).
Proof. vm_compute. reflexivity. Qed.

Lemma demo_shop_cart_nonempty : cart demo_shop <> [].
Proof. discriminate. Defined.

Lemma checkout_spec_witness :
  cart (exec (checkout reference_toFixed reference_toString) demo_shop) = []
  /\ exists message,
       alerts (checkout reference_toFixed reference_toString) demo_shop
       = [message]
       /\ occurs_in "25.00" message /\ occurs_in "3" message
       /\ two_decimal_places (reference_toFixed (cartTotal demo_shop) 2).
Proof.
  destruct (proj2 (proj2 (checkout_spec reference_toFixed reference_toString
                            demo_shop))
              demo_shop_cart_nonempty)
    as (Hempty & _ & message & Halert & _ & Htotal & Hcount & Hplaces).
  split; [exact Hempty |]. exists message.
  split; [exact Halert | split; [exact Htotal | split; [exact Hcount |]]].
  exact (Hplaces eq_refl eq_refl).
Defined.

(** ** Data fetcher *)

Lemma loadProducts_run (fetched : Response Product) (s : App) :
  loadProducts fetched s =
  match fetched with
  | Resolved (Some (first :: rest)) =>
      (Normal tt,
       set_isLoading false
         (set_products (first :: rest)
            (set_showApiWarning false (set_isLoading true s))), [])
  | _ =>
      (Normal tt,
       set_isLoading false
         (set_showApiWarning true
            (set_products sampleProducts
               (set_showApiWarning false (set_isLoading true s)))), [])
  end.
Proof.
  unfold loadProducts. run_method.
  destruct fetched as [failure | [[| first rest] |]]; reflexivity.
Qed.

Lemma loadCategories_run (fetched : Response string) (s : App) :
  loadCategories fetched s =
  match fetched with
  | Resolved (Some (first :: rest)) =>
      (Normal tt, set_categories (first :: rest) s, [])
  | _ => (Normal tt, set_categories sampleCategories s, [])
  end.
Proof.
  unfold loadCategories. run_method.
  destruct fetched as [failure | [[| first rest] |]]; reflexivity.
Qed.

(** C7. When the products request fails or delivers an empty list,
    [loadProducts] ends normally with the product collection equal to the
    fallback dataset and the advisory flag set. When the categories request
    fails or delivers an empty list, [loadCategories] ends normally with the
    fallback categories and changes nothing else: the advisory flag keeps
    its value. *)
Theorem fallback_on_no_data (s : App) :
  (forall fetched : Response Product,
     no_data fetched ->
     let s' := exec (loadProducts fetched) s in
     completion (loadProducts fetched) s = Normal tt
     /\ products s' = sampleProducts
     /\ showApiWarning s' = true
     /\ isLoading s' = false)
  /\ (forall fetched : Response string,
     no_data fetched ->
     let s' := exec (loadCategories fetched) s in
     completion (loadCategories fetched) s = Normal tt
     /\ categories s' = sampleCategories
     /\ showApiWarning s' = showApiWarning s
     /\ s' = set_categories sampleCategories s).
Proof.
  split; intros fetched Hfail; cbv zeta; unfold completion, exec.
  - rewrite loadProducts_run.
    destruct fetched as [failure | [[| first rest] |]];
      cbn [fst snd]; solve [now repeat split | destruct Hfail].
  - rewrite loadCategories_run.
    destruct fetched as [failure | [[| first rest] |]];
      cbn [fst snd]; solve [now repeat split | destruct Hfail].
Qed.

(** A request that delivers a non-empty list replaces the collection and
    leaves the advisory flag cleared. *)
Lemma loadProducts_success (s : App) (first : Product) (rest : list Product) :
  let s' := exec (loadProducts (Resolved (Some (first :: rest)))) s in
  products s' = first :: rest /\ showApiWarning s' = false
  /\ isLoading s' = false.
Proof. cbv zeta. unfold exec. rewrite loadProducts_run. now repeat split. Qed.

Example loadProducts_demo_network :
  let s' := exec (loadProducts (Rejected NetworkFailure)) demo_shop in
  products s' = sampleProducts /\ showApiWarning s' = true.
Proof. vm_compute. auto. Qed.

Example loadProducts_demo_status :
  let s' := exec (loadProducts (Rejected (BadStatus 503))) demo_shop in
  products s' = sampleProducts /\ showApiWarning s' = true.
Proof. vm_compute. auto. Qed.

Example loadCategories_demo_malformed :
  let s' := exec (loadCategories (Rejected MalformedPayload)) demo_shop in
  categories s' = sampleCategories /\ showApiWarning s' = false.
Proof. vm_compute. auto. Qed.

Lemma fallback_on_no_data_witness :
  products (exec (loadProducts (Resolved (Some []))) demo_shop) = sampleProducts
  /\ showApiWarning (exec (loadProducts (Resolved (Some []))) demo_shop) = true
  /\ categories (exec (loadCategories (Rejected NetworkFailure)) demo_shop)
     = sampleCategories
  /\ showApiWarning (exec (loadCategories (Rejected NetworkFailure)) demo_shop)
     = showApiWarning demo_shop.
Proof.
  destruct (proj1 (fallback_on_no_data demo_shop) (Resolved (Some [])) I)
    as (_ & Hproducts & Hflag & _).
  destruct (proj2 (fallback_on_no_data demo_shop) (Rejected NetworkFailure) I)
    as (_ & Hcategories & Hsame & _).
  exact (conj Hproducts (conj Hflag (conj Hcategories Hsame))).
Defined.

(** ** Star rendering *)

Lemma repeat_string_snoc (marker : string) (k : nat) :
  repeat_string marker k ++ marker = marker ++ repeat_string marker k.
Proof.
  induction k as [| k IH]; cbn [repeat_string].
  - now rewrite append_nil_r.
  - now rewrite append_assoc, IH.
Qed.

Lemma for_upto_repeat (n : Z) (marker stars : string) :
  for_upto n marker stars = stars ++ repeat_string marker (Z.to_nat n).
Proof.
  unfold for_upto. induction (Z.to_nat n) as [| k IH].
  - cbn. now rewrite append_nil_r.
  - rewrite Nat.iter_succ, IH, append_assoc, repeat_string_snoc.
    reflexivity.
Qed.

Lemma rem1_nonneg (x : Q) : (0 <= x)%Q -> rem1 x = (x - inject_Z (Qfloor x))%Q.
Proof.
  intros Hx. unfold rem1, Qtrunc.
  now rewrite (proj2 (Qle_bool_iff 0 x) Hx).
Qed.

(** C8. For a rating between 0 and 5 the rendering consists of
    [floor rating] full markers, then one half marker exactly when the
    fractional part of the rating is at least 0.5, then empty markers, five
    markers in all. A rating of 3.5 gives 3 full, 1 half and 1 empty marker;
    a rating of 5 gives 5 full markers. *)
Theorem generateStars_spec (rating : Q) :
  (0 <= rating)%Q -> (rating <= 5)%Q ->
  (exists full half empty : nat,
     generateStars rating = markers full half empty
     /\ Z.of_nat full = Qfloor rating
     /\ (half = 1%nat <-> (1 # 2 <= rating - inject_Z (Qfloor rating))%Q)
     /\ (half = 0%nat <-> ~ (1 # 2 <= rating - inject_Z (Qfloor rating))%Q)
     /\ (full + half + empty = 5)%nat)
  /\ generateStars (7 # 2) = markers 3 1 1
  /\ generateStars 5 = markers 5 0 0.
Proof.
  intros Hlo Hhi. split; [| split; reflexivity].
  assert (0 <= Qfloor rating) as Hfloor0.
  { change 0 with (Qfloor 0). now apply Qfloor_resp_le. }
  assert (Qfloor rating <= 5) as Hfloor5.
  { change 5 with (Qfloor 5). now apply Qfloor_resp_le. }
  unfold generateStars. cbv zeta. rewrite (rem1_nonneg rating Hlo).
  rewrite !for_upto_repeat. cbn [append].
  destruct (Qle_bool (1 # 2) (rating - inject_Z (Qfloor rating))) eqn:Ehalf.
  - apply Qle_bool_iff in Ehalf.
    assert (Qfloor rating <= 4) as Hfloor4.
    { assert (inject_Z (Qfloor rating) <= 9 # 2)%Q as Hle.
      { apply Qplus_le_l with (z := (1 # 2)%Q).
        apply Qle_trans with rating; [| now apply Qle_trans with 5%Q].
        apply Qplus_le_l with (z := (- inject_Z (Qfloor rating))%Q).
        ring_simplify. ring_simplify in Ehalf.
        eapply Qle_trans; [exact Ehalf |]. apply Qle_lteq. right. ring. }
      apply Qfloor_resp_le in Hle. rewrite Qfloor_Z in Hle. exact Hle. }
    exists (Z.to_nat (Qfloor rating)), 1%nat,
      (Z.to_nat (5 - Qfloor rating - 1)).
    split; [| split; [lia | split; [tauto | split; [| lia]]]].
    + unfold markers. cbn [repeat_string]. rewrite append_nil_r.
      now rewrite append_assoc.
    + split; [discriminate | intros Hno; now elim Hno].
  - assert (~ (1 # 2 <= rating - inject_Z (Qfloor rating))%Q) as Hno.
    { intros H. apply Qle_bool_iff in H. congruence. }
    exists (Z.to_nat (Qfloor rating)), 0%nat,
      (Z.to_nat (5 - Qfloor rating - 0)).
    split; [| split; [lia | split; [| split; [tauto | lia]]]].
    + unfold markers. reflexivity.
    + split; [discriminate | intros H; now elim Hno].
Qed.

(** The rating of the sample product, 4.5, through its exact value. *)
Example generateStars_sample :
  option_map generateStars
    (value_of (rate (rating (hd demo_lamp sampleProducts))))
  = Some (markers 4 1 0).
Proof. vm_compute. reflexivity. Qed.

Example generateStars_out_of_range :
  generateStars (11 # 2) = markers 5 1 0 /\ generateStars 6 = markers 6 0 0.
Proof. split; reflexivity. Qed.

Lemma generateStars_spec_witness :
  (0 <= 9 # 2)%Q /\ (9 # 2 <= 5)%Q /\
  exists full half empty : nat,
    generateStars (9 # 2) = markers full half empty
    /\ Z.of_nat full = Qfloor (9 # 2)
    /\ (full + half + empty = 5)%nat.
Proof.
  assert (0 <= 9 # 2)%Q as Hlo by (unfold Qle; simpl; lia).
  assert (9 # 2 <= 5)%Q as Hhi by (unfold Qle; simpl; lia).
  split; [exact Hlo | split; [exact Hhi |]].
  destruct (proj1 (generateStars_spec (9 # 2) Hlo Hhi))
    as (full & half & empty & Hrender & Hfull & _ & _ & Htotal).
  exists full, half, empty. exact (conj Hrender (conj Hfull Htotal)).
Defined.

(** ** Featured product *)

Lemma element_at_In {A} (arr : list A) (i : number) (k : Z) :
  integer_value i = Some k -> 0 <= k < Z.of_nat (List.length arr) ->
  exists x, element_at arr i = Some x /\ In x arr.
Proof.
  intros Hi [Hlo Hhi]. unfold element_at. rewrite Hi.
  destruct (Z.ltb_spec k 0); [lia |].
  destruct (nth_error arr (Z.to_nat k)) as [x |] eqn:E.
  - exists x. split; [reflexivity |]. now apply nth_error_In with (Z.to_nat k).
  - apply nth_error_None in E. lia.
Qed.

(** The index that [Math.floor(Math.random() * n)] gives for an array of
    [n >= 1] elements is a whole number from 0 to [n - 1], whatever the
    rounding of the product. *)
Lemma random_index_range (random : number) (n : Z) :
  random_value random -> 1 <= n < 2 ^ 53 ->
  exists k,
    0 <= k < n
    /\ integer_value (Math_floor (mul random (of_Z n))) = Some k.
Proof.
  intros (Hvalid & Hlo & Hhi) Hn.
  destruct (floor_mul_below random n Hvalid Hlo Hhi Hn) as (k & Hk & Hwhole).
  exists k. split; [exact Hk |].
  apply whole_integer_value; [lia | exact Hwhole].
Qed.

Lemma loadFeaturedProduct_run (random : number) (s : App) :
  loadFeaturedProduct random s =
  match products s with
  | [] => (Normal tt, s, [])
  | _ :: _ =>
      (Normal tt,
       set_featuredProduct
         (element_at (products s)
            (Math_floor
               (mul random (of_Z (Z.of_nat (List.length (products s)))))))
         s, [])
  end.
Proof.
  unfold loadFeaturedProduct. run_method. destruct (products s); reflexivity.
Qed.

Lemma loadFeaturedProduct_picks (s : App) (random : number) :
  random_value random -> Z.of_nat (List.length (products s)) < 2 ^ 53 ->
  products s <> [] ->
  exists product,
    In product (products s)
    /\ exec (loadFeaturedProduct random) s
       = set_featuredProduct (Some product) s.
Proof.
  intros Hrandom Hlen Hne. unfold exec. rewrite loadFeaturedProduct_run.
  destruct (products s) as [| first rest] eqn:Ecat; [now elim Hne |].
  set (n := Z.of_nat (List.length (first :: rest))) in *.
  assert (1 <= n < 2 ^ 53) as Hn
    by (split; [unfold n; cbn [List.length]; lia | exact Hlen]).
  destruct (random_index_range random n Hrandom Hn) as (k & Hk & Hindex).
  destruct (element_at_In (first :: rest) _ k Hindex Hk)
    as (product & Hat & Hin).
  exists product. cbn [fst snd]. rewrite Hat. now split.
Qed.

(** C9. Given a value of [Math.random()], a binary64 value in [0, 1), and a
    catalog of fewer than 2^53 products (an array has fewer than 2^32
    elements): with an empty catalog [loadFeaturedProduct] picks nothing and
    leaves the component as it was, so that a component without a featured
    product still has none; with a non-empty catalog it sets the featured
    product to a member of the catalog and changes nothing else. *)
Theorem loadFeaturedProduct_spec (s : App) (random : number) :
  random_value random -> Z.of_nat (List.length (products s)) < 2 ^ 53 ->
  let s' := exec (loadFeaturedProduct random) s in
  completion (loadFeaturedProduct random) s = Normal tt
  /\ (products s = [] ->
      s' = s /\ (featuredProduct s = None -> featuredProduct s' = None))
  /\ (products s <> [] ->
      exists product,
        featuredProduct s' = Some product
        /\ In product (products s)
        /\ s' = set_featuredProduct (Some product) s).
Proof.
  intros Hrandom Hlen. cbv zeta. split; [| split].
  - unfold completion. rewrite loadFeaturedProduct_run.
    now destruct (products s).
  - intros Hempty. unfold exec. rewrite loadFeaturedProduct_run, Hempty.
    cbn [fst snd]. now split.
  - intros Hne.
    destruct (loadFeaturedProduct_picks s random Hrandom Hlen Hne)
      as (product & Hin & ->).
    exists product. now repeat split.
Qed.

Lemma random_value_seven_tenths : random_value (decimal 7 1).
Proof. repeat split. Defined.

Lemma random_value_zero : random_value (of_Z 0).
Proof. repeat split. Defined.

Lemma loadFeaturedProduct_spec_witness :
  random_value (decimal 7 1)
  /\ Z.of_nat (List.length (products demo_shop)) < 2 ^ 53
  /\ exists product,
       featuredProduct (exec (loadFeaturedProduct (decimal 7 1)) demo_shop)
       = Some product
       /\ In product (products demo_shop).
Proof.
  assert (Z.of_nat (List.length (products demo_shop)) < 2 ^ 53) as Hlen
    by reflexivity.
  split; [exact random_value_seven_tenths | split; [exact Hlen |]].
  assert (products demo_shop <> []) as Hne by discriminate.
  destruct (proj2 (proj2 (loadFeaturedProduct_spec demo_shop (decimal 7 1)
                            random_value_seven_tenths Hlen))
              Hne) as (product & Hfeatured & Hin & _).
  exists product. exact (conj Hfeatured Hin).
Defined.

Example loadFeaturedProduct_demo :
  featuredProduct (exec (loadFeaturedProduct (decimal 7 1)) demo_shop)
  = Some demo_cable.
Proof. vm_compute. reflexivity. Qed.

Example loadFeaturedProduct_demo_empty :
  exec (loadFeaturedProduct (decimal 7 1)) initial = initial.
Proof. vm_compute. reflexivity. Qed.

(** The binary64 product of 0.7 and 10 is 7, although the exact product of
    the binary64 value of 0.7 and 10 is below 7: with ten products the
    random number 0.7 picks the product at index 7. *)
Example loadFeaturedProduct_demo_rounding :
  mul (decimal 7 1) (of_Z 10) = of_Z 7
  /\ option_map (fun x => Qle_bool 7 (x * 10)) (value_of (decimal 7 1))
     = Some false
  /\ option_map id
       (featuredProduct (exec (loadFeaturedProduct (decimal 7 1)) demo_ten))
     = Some 7.
Proof. vm_compute. auto. Qed.

(** ** Start-up *)

Lemma exec_bind {A B} (m : M A) (k : A -> M B) (s : App) (a : A) :
  completion m s = Normal a -> exec (bind m k) s = exec (k a) (exec m s).
Proof.
  unfold completion, exec, bind. destruct (m s) as [[r s1] out1].
  cbn [fst snd]. intros ->. now destruct (k a s1) as [[r2 s2] out2].
Qed.

Lemma loadProducts_completes (fetched : Response Product) (s : App) :
  completion (loadProducts fetched) s = Normal tt
  /\ products (exec (loadProducts fetched) s) <> [].
Proof.
  unfold completion, exec. rewrite loadProducts_run.
  destruct fetched as [failure | [[| first rest] |]]; now split.
Qed.

Lemma loadCategories_completes (fetched : Response string) (s : App) :
  completion (loadCategories fetched) s = Normal tt
  /\ products (exec (loadCategories fetched) s) = products s.
Proof.
  unfold completion, exec. rewrite loadCategories_run.
  destruct fetched as [failure | [[| first rest] |]]; now split.
Qed.

Lemma loadProducts_sized (fetched : Response Product) (s : App) :
  array_sized fetched ->
  Z.of_nat (List.length (products (exec (loadProducts fetched) s))) < 2 ^ 53.
Proof.
  intros Hsized. unfold exec. rewrite loadProducts_run.
  destruct fetched as [failure | [[| first rest] |]]; cbn [fst snd];
    try reflexivity.
  exact Hsized.
Qed.

(** After start-up the catalog is not empty (a request that delivers nothing
    is replaced by the fallback dataset), so a featured product is always
    picked, and it is a member of the catalog. *)
Lemma ngOnInit_featured (fetchedProducts : Response Product)
    (fetchedCategories : Response string) (random : number) (s : App) :
  random_value random -> array_sized fetchedProducts ->
  let s' := exec (ngOnInit fetchedProducts fetchedCategories random) s in
  products s' <> []
  /\ exists product,
       featuredProduct s' = Some product /\ In product (products s').
Proof.
  intros Hrandom Hsized. cbv zeta. unfold ngOnInit.
  destruct (loadProducts_completes fetchedProducts s) as [Hdone1 Hne].
  pose proof (loadProducts_sized fetchedProducts s Hsized) as Hlen.
  rewrite (exec_bind _ _ _ _ Hdone1).
  set (s1 := exec (loadProducts fetchedProducts) s) in *.
  destruct (loadCategories_completes fetchedCategories s1) as [Hdone2 Hsame].
  rewrite (exec_bind _ _ _ _ Hdone2).
  set (s2 := exec (loadCategories fetchedCategories) s1) in *.
  rewrite <- Hsame in Hne, Hlen.
  destruct (loadFeaturedProduct_picks s2 random Hrandom Hlen Hne)
    as (product & Hin & ->).
  split; [exact Hne |]. exists product. now split.
Qed.

(** * Further properties *)

(** ** Removing from the cart *)

Lemma filter_other_identity (productId : Z) (c : list CartItem) :
  (forall item, In item c -> item_id item <> productId) ->
  List.filter (fun item => negb (item_id item =? productId)) c = c.
Proof.
  induction c as [| item c IH]; intros Hno; simpl; [reflexivity |].
  destruct (Z.eqb_spec (item_id item) productId) as [Heq | _]; simpl.
  - elim (Hno item (or_introl eq_refl) Heq).
  - f_equal. apply IH. intros i Hi. apply Hno. now right.
Qed.

Lemma filter_other_none (productId : Z) (c : list CartItem) :
  forall item,
    In item (List.filter (fun item => negb (item_id item =? productId)) c) ->
    item_id item <> productId.
Proof.
  intros item Hin. apply filter_In in Hin as [_ Hne].
  now apply negb_true_iff, Z.eqb_neq in Hne.
Qed.

Lemma filter_length_le {A} (f : A -> bool) (l : list A) :
  (List.length (List.filter f l) <= List.length l)%nat.
Proof.
  induction l as [| x l IH]; simpl; [lia |]. destruct (f x); simpl; lia.
Qed.

(** X1. [removeFromCart(productId)] never throws and shows nothing; it keeps,
    in order, exactly the entries with another id, so that no entry with the
    id is left and the cart never grows; with no entry for the id it leaves
    the component as it was; and a second call changes nothing more. *)
Theorem removeFromCart_spec (s : App) (productId : Z) :
  let s' := exec (removeFromCart productId) s in
  completion (removeFromCart productId) s = Normal tt
  /\ alerts (removeFromCart productId) s = []
  /\ s' = set_cart (cart s') s
  /\ selection (fun item => item_id item <> productId) (cart s) (cart s')
  /\ ~ in_cart s' productId
  /\ (List.length (cart s') <= List.length (cart s))%nat
  /\ (~ in_cart s productId -> s' = s)
  /\ exec (removeFromCart productId) s' = s'.
Proof.
  cbv zeta. unfold completion, exec, alerts. rewrite !removeFromCart_run.
  cbn [fst snd cart set_cart].
  split; [reflexivity | split; [reflexivity | split; [reflexivity |]]].
  split; [apply filter_other_selection | split; [| split; [| split]]].
  - intros (item & Hin & Hid). cbn [cart set_cart] in Hin.
    now apply filter_other_none in Hin.
  - apply filter_length_le.
  - intros Hnot. rewrite filter_other_identity; [apply set_cart_cart |].
    intros item Hin Hid. apply Hnot. now exists item.
  - unfold set_cart at 1. cbn [products categories cart currentFilter
      searchQuery featuredProduct isLoading showApiWarning set_cart].
    rewrite filter_other_identity; [reflexivity |].
    apply filter_other_none.
Qed.

Example removeFromCart_demo :
  map item_id (cart (exec (removeFromCart 3) demo_shop)) = [4]
  /\ exec (removeFromCart 99) demo_shop = demo_shop.
Proof. vm_compute. auto. Qed.

(** ** The item count under the cart operations *)

Lemma NoDup_ids_tail (item : CartItem) (c : list CartItem) :
  distinct_ids (item :: c) ->
  distinct_ids c
  /\ forall other, In other c -> item_id other <> item_id item.
Proof.
  unfold distinct_ids. cbn [map]. intros Hnodup.
  inversion Hnodup as [| x xs Hnotin Hrest]; subst. split; [exact Hrest |].
  intros other Hin Heq. apply Hnotin. rewrite <- Heq. now apply in_map.
Qed.

Lemma whole_quantity_unique (item : CartItem) (k k' : Z) :
  whole_quantity item k -> whole_quantity item k' -> k = k'.
Proof.
  intros [Hq Hk] [Hq' Hk']. apply of_Z_inj; [lia | lia | congruence].
Qed.

Lemma quantities_sum_In (c : list CartItem) (n : Z) (entry : CartItem) :
  quantities_sum c n -> In entry c ->
  exists k, whole_quantity entry k /\ k <= n.
Proof.
  induction 1 as [| item k c n Hitem Hrest IH]; intros Hin; [destruct Hin |].
  pose proof (quantities_sum_nonneg c n Hrest) as Hn.
  destruct Hin as [<- | Hin].
  - exists k. split; [exact Hitem | lia].
  - destruct (IH Hin) as (k' & Hentry & Hle). exists k'.
    split; [exact Hentry |]. destruct Hitem as [_ Hk]. lia.
Qed.

Lemma quantities_sum_app (c c' : list CartItem) (n n' : Z) :
  quantities_sum c n -> quantities_sum c' n' ->
  quantities_sum (c ++ c') (n + n').
Proof.
  induction 1 as [| item k c n Hitem _ IH]; intros Hc'; [exact Hc' |].
  cbn [app]. rewrite <- Z.add_assoc. constructor; [exact Hitem | now apply IH].
Qed.

Lemma quantities_sum_eq (c : list CartItem) (n n' : Z) :
  quantities_sum c n -> n = n' -> quantities_sum c n'.
Proof. now intros H <-. Qed.

(** Replacing the quantity of the one entry with the id. *)
Lemma quantities_sum_requantify (productId : Z) (f : number -> number)
    (c : list CartItem) (n : Z) (entry : CartItem) (k k' : Z) :
  distinct_ids c -> quantities_sum c n ->
  In entry c -> item_id entry = productId -> whole_quantity entry k ->
  f (quantity entry) = of_Z k' -> 0 <= k' < 2 ^ 53 ->
  quantities_sum
    (map (fun item =>
            if item_id item =? productId
            then with_quantity item (f (quantity item))
            else item) c)
    (n - k + k').
Proof.
  intros Hids Hsum. revert Hids.
  induction Hsum as [| item k0 c n Hitem Hrest IH];
    intros Hids Hin Hid Hentry Hf Hk'; [destruct Hin |].
  apply NoDup_ids_tail in Hids as [Hids Hfresh]. cbn [map].
  destruct Hin as [-> | Hin].
  - rewrite Hid, Z.eqb_refl.
    rewrite (map_not_in_cart productId
               (fun item => with_quantity item (f (quantity item)))).
    + rewrite (whole_quantity_unique _ _ _ Hitem Hentry).
      apply quantities_sum_eq with (k' + n); [| lia].
      constructor; [| exact Hrest]. split; [exact Hf | exact Hk'].
    + intros other Hother. rewrite <- Hid. now apply Hfresh.
  - destruct (Z.eqb_spec (item_id item) productId) as [Heq | _].
    + elim (Hfresh entry Hin). congruence.
    + apply quantities_sum_eq with (k0 + (n - k + k')); [| lia].
      constructor; [exact Hitem | now apply IH].
Qed.

Lemma quantities_sum_remove (productId : Z) (c : list CartItem) (n : Z)
    (entry : CartItem) (k : Z) :
  distinct_ids c -> quantities_sum c n ->
  In entry c -> item_id entry = productId -> whole_quantity entry k ->
  quantities_sum
    (List.filter (fun item => negb (item_id item =? productId)) c) (n - k).
Proof.
  intros Hids Hsum. revert Hids.
  induction Hsum as [| item k0 c n Hitem Hrest IH];
    intros Hids Hin Hid Hentry; [destruct Hin |].
  apply NoDup_ids_tail in Hids as [Hids Hfresh]. cbn [List.filter].
  destruct Hin as [-> | Hin].
  - rewrite Hid, Z.eqb_refl. cbn [negb].
    rewrite filter_other_identity.
    + rewrite (whole_quantity_unique _ _ _ Hitem Hentry).
      apply quantities_sum_eq with n; [exact Hrest | lia].
    + intros other Hother. rewrite <- Hid. now apply Hfresh.
  - destruct (Z.eqb_spec (item_id item) productId) as [Heq | _].
    + elim (Hfresh entry Hin). congruence.
    + cbn [negb]. apply quantities_sum_eq with (k0 + (n - k)); [| lia].
      constructor; [exact Hitem | now apply IH].
Qed.

(** X2. In a cart without repeated ids whose quantities are whole numbers
    that are not negative, with a sum [n] below 2^53 - 1, the item count is
    [n] and [addToCart(productId)] raises it to exactly [n + 1] when the
    catalog has the product and leaves it alone otherwise; the cart never
    loses an entry and gains one exactly when the product is in the catalog
    and not yet in the cart. *)
Theorem addToCart_count (s : App) (productId : Z) (n : Z) :
  distinct_ids (cart s) -> quantities_sum (cart s) n -> n + 1 < 2 ^ 53 ->
  let s' := exec (addToCart productId) s in
  cartCount s = of_Z n
  /\ (in_catalog s productId -> cartCount s' = of_Z (n + 1))
  /\ (~ in_catalog s productId -> cartCount s' = cartCount s)
  /\ (List.length (cart s') = S (List.length (cart s))
      <-> in_catalog s productId /\ ~ in_cart s productId)
  /\ (List.length (cart s') = List.length (cart s)
      <-> ~ (in_catalog s productId /\ ~ in_cart s productId)).
Proof.
  intros Hids Hsum Hbound. cbv zeta.
  split; [apply cartCount_whole; [exact Hsum | lia] |].
  unfold exec. rewrite addToCart_run.
  destruct (find _ (products s)) as [product |] eqn:Ecat.
  - assert (in_catalog s productId) as Hcat.
    { apply find_some in Ecat as [Hin Hid]. exists product.
      split; [exact Hin | lia]. }
    destruct (find _ (cart s)) as [entry |] eqn:Ecart;
      cbn [fst snd cart set_cart].
    + apply find_some in Ecart as [Hin Hid]. apply Z.eqb_eq in Hid.
      assert (in_cart s productId) as Hcart by now exists entry.
      destruct (quantities_sum_In _ _ _ Hsum Hin) as (k & Hentry & Hle).
      assert (quantities_sum
                (map (fun item =>
                        if item_id item =? productId
                        then with_quantity item (add (quantity item) (of_Z 1))
                        else item) (cart s)) (n - k + (k + 1))) as Hnew.
      { apply (quantities_sum_requantify productId
                 (fun q => add q (of_Z 1)) (cart s) n entry k (k + 1));
          try assumption.
        - destruct Hentry as [-> Hk]. apply add_whole; lia.
        - destruct Hentry as [_ Hk]. lia. }
      rewrite length_map.
      split; [| split; [tauto | split; [split; [lia | tauto] | tauto]]].
      intros _. apply cartCount_whole; [| lia].
      cbn [cart set_cart]. apply quantities_sum_eq with (1 := Hnew). lia.
    + apply find_item_None in Ecart as Hnot.
      rewrite List.length_app. cbn [List.length].
      split; [| split; [tauto | split; [split; [tauto | lia] | ]]].
      * intros _. apply cartCount_whole; [| lia]. cbn [cart set_cart].
        apply quantities_sum_app; [exact Hsum |].
        apply (quantities_sum_cons _ 1 _ 0); [| constructor].
        split; [reflexivity | lia].
      * split; [lia | tauto].
  - apply find_id_None in Ecat. cbn [fst snd].
    split; [tauto | split; [reflexivity | split; [split; [lia | tauto] |]]].
    split; [tauto | reflexivity].
Qed.

Lemma addToCart_count_witness :
  cartCount demo_shop = of_Z 3
  /\ cartCount (exec (addToCart 3) demo_shop) = of_Z 4
  /\ cartCount (exec (addToCart 1) demo_shop) = of_Z 4.
Proof.
  assert (3 + 1 < 2 ^ 53) as Hbound by lia.
  split; [| split].
  - exact (proj1 (addToCart_count demo_shop 3 3 (proj2 demo_shop_invariant)
                    demo_shop_quantities Hbound)).
  - apply (proj1 (proj2 (addToCart_count demo_shop 3 3
                           (proj2 demo_shop_invariant)
                           demo_shop_quantities Hbound))).
    exact demo_shop_in_catalog_3.
  - apply (proj1 (proj2 (addToCart_count demo_shop 1 3
                           (proj2 demo_shop_invariant)
                           demo_shop_quantities Hbound))).
    eexists. split; [left; reflexivity | reflexivity].
Defined.

(** X3. In a cart without repeated ids whose quantities are whole numbers
    that are not negative, with a sum [n] below 2^53, removing an entry of
    quantity [k] takes the item count from [n] to [n - k], and setting its
    quantity to a positive whole number [r] takes it to [n - k + r] as long
    as that is below 2^53. *)
Theorem cartCount_after_change (s : App) (entry : CartItem) (n k : Z) :
  distinct_ids (cart s) -> quantities_sum (cart s) n -> n < 2 ^ 53 ->
  In entry (cart s) -> whole_quantity entry k ->
  cartCount s = of_Z n
  /\ cartCount (exec (removeFromCart (item_id entry)) s) = of_Z (n - k)
  /\ forall r,
       0 < r -> n - k + r < 2 ^ 53 ->
       cartCount (exec (updateCartItemQuantity (item_id entry) (of_Z r)) s)
       = of_Z (n - k + r).
Proof.
  intros Hids Hsum Hbound Hin Hentry.
  destruct (quantities_sum_In _ _ _ Hsum Hin) as (k' & Hentry' & Hle).
  rewrite <- (whole_quantity_unique _ _ _ Hentry Hentry') in Hle.
  pose proof Hentry as [Hq Hk].
  split; [now apply cartCount_whole | split].
  - unfold exec. rewrite removeFromCart_run. cbn [fst snd].
    apply cartCount_whole; [| lia]. cbn [cart set_cart].
    now apply (quantities_sum_remove (item_id entry) (cart s) n entry k).
  - intros r Hr Hnew. unfold exec.
    rewrite updateCartItemQuantity_run.
    + cbn [fst snd]. apply cartCount_whole; [| lia]. cbn [cart set_cart].
      apply (quantities_sum_requantify (item_id entry) (fun _ => of_Z r)
               (cart s) n entry k r); try assumption; try reflexivity.
      lia.
    + rewrite leb_whole by lia. apply Z.leb_gt. exact Hr.
Qed.

Lemma cartCount_after_change_witness :
  cartCount (exec (removeFromCart 3) demo_shop) = of_Z 1
  /\ cartCount (exec (updateCartItemQuantity 3 (of_Z 7)) demo_shop) = of_Z 8.
Proof.
  assert (In (mkCartItem demo_cable (of_Z 2)) (cart demo_shop)) as Hin
    by (left; reflexivity).
  assert (whole_quantity (mkCartItem demo_cable (of_Z 2)) 2) as Hentry
    by (split; [reflexivity | lia]).
  assert (3 < 2 ^ 53) as Hbound by lia.
  pose proof (cartCount_after_change demo_shop (mkCartItem demo_cable (of_Z 2))
                3 2 (proj2 demo_shop_invariant) demo_shop_quantities Hbound
                Hin Hentry) as (_ & Hremove & Hupdate).
  split; [exact Hremove | apply (Hupdate 7); lia].
Defined.

(** A sum of binary64 values that are at least 1, started from such a
    value, is such a value. *)
Lemma fold_quantities_ge_one (c : list CartItem) (start : number) :
  quantities_at_least_one c ->
  valid start = true -> leb (of_Z 1) start = true ->
  let total :=
    fold_left (fun total item => add total (quantity item)) c start in
  valid total = true /\ leb (of_Z 1) total = true.
Proof.
  cbv zeta. intros Hall. revert start.
  induction Hall as [| item c [Hvalid Hone] _ IH]; intros start Hv Hs;
    [now split |].
  cbn [fold_left]. apply IH; [now apply add_valid | now apply add_ge_one].
Qed.

Lemma add_zero_ge_one (q : number) :
  leb (of_Z 1) q = true -> add (of_Z 0) q = q.
Proof.
  intros Hq. destruct (leb_one_inv q Hq) as [-> | (m & e & -> & _)];
    reflexivity.
Qed.

(** X4. While every quantity is a binary64 value that is at least 1, the
    item count of a cart that is not empty is a binary64 value that is at
    least 1, so the count is 0 exactly when the cart is empty: the guard of
    [checkout], which tests the length, and a test of the count agree. *)
Theorem cartCount_zero_iff_empty (s : App) :
  quantities_at_least_one (cart s) ->
  valid (cartCount s) = true
  /\ (cart s <> [] -> leb (of_Z 1) (cartCount s) = true)
  /\ (eqb (cartCount s) (of_Z 0) = true <-> cart s = []).
Proof.
  intros Hall. unfold cartCount.
  destruct (cart s) as [| item rest] eqn:Ecart.
  - split; [reflexivity | split; [intros Hne; now elim Hne |]].
    split; reflexivity.
  - inversion Hall as [| item' rest' [Hvalid Hone] Hrest]; subst.
    cbn [fold_left]. rewrite (add_zero_ge_one _ Hone).
    destruct (fold_quantities_ge_one rest (quantity item) Hrest Hvalid Hone)
      as [Hv Hge].
    split; [exact Hv | split; [intros _; exact Hge |]].
    split; [| discriminate].
    intros Hzero. rewrite (ge_one_not_zero _ Hge) in Hzero. discriminate.
Qed.

Lemma demo_shop_at_least_one : quantities_at_least_one (cart demo_shop).
Proof. repeat constructor. Defined.

Lemma cartCount_zero_iff_empty_witness :
  leb (of_Z 1) (cartCount demo_shop) = true
  /\ (eqb (cartCount demo_shop) (of_Z 0) = true <-> cart demo_shop = []).
Proof.
  pose proof (cartCount_zero_iff_empty demo_shop demo_shop_at_least_one)
    as (_ & Hge & Hzero).
  split; [apply Hge; discriminate | exact Hzero].
Defined.

(** A cart with a negative quantity can have entries and a count of 0, and
    so can a cart whose entry has the quantity 0. *)
Example cartCount_zero_nonempty :
  let s := set_cart [mkCartItem demo_cable (of_Z 2);
                     mkCartItem demo_lamp (of_Z (-2))] initial in
  cartCount s = of_Z 0 /\ cart s <> [].
Proof. split; [reflexivity | discriminate]. Qed.

(** ** Adding and removing *)

Lemma filter_other_app_fresh (productId : Z) (c : list CartItem)
    (product : Product) (q : number) :
  (forall item, In item c -> item_id item <> productId) ->
  id product = productId ->
  List.filter (fun item => negb (item_id item =? productId))
    (c ++ [mkCartItem product q]) = c.
Proof.
  intros Hno Hid. rewrite filter_app, filter_other_identity by exact Hno.
  cbn [List.filter]. rewrite item_id_mk, Hid, Z.eqb_refl. cbn [negb].
  apply app_nil_r.
Qed.

(** X5. Adding a product that has no entry in the cart and removing it
    again leaves the component exactly as it was, whether or not the catalog
    has the product. *)
Theorem addToCart_removeFromCart (s : App) (productId : Z) :
  ~ in_cart s productId ->
  exec (addToCart productId ;; removeFromCart productId) s = s.
Proof.
  intros Hnot.
  assert (forall item, In item (cart s) -> item_id item <> productId) as Hno.
  { intros item Hin Hid. apply Hnot. now exists item. }
  unfold exec, bind. rewrite addToCart_run.
  destruct (find _ (products s)) as [product |] eqn:Ecat.
  - apply find_some in Ecat as [_ Hid]. apply Z.eqb_eq in Hid.
    rewrite (proj2 (find_item_None productId s) Hnot).
    rewrite removeFromCart_run. cbn [fst snd cart set_cart].
    rewrite (filter_other_app_fresh _ _ _ _ Hno Hid).
    unfold set_cart at 1. cbn [products categories cart currentFilter
      searchQuery featuredProduct isLoading showApiWarning set_cart].
    now destruct s.
  - rewrite removeFromCart_run. cbn [fst snd].
    rewrite (filter_other_identity _ _ Hno). apply set_cart_cart.
Qed.

Lemma addToCart_removeFromCart_witness :
  exec (addToCart 2 ;; removeFromCart 2) demo_shop = demo_shop.
Proof.
  exact (addToCart_removeFromCart demo_shop 2 demo_shop_not_in_cart_2).
Defined.

(** X6. [n >= 1] calls of [addToCart] for a catalog product that has no
    entry in the cart leave the earlier entries as they were, followed by one
    entry for the product whose quantity is [n], as long as [n] is below
    2^53. *)
Theorem addToCart_repeated (s : App) (productId : Z) (n : nat) :
  in_catalog s productId -> ~ in_cart s productId ->
  Z.of_nat (S n) < 2 ^ 53 ->
  exists product,
    In product (products s) /\ id product = productId
    /\ addToCart_times (S n) productId s
       = set_cart (cart s ++ [mkCartItem product (of_Z (Z.of_nat (S n)))]) s.
Proof.
  intros Hcat Hnot.
  destruct (find (fun p => id p =? productId) (products s))
    as [product |] eqn:Ecat;
    [| now apply find_id_None in Ecat].
  apply find_some in Ecat as Hprod. destruct Hprod as [Hin Hid].
  apply Z.eqb_eq in Hid.
  assert (forall item, In item (cart s) -> item_id item <> productId) as Hno.
  { intros item Hi Hd. apply Hnot. now exists item. }
  intros Hbound.
  exists product. split; [exact Hin | split; [exact Hid |]].
  induction n as [| n IH].
  - cbn [addToCart_times]. unfold exec. rewrite addToCart_run, Ecat.
    rewrite (proj2 (find_item_None productId s) Hnot). reflexivity.
  - change (addToCart_times (S (S n)) productId s)
      with (exec (addToCart productId) (addToCart_times (S n) productId s)).
    rewrite IH by lia. unfold exec. rewrite addToCart_run.
    cbn [products cart set_cart]. rewrite Ecat.
    rewrite (find_app_None _ _ _ (proj2 (find_item_None productId s) Hnot)).
    cbn [find]. rewrite item_id_mk, Hid, Z.eqb_refl. cbn [fst snd].
    rewrite map_app, map_not_in_cart by exact Hno.
    cbn [map]. rewrite item_id_mk, Hid, Z.eqb_refl.
    unfold with_quantity. cbn [product_fields quantity].
    rewrite add_whole by lia.
    unfold set_cart. cbn [products categories cart currentFilter
      searchQuery featuredProduct isLoading showApiWarning].
    do 5 f_equal. lia.
Qed.

Lemma addToCart_repeated_witness :
  exists product,
    In product (products demo_shop) /\ id product = 2
    /\ addToCart_times 5 2 demo_shop
       = set_cart (cart demo_shop ++ [mkCartItem product (of_Z 5)]) demo_shop.
Proof.
  assert (Z.of_nat 5 < 2 ^ 53) as Hbound by reflexivity.
  exact (addToCart_repeated demo_shop 2 4
           demo_shop_in_catalog_2 demo_shop_not_in_cart_2 Hbound).
Defined.

(** ** Loading *)

(** X7. Whatever the request delivers, [loadProducts] ends normally, shows
    nothing, ends with the loading flag off and a catalog that is not empty,
    and touches only the catalog and the two flags. The advisory flag ends
    up set exactly when the request delivered no data, whatever it was
    before; a delivered non-empty list becomes the catalog as it is; and a
    second call with the same outcome changes nothing more. *)
Theorem loadProducts_outcome (s : App) (fetched : Response Product) :
  let s' := exec (loadProducts fetched) s in
  completion (loadProducts fetched) s = Normal tt
  /\ alerts (loadProducts fetched) s = []
  /\ isLoading s' = false
  /\ products s' <> []
  /\ (showApiWarning s' = true <-> no_data fetched)
  /\ (forall delivered,
        fetched = Resolved (Some delivered) -> delivered <> [] ->
        products s' = delivered)
  /\ s' = set_isLoading false
            (set_showApiWarning (showApiWarning s')
               (set_products (products s') s))
  /\ exec (loadProducts fetched) s' = s'.
Proof.
  cbv zeta. unfold completion, exec, alerts. rewrite !loadProducts_run.
  destruct fetched as [failure | [[| first rest] |]]; cbn [fst snd];
    (repeat split; try reflexivity; try discriminate; try tauto;
     try (intros Hfail; now destruct Hfail);
     try (intros delivered [= <-] Hne; first [reflexivity | now elim Hne])).
Qed.

(** X8. Whatever the request delivers, [loadCategories] ends normally,
    shows nothing and changes the category list only, so that neither flag
    moves; the list is the delivered one when that is not empty and the
    fallback list otherwise, hence never empty; and a second call with the
    same outcome changes nothing more. *)
Theorem loadCategories_outcome (s : App) (fetched : Response string) :
  let s' := exec (loadCategories fetched) s in
  completion (loadCategories fetched) s = Normal tt
  /\ alerts (loadCategories fetched) s = []
  /\ s' = set_categories (categories s') s
  /\ categories s' <> []
  /\ (forall delivered,
        fetched = Resolved (Some delivered) -> delivered <> [] ->
        categories s' = delivered)
  /\ (no_data fetched -> categories s' = sampleCategories)
  /\ exec (loadCategories fetched) s' = s'.
Proof.
  cbv zeta. unfold completion, exec, alerts. rewrite !loadCategories_run.
  destruct fetched as [failure | [[| first rest] |]]; cbn [fst snd];
    (repeat split; try reflexivity; try discriminate; try tauto;
     try (intros Hfail; now destruct Hfail);
     try (intros delivered [= <-] Hne; first [reflexivity | now elim Hne])).
Qed.

Lemma bind_normal {A B} (m : M A) (k : A -> M B) (s : App) (a : A) :
  completion m s = Normal a ->
  completion (bind m k) s = completion (k a) (exec m s)
  /\ exec (bind m k) s = exec (k a) (exec m s)
  /\ alerts (bind m k) s = (alerts m s ++ alerts (k a) (exec m s))%list.
Proof.
  unfold completion, exec, alerts, bind. destruct (m s) as [[r s1] out1].
  cbn [fst snd]. intros ->. now destruct (k a s1) as [[r2 s2] out2].
Qed.

Lemma loadProducts_frame (fetched : Response Product) (s : App) :
  let s' := exec (loadProducts fetched) s in
  alerts (loadProducts fetched) s = []
  /\ isLoading s' = false
  /\ cart s' = cart s /\ currentFilter s' = currentFilter s
  /\ searchQuery s' = searchQuery s
  /\ (no_data fetched ->
      products s' = sampleProducts /\ showApiWarning s' = true).
Proof.
  cbv zeta. unfold exec, alerts. rewrite loadProducts_run.
  destruct fetched as [failure | [[| first rest] |]]; cbn [fst snd];
    repeat match goal with |- _ /\ _ => split end; try reflexivity;
    intros Hfail; solve [now destruct Hfail | now split].
Qed.

Lemma loadCategories_frame (fetched : Response string) (s : App) :
  let s' := exec (loadCategories fetched) s in
  alerts (loadCategories fetched) s = []
  /\ s' = set_categories (categories s') s
  /\ categories s' <> [].
Proof.
  cbv zeta. unfold exec, alerts. rewrite loadCategories_run.
  destruct fetched as [failure | [[| first rest] |]]; cbn [fst snd];
    repeat match goal with |- _ /\ _ => split end; try reflexivity;
    discriminate.
Qed.

Lemma loadFeaturedProduct_quiet (random : number) (s : App) :
  completion (loadFeaturedProduct random) s = Normal tt
  /\ alerts (loadFeaturedProduct random) s = [].
Proof.
  unfold completion, alerts. rewrite loadFeaturedProduct_run.
  now destruct (products s).
Qed.

Lemma loadFeaturedProduct_frame (random : number) (s : App) :
  let s' := exec (loadFeaturedProduct random) s in
  cart s' = cart s /\ isLoading s' = isLoading s.
Proof.
  cbv zeta. unfold exec. rewrite loadFeaturedProduct_run.
  now destruct (products s).
Qed.

(** X9. After [ngOnInit], whatever the two requests deliver and for every
    outcome of [Math.random()], a binary64 value in [0, 1): nothing was
    thrown, the loading flag is off, the catalog and the category list are
    not empty, the featured product is a member of the catalog, and the cart
    and the filter state are as before. When the products request delivered
    no data, the catalog is the fallback dataset, the advisory flag is set
    and the featured product is the one sample product, whatever the random
    number. *)
Theorem ngOnInit_outcome (fetchedProducts : Response Product)
    (fetchedCategories : Response string) (random : number) (s : App) :
  random_value random -> array_sized fetchedProducts ->
  let start := ngOnInit fetchedProducts fetchedCategories random in
  let s' := exec start s in
  completion start s = Normal tt
  /\ alerts start s = []
  /\ isLoading s' = false
  /\ products s' <> [] /\ categories s' <> []
  /\ (exists product,
        featuredProduct s' = Some product /\ In product (products s'))
  /\ cart s' = cart s /\ currentFilter s' = currentFilter s
  /\ searchQuery s' = searchQuery s
  /\ (no_data fetchedProducts ->
      products s' = sampleProducts /\ showApiWarning s' = true
      /\ featuredProduct s' = hd_error sampleProducts).
Proof.
  intros Hrandom Hsized. cbv zeta. unfold ngOnInit.
  destruct (loadProducts_completes fetchedProducts s) as [Hdone1 Hne].
  pose proof (loadProducts_sized fetchedProducts s Hsized) as Hlen.
  destruct (loadProducts_frame fetchedProducts s)
    as (Hquiet1 & Hloading & Hcart & Hfilter & Hquery & Hfallback).
  destruct (bind_normal _
              (fun _ => loadCategories fetchedCategories ;;
                        loadFeaturedProduct random) _ _ Hdone1)
    as (-> & -> & ->).
  set (s1 := exec (loadProducts fetchedProducts) s) in *.
  destruct (loadCategories_completes fetchedCategories s1) as [Hdone2 Hsame].
  destruct (loadCategories_frame fetchedCategories s1)
    as (Hquiet2 & Hframe & Hcategories).
  destruct (bind_normal _ (fun _ => loadFeaturedProduct random) _ _ Hdone2)
    as (-> & -> & ->).
  set (s2 := exec (loadCategories fetchedCategories) s1) in *.
  destruct (loadFeaturedProduct_quiet random s2) as [Hdone3 Hquiet3].
  rewrite Hdone3, Hquiet1, Hquiet2, Hquiet3.
  assert (products s2 <> []) as Hne2 by now rewrite Hsame.
  assert (Z.of_nat (List.length (products s2)) < 2 ^ 53) as Hlen2
    by now rewrite Hsame.
  destruct (loadFeaturedProduct_picks s2 random Hrandom Hlen2 Hne2)
    as (product & Hin & Hpicked).
  rewrite Hpicked.
  cbn [products categories cart currentFilter searchQuery featuredProduct
       isLoading showApiWarning set_featuredProduct].
  rewrite Hframe.
  cbn [products categories cart currentFilter searchQuery featuredProduct
       isLoading showApiWarning set_categories].
  rewrite Hframe in Hin. cbn [products set_categories] in Hin.
  repeat match goal with |- _ /\ _ => split end;
    try reflexivity; try assumption.
  - now exists product.
  - intros Hfail. destruct (Hfallback Hfail) as [Hsample Hflag].
    split; [exact Hsample | split; [exact Hflag |]].
    rewrite Hsample in Hin. destruct Hin as [<- | []]. reflexivity.
Qed.

Lemma ngOnInit_outcome_witness :
  let s' := exec (ngOnInit (Rejected NetworkFailure) (Resolved (Some ["a"]))
                    (decimal 7 1)) demo_shop in
  products s' = sampleProducts /\ showApiWarning s' = true
  /\ featuredProduct s' = hd_error sampleProducts
  /\ cart s' = cart demo_shop.
Proof.
  destruct (ngOnInit_outcome (Rejected NetworkFailure) (Resolved (Some ["a"]))
              (decimal 7 1) demo_shop random_value_seven_tenths I)
    as (_ & _ & _ & _ & _ & _ & Hcart & _ & _ & Hfallback).
  destruct (Hfallback I) as (Hproducts & Hflag & Hfeatured).
  cbv zeta. exact (conj Hproducts (conj Hflag (conj Hfeatured Hcart))).
Defined.

(** A delivered catalog of ten products and the random number 0.7. *)
Example ngOnInit_demo :
  option_map id
    (featuredProduct
       (exec (ngOnInit (Resolved (Some (products demo_ten)))
                (Rejected NetworkFailure) (decimal 7 1)) initial))
  = Some 7.
Proof. vm_compute. reflexivity. Qed.

(** ** Changing the filter state *)

Lemma filter_everything {A} (f : A -> bool) (l : list A) :
  (forall x, In x l -> f x = true) -> List.filter f l = l.
Proof.
  induction l as [| x l IH]; intros Hall; simpl; [reflexivity |].
  rewrite (Hall x (or_introl eq_refl)). f_equal.
  apply IH. intros y Hy. apply Hall. now right.
Qed.

Lemma filter_narrower {A} (f g : A -> bool) (l : list A) :
  (forall x, f x = true -> g x = true) ->
  subsequence (List.filter f l) (List.filter g l).
Proof.
  intros Himp. induction l as [| x l IH]; simpl; [constructor |].
  destruct (f x) eqn:Ef.
  - rewrite (Himp x Ef). now constructor.
  - destruct (g x); [now constructor | exact IH].
Qed.

Section FilterState.

Variable toLowerCase : string -> string.

(** X10. Choosing a category never shows a product that the choice "all"
    does not show, and keeps the order; with a category other than "all"
    every product shown has exactly that category, character for character;
    and the choice touches nothing but the category filter. *)
Theorem onCategoryFilter_narrows (s : App) (chosen : string) :
  let s' := exec (onCategoryFilter chosen) s in
  s' = set_currentFilter chosen s
  /\ subsequence (filteredProducts toLowerCase s')
       (filteredProducts toLowerCase (exec (onCategoryFilter "all") s))
  /\ (chosen <> "all" ->
      forall product,
        In product (filteredProducts toLowerCase s') ->
        category product = chosen).
Proof.
  cbv zeta. split; [reflexivity | split].
  - unfold filteredProducts, exec. cbn [onCategoryFilter write fst snd
      products currentFilter searchQuery set_currentFilter].
    apply filter_narrower. intros product H.
    apply andb_true_iff in H as [_ Hsearch]. now rewrite Hsearch.
  - intros Hne product Hin. unfold filteredProducts, exec in Hin.
    cbn [onCategoryFilter write fst snd products currentFilter searchQuery
         set_currentFilter] in Hin.
    apply filter_In in Hin as [_ H].
    apply andb_true_iff in H as [Hcategory _].
    apply orb_true_iff in Hcategory as [Hall | Hsame].
    + apply String.eqb_eq in Hall. contradiction.
    + now apply String.eqb_eq in Hsame.
Qed.

Hypothesis toLowerCase_empty : toLowerCase "" = "".

(** X11. With the filter "all" and an empty query the whole catalog is
    shown; typing a query never shows a product that the empty query does
    not show, and keeps the order; and typing touches nothing but the
    query. *)
Theorem onSearchChange_narrows (s : App) (query : string) :
  let s' := exec (onSearchChange query) s in
  s' = set_searchQuery query s
  /\ subsequence (filteredProducts toLowerCase s')
       (filteredProducts toLowerCase (exec (onSearchChange "") s))
  /\ filteredProducts toLowerCase
       (exec (onCategoryFilter "all" ;; onSearchChange "") s)
     = products s.
Proof.
  cbv zeta. split; [reflexivity | split].
  - unfold filteredProducts, exec. cbn [onSearchChange write fst snd
      products currentFilter searchQuery set_searchQuery].
    apply filter_narrower. intros product H.
    apply andb_true_iff in H as [Hcategory _].
    rewrite Hcategory, toLowerCase_empty. reflexivity.
  - unfold filteredProducts, exec, bind. cbn [onSearchChange onCategoryFilter
      write fst snd products currentFilter searchQuery set_searchQuery
      set_currentFilter].
    apply filter_everything. intros product _.
    rewrite toLowerCase_empty. reflexivity.
Qed.

End FilterState.

Lemma onSearchChange_narrows_witness :
  ascii_toLowerCase "" = ""
  /\ subsequence
       (filteredProducts ascii_toLowerCase
          (exec (onSearchChange "ring") demo_view))
       (filteredProducts ascii_toLowerCase
          (exec (onSearchChange "") demo_view))
  /\ filteredProducts ascii_toLowerCase
       (exec (onCategoryFilter "all" ;; onSearchChange "") demo_view)
     = products demo_view.
Proof.
  split; [reflexivity |].
  exact (proj2 (onSearchChange_narrows ascii_toLowerCase eq_refl
                  demo_view "ring")).
Defined.

(** The category is compared as it is, the query without regard to case. *)
Example filter_case_demo :
  filteredProducts ascii_toLowerCase
    (exec (onCategoryFilter "Electronics") demo_view) = []
  /\ map id (filteredProducts ascii_toLowerCase
               (exec (onSearchChange "WIRELESS") demo_view)) = [1].
Proof. vm_compute. auto. Qed.

(** ** Checkout, again *)

Section CheckoutTwice.

Variable toFixed : number -> nat -> string.
Variable Number_toString : number -> string.

(** X12. After [checkout()] the cart is empty, the item count is 0 and the
    total is +0, whatever the cart was; a call shows at most one message;
    the catalog, the filter state and the flags are never touched; and a
    second call shows nothing and changes nothing. *)
Theorem checkout_settles (s : App) :
  let s' := exec (checkout toFixed Number_toString) s in
  cart s' = [] /\ cartCount s' = of_Z 0 /\ cartTotal s' = S754_zero false
  /\ s' = set_cart [] s
  /\ (List.length (alerts (checkout toFixed Number_toString) s) <= 1)%nat
  /\ checkout toFixed Number_toString s' = (Normal tt, s', []).
Proof.
  cbv zeta. unfold exec, alerts. rewrite !checkout_run.
  destruct (cart s) as [| item rest] eqn:Ecart; cbn [fst snd].
  - rewrite Ecart. unfold cartCount, cartTotal. rewrite Ecart.
    repeat split; try reflexivity; try (cbn; lia).
    rewrite <- Ecart. symmetry. apply set_cart_cart.
  - repeat split; try reflexivity; cbn; lia.
Qed.

End CheckoutTwice.

Example checkout_twice_demo :
  alerts (checkout reference_toFixed reference_toString ;;
          checkout reference_toFixed reference_toString) demo_shop
  = ["Checkout successful!" ++ nl ++ "Total: 25.00" ++ nl ++ "Items: 3"].
Proof. vm_compute. reflexivity. Qed.

(** ** Star rendering for any rating *)






Example generateStars_marker_count_demo :
  generateStars (-3 # 2) = markers 0 0 7
  /\ generateStars (26 # 5) = markers 5 0 0
  /\ generateStars (11 # 2) = markers 5 1 0.
Proof. repeat split; reflexivity. Qed.

(** ** The decorative discount *)

Section DiscountRange.

Variable toFixed : number -> nat -> string.
Variable Number_of_string : string -> number.

(** X14. For every outcome of [Math.random()], a binary64 value in [0, 1),
    the discount percentage of [getDiscountedPrice] is a whole number from
    10 to 39, whatever the price and whatever the rounding of the product
    with 30; both ends are reached, and the random number 0.7 gives 31. *)
Theorem getDiscountedPrice_percent (price : number) (random : number) :
  random_value random ->
  let percent (r : number) :=
    discountPercent (getDiscountedPrice toFixed Number_of_string price r) in
  (exists k, 10 <= k <= 39 /\ percent random = of_Z k)
  /\ percent (of_Z 0) = of_Z 10
  /\ percent (decimal 99 2) = of_Z 39
  /\ percent (decimal 7 1) = of_Z 31.
Proof.
  intros (Hvalid & Hlo & Hhi). cbv zeta. unfold getDiscountedPrice.
  cbn [discountPercent].
  split; [| split; [| split]; vm_compute; reflexivity].
  destruct (floor_mul_below random 30 Hvalid Hlo Hhi ltac:(lia))
    as (k & Hk & Hwhole).
  exists (k + 10). split; [lia |].
  apply whole_add; try lia; exact Hwhole.
Qed.

End DiscountRange.

Lemma getDiscountedPrice_percent_witness :
  exists k,
    10 <= k <= 39
    /\ discountPercent
         (getDiscountedPrice reference_toFixed reference_Number
            (decimal 12999 2) (decimal 5 1)) = of_Z k.
Proof.
  assert (random_value (decimal 5 1)) as Hrandom by (repeat split).
  exact (proj1 (getDiscountedPrice_percent reference_toFixed reference_Number
                  (decimal 12999 2) (decimal 5 1) Hrandom)).
Defined.

(** The sample product at the random number 0.5: 25 percent, and the price
    129.99 raised by a quarter, printed with two digits and read back. *)
Example getDiscountedPrice_demo :
  getDiscountedPrice reference_toFixed reference_Number
    (decimal 12999 2) (decimal 5 1)
  = mkDiscount (of_Z 25) (decimal 16249 2).
Proof. vm_compute. reflexivity. Qed.

(** ** The running total *)

(** X15. Adding a catalog product that has no entry in the cart adds the
    price of the product, times 1, to the running total, in the arithmetic
    of the program; a call for an id the catalog does not have leaves the
    total as it was. *)
Theorem addToCart_total (s : App) (productId : Z) :
  ~ in_cart s productId ->
  let s' := exec (addToCart productId) s in
  (~ in_catalog s productId -> cartTotal s' = cartTotal s)
  /\ (in_catalog s productId ->
      exists product,
        In product (products s) /\ id product = productId
        /\ cartTotal s'
           = add (cartTotal s) (mul (price product) (of_Z 1))).
Proof.
  intros Hnot. cbv zeta. unfold exec. rewrite addToCart_run.
  destruct (find _ (products s)) as [product |] eqn:Ecat.
  - rewrite (proj2 (find_item_None productId s) Hnot). cbn [fst snd].
    apply find_some in Ecat as [Hin Hid]. apply Z.eqb_eq in Hid.
    split.
    + intros Hno. elim Hno. now exists product.
    + intros _. exists product. split; [exact Hin | split; [exact Hid |]].
      unfold cartTotal. cbn [cart set_cart]. rewrite fold_left_app.
      reflexivity.
  - apply find_id_None in Ecat. cbn [fst snd]. split; [reflexivity |].
    intros Hcat. contradiction.
Qed.

Lemma addToCart_total_witness :
  exists product,
    In product (products demo_shop) /\ id product = 2
    /\ cartTotal (exec (addToCart 2) demo_shop)
       = add (cartTotal demo_shop) (mul (price product) (of_Z 1)).
Proof.
  exact (proj2 (addToCart_total demo_shop 2 demo_shop_not_in_cart_2)
           demo_shop_in_catalog_2).
Defined.

Example addToCart_total_demo :
  reference_toFixed (cartTotal (exec (addToCart 2) demo_shop)) 2 = "193.00".
Proof. vm_compute. reflexivity. Qed.

(** ** Sequences of calls *)

Lemma ngOnInit_quiet (fetchedProducts : Response Product)
    (fetchedCategories : Response string) (random : number) (s : App) :
  let start := ngOnInit fetchedProducts fetchedCategories random in
  completion start s = Normal tt
  /\ alerts start s = []
  /\ cart (exec start s) = cart s
  /\ isLoading (exec start s) = false.
Proof.
  cbv zeta. unfold ngOnInit.
  destruct (loadProducts_completes fetchedProducts s) as [Hdone1 _].
  destruct (loadProducts_frame fetchedProducts s)
    as (Hquiet1 & Hloading & Hcart & _).
  destruct (bind_normal _
              (fun _ => loadCategories fetchedCategories ;;
                        loadFeaturedProduct random) _ _ Hdone1)
    as (-> & -> & ->).
  set (s1 := exec (loadProducts fetchedProducts) s) in *.
  destruct (loadCategories_completes fetchedCategories s1) as [Hdone2 _].
  destruct (loadCategories_frame fetchedCategories s1)
    as (Hquiet2 & Hframe & _).
  destruct (bind_normal _ (fun _ => loadFeaturedProduct random) _ _ Hdone2)
    as (-> & -> & ->).
  set (s2 := exec (loadCategories fetchedCategories) s1) in *.
  destruct (loadFeaturedProduct_quiet random s2) as [Hdone3 Hquiet3].
  destruct (loadFeaturedProduct_frame random s2) as [Hcart3 Hloading3].
  rewrite Hdone3, Hquiet1, Hquiet2, Hquiet3, Hcart3, Hloading3.
  rewrite Hframe. cbn [cart isLoading set_categories].
  now repeat split.
Qed.

Section Sessions.

Variable toFixed : number -> nat -> string.
Variable Number_toString : number -> string.

Lemma call_completes (a : action) (s : App) :
  completion (call toFixed Number_toString a) s = Normal tt.
Proof.
  destruct a; cbn [call]; try reflexivity.
  - apply ngOnInit_quiet.
  - apply loadProducts_completes.
  - apply loadCategories_completes.
  - apply loadFeaturedProduct_quiet.
  - unfold completion. rewrite addToCart_run.
    destruct (find _ (products s)); [| reflexivity].
    now destruct (find _ (cart s)).
  - unfold completion, updateCartItemQuantity.
    now destruct (leb requested (of_Z 0)).
  - unfold completion. rewrite checkout_run. now destruct (cart s).
Qed.

Lemma call_alerts (a : action) (s : App) :
  (List.length (alerts (call toFixed Number_toString a) s)
   <= if is_checkout a then 1 else 0)%nat.
Proof.
  destruct a; cbn [call is_checkout]; try (cbn; lia).
  - rewrite (proj1 (proj2 (ngOnInit_quiet fetchedProducts fetchedCategories
                             random s))). cbn. lia.
  - rewrite (proj1 (loadProducts_frame fetched s)). cbn. lia.
  - rewrite (proj1 (loadCategories_frame fetched s)). cbn. lia.
  - rewrite (proj2 (loadFeaturedProduct_quiet random s)). cbn. lia.
  - unfold alerts. rewrite addToCart_run.
    destruct (find _ (products s)); [| cbn; lia].
    destruct (find _ (cart s)); cbn; lia.
  - unfold alerts, updateCartItemQuantity.
    destruct (leb requested (of_Z 0)); cbn; lia.
  - unfold alerts. rewrite checkout_run. destruct (cart s); cbn; lia.
Qed.

(** What a call does to the cart and to the loading flag. *)
Lemma call_cart (a : action) (s : App) :
  let s' := exec (call toFixed Number_toString a) s in
  (isLoading s = false -> isLoading s' = false)
  /\ match a with
     | AddToCart productId => s' = exec (addToCart productId) s
     | RemoveFromCart productId => s' = exec (removeFromCart productId) s
     | UpdateCartItemQuantity productId requested =>
         s' = exec (updateCartItemQuantity productId requested) s
     | ClearCart => cart s' = []
     | Checkout => cart s' = [] \/ cart s' = cart s
     | _ => cart s' = cart s
     end.
Proof.
  cbv zeta. destruct a; cbn [call]; try (split; [solve [auto] | reflexivity]).
  - destruct (ngOnInit_quiet fetchedProducts fetchedCategories random s)
      as (_ & _ & Hcart & Hloading). split; [auto | exact Hcart].
  - destruct (loadProducts_frame fetched s) as (_ & Hl & Hcart & _).
    split; [auto | exact Hcart].
  - destruct (loadCategories_frame fetched s) as (_ & Hframe & _).
    rewrite Hframe. split; [auto | reflexivity].
  - destruct (loadFeaturedProduct_frame random s) as [Hcart Hl].
    split; [now rewrite Hl | exact Hcart].
  - split; [| reflexivity]. unfold exec. rewrite addToCart_run.
    destruct (find _ (products s)); [| auto].
    destruct (find _ (cart s)); auto.
  - split; [| reflexivity]. unfold exec, updateCartItemQuantity.
    destruct (leb requested (of_Z 0)); auto.
  - unfold exec. rewrite checkout_run.
    destruct (cart s) eqn:Ecart; cbn [fst snd]; split; auto.
Qed.

Lemma call_keeps_distinct (a : action) (s : App) :
  distinct_ids (cart s) ->
  distinct_ids (cart (exec (call toFixed Number_toString a) s)).
Proof.
  intros Hids. destruct (call_cart a s) as [_ Hcart].
  destruct a; try (rewrite Hcart; exact Hids).
  - rewrite Hcart. now apply addToCart_keeps_distinct.
  - rewrite Hcart. now apply removeFromCart_keeps_distinct.
  - rewrite Hcart. now apply updateCartItemQuantity_keeps_distinct.
  - rewrite Hcart. constructor.
  - destruct Hcart as [-> | ->]; [constructor | exact Hids].
Qed.

Lemma call_keeps_invariant (a : action) (s : App) :
  settled_call a -> cart_invariant (cart s) ->
  cart_invariant (cart (exec (call toFixed Number_toString a) s)).
Proof.
  intros Hsettled Hinv. destruct (call_cart a s) as [_ Hcart].
  destruct a; try (rewrite Hcart; exact Hinv).
  - rewrite Hcart. now apply addToCart_keeps_invariant.
  - rewrite Hcart. now apply removeFromCart_keeps_invariant.
  - rewrite Hcart. now apply updateCartItemQuantity_keeps_invariant.
  - rewrite Hcart. split; constructor.
  - destruct Hcart as [-> | ->]; [split; constructor | exact Hinv].
Qed.

(** X16. None of the methods that read or write the state of the component
    ([ngOnInit], [loadProducts], [loadCategories], [loadFeaturedProduct],
    [onSearchChange], [onCategoryFilter], [addToCart], [removeFromCart],
    [updateCartItemQuantity], [clearCart], [dismissApiWarning], [checkout])
    ever throws, and only [checkout] shows a message. After any sequence of
    such calls, in any order and with any arguments, request outcomes and
    random numbers, on a component whose cart has no repeated id and whose
    loading flag is off (such as a fresh one): the cart still has no
    repeated id, the loading flag is off, and at most one message was shown
    per call of [checkout]. If, moreover, every quantity was at least 1 and
    no call of [updateCartItemQuantity] asked for a quantity that is neither
    at most 0 nor at least 1, every quantity is still at least 1. *)
Theorem session_safe (actions : list action) (s : App) :
  distinct_ids (cart s) -> isLoading s = false ->
  let run := session toFixed Number_toString actions s in
  (forall a s0, completion (call toFixed Number_toString a) s0 = Normal tt)
  /\ (forall a s0,
        is_checkout a = false ->
        alerts (call toFixed Number_toString a) s0 = [])
  /\ distinct_ids (cart (fst run))
  /\ isLoading (fst run) = false
  /\ (List.length (snd run)
      <= List.length (List.filter is_checkout actions))%nat
  /\ (Forall settled_call actions -> cart_invariant (cart s) ->
      cart_invariant (cart (fst run))).
Proof.
  intros Hids Hloading. cbv zeta.
  split; [exact call_completes | split].
  { intros a s0 Hother. pose proof (call_alerts a s0) as Hle.
    rewrite Hother in Hle.
    destruct (alerts (call toFixed Number_toString a) s0);
      [reflexivity | cbn in Hle; lia]. }
  revert s Hids Hloading.
  induction actions as [| a rest IH]; intros s Hids Hloading.
  - cbn. split; [exact Hids | split; [exact Hloading | split; [lia | auto]]].
  - cbn [session List.filter].
    pose proof (call_keeps_distinct a s Hids) as Hids'.
    pose proof (proj1 (call_cart a s) Hloading) as Hloading'.
    specialize (IH _ Hids' Hloading').
    pose proof (call_keeps_invariant a s) as Hkeep.
    destruct (session toFixed Number_toString rest
                (exec (call toFixed Number_toString a) s)) as [s' shown].
    cbn [fst snd] in *. destruct IH as (Hi & Hl & Hshown & Hquantities).
    split; [exact Hi | split; [exact Hl | split]].
    + rewrite List.length_app. pose proof (call_alerts a s) as Hle.
      destruct (is_checkout a); cbn [List.length]; lia.
    + intros Hsettled Hinv.
      inversion Hsettled as [| a' rest' Ha Hrest]; subst.
      apply Hquantities; [exact Hrest | now apply Hkeep].
Qed.

End Sessions.

Lemma session_safe_witness :
  let actions :=
    [NgOnInit (Rejected NetworkFailure) (Resolved None) (decimal 7 1);
     AddToCart 3; Checkout; AddToCart 1;
     UpdateCartItemQuantity 1 (of_Z 0);
     UpdateCartItemQuantity 3 (decimal 5 1); Checkout] in
  distinct_ids
    (cart (fst (session reference_toFixed reference_toString actions
                  demo_shop)))
  /\ (List.length (snd (session reference_toFixed reference_toString actions
                          demo_shop)) <= 2)%nat.
Proof.
  cbv zeta.
  destruct (session_safe reference_toFixed reference_toString
              [NgOnInit (Rejected NetworkFailure) (Resolved None)
                 (decimal 7 1);
               AddToCart 3; Checkout; AddToCart 1;
               UpdateCartItemQuantity 1 (of_Z 0);
               UpdateCartItemQuantity 3 (decimal 5 1); Checkout]
              demo_shop (proj2 demo_shop_invariant) eq_refl)
    as (_ & _ & Hids & _ & Hshown & _).
  exact (conj Hids Hshown).
Defined.

Example session_demo :
  snd (session reference_toFixed reference_toString
         [AddToCart 3; Checkout; AddToCart 2;
          UpdateCartItemQuantity 2 (of_Z 0);
          LoadProducts (Rejected NetworkFailure); Checkout] demo_shop)
  = ["Checkout successful!" ++ nl ++ "Total: 35.00" ++ nl ++ "Items: 4"].
Proof. vm_compute. reflexivity. Qed.

(** ** Entries with other ids *)

Lemma filter_other_requantify (productId : Z) (f : number -> number)
    (c : list CartItem) :
  List.filter (fun item => negb (item_id item =? productId))
    (map (fun item =>
            if item_id item =? productId
            then with_quantity item (f (quantity item))
            else item) c)
  = List.filter (fun item => negb (item_id item =? productId)) c.
Proof.
  induction c as [| item c IH]; cbn [map List.filter]; [reflexivity |].
  destruct (item_id item =? productId) eqn:E.
  - unfold with_quantity at 1, item_id at 1. cbn [product_fields].
    fold (item_id item). rewrite E. cbn [negb]. exact IH.
  - rewrite E. cbn [negb]. now rewrite IH.
Qed.

Lemma filter_other_twice (productId : Z) (c : list CartItem) :
  List.filter (fun item => negb (item_id item =? productId))
    (List.filter (fun item => negb (item_id item =? productId)) c)
  = List.filter (fun item => negb (item_id item =? productId)) c.
Proof. apply filter_other_identity, filter_other_none. Qed.

(** X17. A cart operation for one id never touches the entries with other
    ids: after [addToCart], [removeFromCart] or [updateCartItemQuantity] for
    [productId], the entries with other ids are the same as before, with the
    same quantities and in the same order. *)
Theorem other_entries_untouched (s : App) (productId : Z)
    (requested : number) :
  let others c :=
    List.filter (fun item => negb (item_id item =? productId)) c in
  others (cart (exec (addToCart productId) s)) = others (cart s)
  /\ others (cart (exec (removeFromCart productId) s)) = others (cart s)
  /\ others (cart (exec (updateCartItemQuantity productId requested) s))
     = others (cart s).
Proof.
  cbv zeta. split; [| split].
  - unfold exec. rewrite addToCart_run.
    destruct (find _ (products s)) as [product |] eqn:Ecat; [| reflexivity].
    apply find_some in Ecat as [_ Hid]. apply Z.eqb_eq in Hid.
    destruct (find _ (cart s)); cbn [fst snd cart set_cart].
    + apply (filter_other_requantify productId (fun q => add q (of_Z 1))).
    + rewrite filter_app. cbn [List.filter].
      rewrite item_id_mk, Hid, Z.eqb_refl. cbn [negb]. apply app_nil_r.
  - apply filter_other_twice.
  - unfold exec, updateCartItemQuantity.
    destruct (leb requested (of_Z 0)).
    + apply filter_other_twice.
    + apply (filter_other_requantify productId (fun _ => requested)).
Qed.

Example other_entries_untouched_demo :
  map (fun item => (item_id item, quantity item))
      (cart (exec (addToCart 3 ;; updateCartItemQuantity 3 (of_Z 9) ;;
                   addToCart 2 ;; removeFromCart 3) demo_shop))
  = [(4, of_Z 1); (2, of_Z 1)].
Proof. vm_compute. reflexivity. Qed.
